(** * Xinfadi price crawler and Feishu spreadsheet sync: a shallow embedding

    The development follows the two Python modules of the repository.

    - [XinfadiCrawler] embeds [fetch_page], [fetch_all_data] and [parse_data]
      of [xinfadi_crawler.py] on answers of the expected shape, and
      [CrawlerJson] the fetch on arbitrary JSON answers;
    - [FeishuSync] embeds the token accessors, the config persistence, the
      name-collision probe and the chunked writer of [feishu_sync.py].

    Python values that come out of JSON are kept dynamically typed in
    [value]; dicts are finite maps with string keys.  Integers are [Z],
    floats are idealised as exact rationals [Q] (rounding is not modelled).
    Side effects are explicit: the crawler returns the list of events it
    performed, the sync client threads a [World] through a small
    state-and-exception monad. *)

From Stdlib Require Import ZArith QArith Lqa String Ascii List.
From stdpp Require Import gmap strings list pretty.
From Equations Require Import Equations.

Set Warnings "-register-all".

#[local] Open Scope Z_scope.

(** ** Python values *)

Inductive value :=
| VNone
| VBool (b : bool)
| VInt (z : Z)
| VFloat (q : Q)
| VStr (s : string)
| VList (l : list value)
| VDict (d : gmap string value).

(** Truth value of an object, as tested by [if], [not], [and] and [or]. *)
Definition truthy (v : value) : bool :=
  match v with
  | VNone => false
  | VBool b => b
  | VInt z => negb (z =? 0)
  | VFloat q => negb (Qeq_bool q 0)
  | VStr s => negb (String.eqb s "")
  | VList l => match l with [] => false | _ :: _ => true end
  | VDict d => negb (bool_decide (d = ∅))
  end.

(** [a or b] *)
Definition py_or (a b : value) : value := if truthy a then a else b.

(** [d.get(k, dflt)] and [d.get(k)] *)
Definition dict_get (d : gmap string value) (k : string) (dflt : value) : value :=
  default dflt (d !! k).

Definition dict_get_none (d : gmap string value) (k : string) : value :=
  default VNone (d !! k).

(** Truth value of an [Optional[str]] argument. *)
Definition str_truthy (s : option string) : bool :=
  match s with
  | Some s => negb (String.eqb s "")
  | None => false
  end.

(** * xinfadi_crawler.py *)

Module XinfadiCrawler.

Abbreviation RawRecord := (gmap string value).

(** The JSON object the listing endpoint is expected to return,
    [{list: [...], count: N, total: N}], each key optional.  This module
    runs the loop on answers of that shape; [CrawlerJson] runs it on
    arbitrary answers, and [TypedAnswers.fetch_all_data_typed] shows that
    the two agree on the answers of this shape. *)
Record PageResult := {
  pr_list : option (list RawRecord);
  pr_count : option Z;
  pr_total : option Z
}.

(** Outcome of [session.get(...)], [raise_for_status()] and [response.json()]:
    the two exception classes that [fetch_page] handles, or the parsed body. *)
Inductive http_result :=
| RequestException
| ValueError
| Json (r : PageResult).

Inductive message :=
| MsgRequestFailed
| MsgJsonFailed
| MsgStart
| MsgDateRange (start_date end_date : option string)
| MsgCategory (category : string)
| MsgMaxPages (max_pages : Z)
| MsgProgress (page : Z) (got : nat) (acc : nat) (total : Z)
| MsgDone (n : nat).

Inductive event :=
| EvGet (params : gmap string value)
| EvSleep (delay : Q)
| EvPrint (m : message).

Definition set_if_truthy (k : string) (v : option string)
    (params : gmap string value) : gmap string value :=
  match v with
  | Some s => if str_truthy v then <[k := VStr s]> params else params
  | None => params
  end.

Definition request_params (page limit : Z)
    (category product_name start_date end_date : option string)
    : gmap string value :=
  let params := <["current" := VInt page]> (<["limit" := VInt limit]> ∅) in
  let params := set_if_truthy "pubDateStartTime" start_date params in
  let params := set_if_truthy "pubDateEndTime" end_date params in
  let params := set_if_truthy "prodCat" category params in
  set_if_truthy "prodName" product_name params.

Definition empty_page : PageResult :=
  {| pr_list := Some []; pr_count := None; pr_total := Some 0 |}.

Section Fetch.

(** The remote listing service, as a function of the query it receives. *)
Variable server : gmap string value -> http_result.

Definition fetch_page (page limit : Z)
    (category product_name start_date end_date : option string)
    : PageResult * list event :=
  let params :=
    request_params page limit category product_name start_date end_date in
  match server params with
  | Json r => (r, [EvGet params])
  | RequestException => (empty_page, [EvGet params; EvPrint MsgRequestFailed])
  | ValueError => (empty_page, [EvGet params; EvPrint MsgJsonFailed])
  end.

Variables (category product_name start_date end_date : option string).
Variable limit_per_page : Z.
Variable max_pages : option Z.
Variable delay : Q.

(** [max_pages and page > max_pages] *)
Definition max_pages_exceeded (page : Z) : bool :=
  match max_pages with
  | Some m => negb (m =? 0) && (m <? page)
  | None => false
  end.

(** [result.get("count", 0) or result.get("total", 0)] *)
Definition reported_total (result : PageResult) : Z :=
  let count := default 0 (pr_count result) in
  if count =? 0 then default 0 (pr_total result) else count.

(** The three [break] statements of the loop. *)
Inductive stop := StopMaxPages | StopEmpty | StopTotal.

Inductive outcome :=
| Next (all_data : list RawRecord) (page : Z)
| Break (why : stop) (all_data : list RawRecord).

(** One pass through the body of [while True]. *)
Definition loop_body (all_data : list RawRecord) (page : Z)
    : outcome * list event :=
  if max_pages_exceeded page then
    (Break StopMaxPages all_data, [EvPrint (MsgMaxPages (default 0 max_pages))])
  else
    let '(result, ev) :=
      fetch_page page limit_per_page category product_name start_date end_date in
    let data_list := default [] (pr_list result) in
    let total := reported_total result in
    match data_list with
    | [] => (Break StopEmpty all_data, ev)
    | _ :: _ =>
        let all_data := all_data ++ data_list in
        let ev := ev ++ [EvPrint (MsgProgress page (length data_list)
                                    (length all_data) total)] in
        if total <=? Z.of_nat (length all_data) then (Break StopTotal all_data, ev)
        else (Next all_data (page + 1), ev ++ [EvSleep delay])
    end.

Fixpoint fetch_loop (fuel : nat) (all_data : list RawRecord) (page : Z)
    (log : list event) : option (stop * list RawRecord * list event) :=
  match fuel with
  | O => None
  | S fuel =>
      match loop_body all_data page with
      | (Break why all_data, ev) => Some (why, all_data, log ++ ev)
      | (Next all_data page, ev) => fetch_loop fuel all_data page (log ++ ev)
      end
  end.

Definition prelude : list event :=
  [EvPrint MsgStart]
  ++ (if str_truthy start_date || str_truthy end_date
      then [EvPrint (MsgDateRange start_date end_date)] else [])
  ++ (match category with
      | Some c => if str_truthy category then [EvPrint (MsgCategory c)] else []
      | None => []
      end).

(** [fetch_all_data]: the records returned and the events performed, or
    [None] when [fuel] iterations were not enough for the loop to end. *)
Definition fetch_all_data (fuel : nat) : option (list RawRecord * list event) :=
  match fetch_loop fuel [] 1 prelude with
  | Some (_, all_data, log) =>
      Some (all_data, log ++ [EvPrint (MsgDone (length all_data))])
  | None => None
  end.

(** *** The page sequence seen from outside the loop *)

Definition page_result (k : nat) : PageResult :=
  fst (fetch_page (Z.of_nat k) limit_per_page
         category product_name start_date end_date).

Definition page_list (k : nat) : list RawRecord :=
  default [] (pr_list (page_result k)).

(** Records of pages [1..k], in order. *)
Fixpoint acc_upto (k : nat) : list RawRecord :=
  match k with
  | O => []
  | S k' => acc_upto k' ++ page_list k
  end.

(** The three stop conditions at page [k]. *)
Definition cond_max_pages (k : nat) : Prop :=
  ∃ m, max_pages = Some m ∧ m ≠ 0 ∧ m < Z.of_nat k.

Definition cond_empty (k : nat) : Prop := page_list k = [].

Definition cond_total (k : nat) : Prop :=
  reported_total (page_result k) ≤ Z.of_nat (length (acc_upto k)).

Definition stops_at (k : nat) : Prop :=
  cond_max_pages k ∨ cond_empty k ∨ cond_total k.

(** Page [n] is the first page at which a stop condition holds. *)
Definition first_stop (n : nat) : Prop :=
  (1 ≤ n)%nat ∧ stops_at n ∧ ∀ j, (1 ≤ j < n)%nat → ¬ stops_at j.

(** The same, as a decision procedure that follows the order of the tests. *)
Definition stop_reason (k : nat) : option stop :=
  if max_pages_exceeded (Z.of_nat k) then Some StopMaxPages
  else match page_list k with
       | [] => Some StopEmpty
       | _ :: _ =>
           if reported_total (page_result k) <=? Z.of_nat (length (acc_upto k))
           then Some StopTotal else None
       end.

(** What the loop holds when it leaves at page [k]. *)
Definition collected (k : nat) : list RawRecord :=
  if max_pages_exceeded (Z.of_nat k) then acc_upto (pred k) else acc_upto k.

(** Events of the pass for page [k]. *)
Definition pass_events (k : nat) : list event :=
  snd (loop_body (acc_upto (pred k)) (Z.of_nat k)).

(** Page numbers of the requests in a log, in order. *)
Definition requested_pages (log : list event) : list value :=
  omap (λ e, match e with EvGet params => params !! "current" | _ => None end) log.

(** [(accumulated, total)] pairs of the progress lines in a log. *)
Definition progress_lines (log : list event) : list (nat * Z) :=
  omap (λ e, match e with
             | EvPrint (MsgProgress _ _ acc total) => Some (acc, total)
             | _ => None
             end) log.

End Fetch.

(** *** parse_data *)

Definition COLUMNS : list string :=
  ["一级分类"; "二级分类"; "品名"; "最低价"; "平均价"; "最高价";
   "规格"; "产地"; "单位"; "发布日期"].

(** A DataFrame cell: an arbitrary Python object, or an entry of a float
    column, where [None] is NaN. *)
Inductive cell :=
| Obj (v : value)
| Num (x : option Q).

Record DataFrame := {
  columns : list string;
  rows : list (gmap string cell)
}.

(** The dict appended to [parsed] for one raw item. *)
Definition parse_item (item : RawRecord) : gmap string cell :=
  let category :=
    py_or (dict_get item "prodCat" (VStr "")) (dict_get item "prodPcat" (VStr "")) in
  list_to_map
    [("一级分类", Obj category);
     ("二级分类", Obj (if truthy (dict_get_none item "prodPcat")
                       then dict_get item "prodPcat" (VStr "") else VStr ""));
     ("品名", Obj (dict_get item "prodName" (VStr "")));
     ("最低价", Obj (dict_get item "lowPrice" (VStr "")));
     ("平均价", Obj (dict_get item "avgPrice" (VStr "")));
     ("最高价", Obj (dict_get item "highPrice" (VStr "")));
     ("规格", Obj (dict_get item "specInfo" (VStr "")));
     ("产地", Obj (dict_get item "place" (VStr "")));
     ("单位", Obj (dict_get item "unitInfo" (VStr "")));
     ("发布日期", Obj (dict_get item "pubDate" (VStr "")))].

Section Parse.

(** [pandas.to_numeric(..., errors="coerce")] on one element: the number
    read from the object, or [None] (NaN) when it cannot be read as one.
    The function belongs to pandas and is left as a parameter. *)
Variable to_numeric : value -> option Q.

Definition to_numeric_cell (c : cell) : cell :=
  match c with
  | Obj v => Num (to_numeric v)
  | Num x => Num x
  end.

(** [df[col] = pd.to_numeric(df[col], errors="coerce")] *)
Definition coerce_column (col : string) (df : DataFrame) : DataFrame :=
  {| columns := columns df;
     rows := map (alter to_numeric_cell col) (rows df) |}.

Definition parse_data (raw_data : list RawRecord) : DataFrame :=
  match raw_data with
  | [] => {| columns := COLUMNS; rows := [] |}
  | _ :: _ =>
      let df := {| columns := COLUMNS; rows := map parse_item raw_data |} in
      foldl (λ df col, coerce_column col df) df ["最低价"; "平均价"; "最高价"]
  end.

End Parse.

(** *** The numeric coercion

    [pandas.to_numeric] is library code outside the repository.  The
    reader below takes the decimal numerals a float is written with:
    blanks around, a sign, digits with an optional fraction, an optional
    exponent. *)
Definition digit_of (c : ascii) : option Z :=
  let n := Z.of_N (N_of_ascii c) in
  if (48 <=? n) && (n <=? 57) then Some (n - 48) else None.

Fixpoint read_digits (s : string) (acc : Z) (n : nat) : Z * nat * string :=
  match s with
  | String c s' =>
      match digit_of c with
      | Some d => read_digits s' (10 * acc + d) (S n)
      | None => (acc, n, s)
      end
  | EmptyString => (acc, n, s)
  end.

Definition is_space (c : ascii) : bool :=
  let n := Z.of_N (N_of_ascii c) in (n =? 32) || ((9 <=? n) && (n <=? 13)).

Fixpoint lstrip (s : string) : string :=
  match s with
  | String c s' => if is_space c then lstrip s' else s
  | EmptyString => EmptyString
  end.

Definition strip (s : string) : string :=
  String.rev (lstrip (String.rev (lstrip s))).

Definition read_sign (s : string) : bool * string :=
  match s with
  | String "-" s' => (true, s')
  | String "+" s' => (false, s')
  | _ => (false, s)
  end.

(** The exponent part, [0] when there is none. *)
Definition read_exponent (s : string) : option Z :=
  match s with
  | EmptyString => Some 0
  | String c s' =>
      if Ascii.eqb c "e" || Ascii.eqb c "E" then
        let '(neg, body) := read_sign s' in
        let '(e, n, rest) := read_digits body 0 O in
        match n, rest with
        | S _, EmptyString => Some (if neg then - e else e)
        | _, _ => None
        end
      else None
  end.

Definition read_float (s : string) : option Q :=
  let '(neg, body) := read_sign (strip s) in
  let '(ip, n, rest) := read_digits body 0 O in
  let '(fp, k, rest) :=
    match rest with
    | String "." frac => read_digits frac 0 O
    | _ => (0, O, rest)
    end in
  match (n + k)%nat, read_exponent rest with
  | S _, Some e =>
      let m := ip * 10 ^ Z.of_nat k + fp in
      let q :=
        if 0 <=? e then Qmake (m * 10 ^ e) (Z.to_pos (10 ^ Z.of_nat k))
        else Qmake m (Z.to_pos (10 ^ (Z.of_nat k - e))) in
      Some (if neg then - q else q)%Q
  | _, _ => None
  end.

(** Modelled from the spec: [pandas.to_numeric(..., errors="coerce")],
    which the repository calls and does not define.  The spec has it as a
    best-effort numeric coercion in which a failure yields a null value
    for the cell, never an error: a number is itself, a string is the
    number it spells, anything else is null. *)
Definition pd_to_numeric (v : value) : option Q :=
  match v with
  | VInt z => Some (inject_Z z)
  | VFloat q => Some q
  | VBool b => Some (if b then 1 else 0)%Q
  | VStr s => read_float s
  | _ => None
  end.

End XinfadiCrawler.

(** * xinfadi_crawler.py: the fetch on arbitrary answers

    [response.json()] gives whatever JSON value the body holds, and
    [fetch_all_data] reads it outside any [try].  This module embeds
    [fetch_page] and [fetch_all_data] over untyped answers, with the two
    exceptions the loop can let through; [XinfadiCrawler] above is its
    restriction to answers of the expected shape. *)

Module CrawlerJson.

(** Outcome of [session.get(...)], [raise_for_status()] and
    [response.json()]. *)
Inductive http_result :=
| RequestException
| ValueError
| Parsed (body : value).

(** The exceptions [fetch_all_data] can let through. *)
Inductive exn := AttributeError | TypeError.

Inductive message :=
| MsgRequestFailed
| MsgJsonFailed
| MsgStart
| MsgDateRange (start_date end_date : option string)
| MsgCategory (category : string)
| MsgMaxPages (max_pages : Z)
| MsgProgress (page : Z) (got : nat) (acc : nat) (total : value)
| MsgDone (n : nat).

Inductive event :=
| EvGet (params : gmap string value)
| EvSleep (delay : Q)
| EvPrint (m : message).

(** The three [break] statements of the loop. *)
Inductive stop := StopMaxPages | StopEmpty | StopTotal.

(** How the loop is left: by a [break], with the records held, or by an
    exception. *)
Inductive ending :=
| Ended (why : stop) (all_data : list value)
| Uncaught (e : exn).

Inductive outcome :=
| Next (all_data : list value) (page : Z)
| Leave (how : ending).

(** What [fetch_all_data] gives its caller. *)
Inductive result :=
| Returned (all_data : list value)
| Raised (e : exn).

(** [{"list": [], "total": 0}] *)
Definition empty_page : value :=
  VDict (<["list" := VList []]> (<["total" := VInt 0]> ∅)).

(** The characters of a [str], which is held as its UTF-8 bytes: a
    character is a byte that is no continuation byte, with the
    continuation bytes that follow it. *)
Definition is_continuation (c : ascii) : bool :=
  let n := Z.of_N (N_of_ascii c) in (128 <=? n) && (n <? 192).

Fixpoint split_chars (s : string) : string * list string :=
  match s with
  | EmptyString => (EmptyString, [])
  | String c s' =>
      let '(continuation, cs) := split_chars s' in
      if is_continuation c then (String c continuation, cs)
      else (EmptyString, String c continuation :: cs)
  end.

Definition chars (s : string) : list string := snd (split_chars s).

(** [len(all_data) >= total]; [None] is the TypeError of an order
    comparison of an [int] with [None], a [str], a [list] or a [dict]. *)
Definition len_ge (n : nat) (total : value) : option bool :=
  match total with
  | VInt z => Some (z <=? Z.of_nat n)
  | VBool b => Some ((if b then 1 else 0) <=? Z.of_nat n)
  | VFloat q => Some (Qle_bool q (inject_Z (Z.of_nat n)))
  | _ => None
  end.

Section Fetch.

(** The remote listing service, as a function of the query it receives. *)
Variable server : gmap string value -> http_result.

(** The keys of a parsed JSON object in the order of the document, which
    is the order in which Python iterates the dict; the finite map does
    not record it. *)
Variable key_order : gmap string value -> list string.

Definition fetch_page (page limit : Z)
    (category product_name start_date end_date : option string)
    : value * list event :=
  let params :=
    XinfadiCrawler.request_params page limit category product_name
      start_date end_date in
  match server params with
  | Parsed body => (body, [EvGet params])
  | RequestException => (empty_page, [EvGet params; EvPrint MsgRequestFailed])
  | ValueError => (empty_page, [EvGet params; EvPrint MsgJsonFailed])
  end.

(** What [all_data.extend(data_list)] appends: the elements of a list,
    the keys of a dict, the characters of a string; [None] is the
    TypeError of iterating anything else. *)
Definition iterate (data_list : value) : option (list value) :=
  match data_list with
  | VList l => Some l
  | VDict d => Some (VStr <$> key_order d)
  | VStr s => Some (VStr <$> chars s)
  | _ => None
  end.

Variables (category product_name start_date end_date : option string).
Variable limit_per_page : Z.
Variable max_pages : option Z.
Variable delay : Q.

(** [max_pages and page > max_pages] *)
Definition max_pages_exceeded (page : Z) : bool :=
  match max_pages with
  | Some m => negb (m =? 0) && (m <? page)
  | None => false
  end.

(** [result.get("count", 0) or result.get("total", 0)] *)
Definition reported_total (result : gmap string value) : value :=
  py_or (dict_get result "count" (VInt 0)) (dict_get result "total" (VInt 0)).

(** One pass through the body of [while True]. *)
Definition loop_body (all_data : list value) (page : Z)
    : outcome * list event :=
  if max_pages_exceeded page then
    (Leave (Ended StopMaxPages all_data),
     [EvPrint (MsgMaxPages (default 0 max_pages))])
  else
    let '(result, ev) :=
      fetch_page page limit_per_page category product_name start_date end_date in
    match result with
    | VDict result =>
        let data_list := dict_get result "list" (VList []) in
        let total := reported_total result in
        if negb (truthy data_list) then (Leave (Ended StopEmpty all_data), ev)
        else
          match iterate data_list with
          | None => (Leave (Uncaught TypeError), ev)
          | Some items =>
              let all_data := all_data ++ items in
              let ev := ev ++ [EvPrint (MsgProgress page (length items)
                                          (length all_data) total)] in
              match len_ge (length all_data) total with
              | None => (Leave (Uncaught TypeError), ev)
              | Some true => (Leave (Ended StopTotal all_data), ev)
              | Some false => (Next all_data (page + 1), ev ++ [EvSleep delay])
              end
          end
    | _ => (Leave (Uncaught AttributeError), ev)
    end.

Fixpoint fetch_loop (fuel : nat) (all_data : list value) (page : Z)
    (log : list event) : option (ending * list event) :=
  match fuel with
  | O => None
  | S fuel =>
      match loop_body all_data page with
      | (Leave how, ev) => Some (how, log ++ ev)
      | (Next all_data page, ev) => fetch_loop fuel all_data page (log ++ ev)
      end
  end.

Definition prelude : list event :=
  [EvPrint MsgStart]
  ++ (if str_truthy start_date || str_truthy end_date
      then [EvPrint (MsgDateRange start_date end_date)] else [])
  ++ (match category with
      | Some c => if str_truthy category then [EvPrint (MsgCategory c)] else []
      | None => []
      end).

(** [fetch_all_data]: what the caller gets and the events performed, or
    [None] when [fuel] iterations were not enough for the loop to end. *)
Definition fetch_all_data (fuel : nat) : option (result * list event) :=
  match fetch_loop fuel [] 1 prelude with
  | Some (Ended _ all_data, log) =>
      Some (Returned all_data, log ++ [EvPrint (MsgDone (length all_data))])
  | Some (Uncaught e, log) => Some (Raised e, log)
  | None => None
  end.

(** *** The page sequence seen from outside the loop *)

Definition page_body (k : nat) : value :=
  fst (fetch_page (Z.of_nat k) limit_per_page
         category product_name start_date end_date).

(** [data_list] and [total] of page [k], when its answer is an object. *)
Definition page_list (k : nat) : option value :=
  match page_body k with
  | VDict result => Some (dict_get result "list" (VList []))
  | _ => None
  end.

Definition page_total (k : nat) : option value :=
  match page_body k with
  | VDict result => Some (reported_total result)
  | _ => None
  end.

(** The records page [k] adds. *)
Definition page_items (k : nat) : list value :=
  match page_list k with
  | Some data_list =>
      if truthy data_list then default [] (iterate data_list) else []
  | None => []
  end.

(** Records of pages [1..k], in order. *)
Fixpoint acc_upto (k : nat) : list value :=
  match k with
  | O => []
  | S k' => acc_upto k' ++ page_items k
  end.

(** The three stop conditions at page [k]. *)
Definition cond_max_pages (k : nat) : Prop :=
  ∃ m, max_pages = Some m ∧ m ≠ 0 ∧ m < Z.of_nat k.

Definition cond_empty (k : nat) : Prop :=
  ∃ data_list, page_list k = Some data_list ∧ truthy data_list = false.

Definition cond_total (k : nat) : Prop :=
  ∃ total, page_total k = Some total
           ∧ len_ge (length (acc_upto k)) total = Some true.

Definition stops_at (k : nat) : Prop :=
  cond_max_pages k ∨ cond_empty k ∨ cond_total k.

(** Page [n] is the first page at which a stop condition holds. *)
Definition first_stop (n : nat) : Prop :=
  (1 ≤ n)%nat ∧ stops_at n ∧ ∀ j, (1 ≤ j < n)%nat → ¬ stops_at j.

(** The answer for page [k] has the shape the loop expects: an object
    whose [list] is a list (or is missing) and whose total is a number. *)
Definition well_shaped (k : nat) : Prop :=
  ∃ result l,
    page_body k = VDict result
    ∧ dict_get result "list" (VList []) = VList l
    ∧ is_Some (len_ge 0 (reported_total result)).

(** How the pass for page [k] leaves the loop, following the order of the
    tests; [None] when it goes on to page [k + 1]. *)
Definition pass_ending (k : nat) : option ending :=
  if max_pages_exceeded (Z.of_nat k) then
    Some (Ended StopMaxPages (acc_upto (pred k)))
  else
    match page_body k with
    | VDict result =>
        let data_list := dict_get result "list" (VList []) in
        if negb (truthy data_list) then
          Some (Ended StopEmpty (acc_upto (pred k)))
        else
          match iterate data_list with
          | None => Some (Uncaught TypeError)
          | Some _ =>
              match len_ge (length (acc_upto k)) (reported_total result) with
              | None => Some (Uncaught TypeError)
              | Some true => Some (Ended StopTotal (acc_upto k))
              | Some false => None
              end
          end
    | _ => Some (Uncaught AttributeError)
    end.

(** Events of the pass for page [k]. *)
Definition pass_events (k : nat) : list event :=
  snd (loop_body (acc_upto (pred k)) (Z.of_nat k)).

(** Page numbers of the requests in a log, in order. *)
Definition requested_pages (log : list event) : list value :=
  omap (λ e, match e with EvGet params => params !! "current" | _ => None end) log.

End Fetch.

End CrawlerJson.

(** * xinfadi_crawler.py: file names and the save pipeline *)

Module CrawlerOutput.
Import XinfadiCrawler.

(** [s.endswith(suffix)]: [suffix] is one of the tails of [s]. *)
Fixpoint endswith (s suffix : string) : bool :=
  String.eqb s suffix
  || match s with
     | EmptyString => false
     | String _ s' => endswith s' suffix
     end.

(** [s.rsplit('.', 1)[0]]: what precedes the last dot, or [s] when it has
    none. *)
Fixpoint before_last_dot (s : string) : option string :=
  match s with
  | EmptyString => None
  | String c s' =>
      match before_last_dot s' with
      | Some head => Some (String c head)
      | None => if Ascii.eqb c "." then Some EmptyString else None
      end
  end.

Definition rsplit_dot_head (s : string) : string :=
  default s (before_last_dot s).

(** [_generate_filename]; [today] is
    [datetime.now().strftime("%Y-%m-%d")], read in the last branch. *)
Definition _generate_filename (today : string)
    (start_date end_date : option string) (ext : string) : string :=
  if str_truthy start_date && str_truthy end_date then
    "xinfadi_price_" +:+ default "" start_date +:+ "_to_"
    +:+ default "" end_date +:+ "." +:+ ext
  else if str_truthy start_date then
    "xinfadi_price_" +:+ default "" start_date +:+ "." +:+ ext
  else "xinfadi_price_" +:+ today +:+ "." +:+ ext.

(** The file name [save_to_excel] writes to. *)
Definition excel_filename (today : string) (filename : option string)
    (start_date end_date : option string) : string :=
  match filename with
  | None => _generate_filename today start_date end_date "xlsx"
  | Some filename =>
      if negb (endswith filename ".xlsx") then
        rsplit_dot_head filename +:+ ".xlsx"
      else filename
  end.

(** The file name [save_to_csv] writes to. *)
Definition csv_filename (today : string) (filename : option string)
    (start_date end_date : option string) : string :=
  match filename with
  | None => _generate_filename today start_date end_date "csv"
  | Some filename => filename
  end.

Inductive output_message :=
| MsgCsvSaved (filepath : string)
| MsgExcelSaved (filepath : string)
| MsgLocalFilter (original_count filtered_count : nat) (category : string).

Inductive output_event :=
| Fetch (e : event)
| ToCsv (filepath : string) (df : DataFrame)
| ToExcel (filepath : string) (df : DataFrame)
| SyncToFeishu (df : DataFrame) (start_date end_date : option string)
| Printed (m : output_message).

(** How [crawl_and_save] ends: it returns [filepath], an exception of a
    write propagates, or the fetch did not end within the fuel. *)
Inductive crawl_result :=
| Returned (filepath : option string)
| WriteRaised
| FetchOutOfFuel.

(** [cell == category] as pandas compares an object column with a
    string. *)
Definition cell_is (category : string) (c : option cell) : bool :=
  match c with
  | Some (Obj (VStr s)) => String.eqb s category
  | _ => false
  end.

(** [df[df["一级分类"] == category]] *)
Definition filter_category (category : string) (df : DataFrame) : DataFrame :=
  {| columns := columns df;
     rows := filter (λ row, cell_is category (row !! "一级分类") = true)
               (rows df) |}.

Definition df_empty (df : DataFrame) : bool :=
  match rows df with [] => true | _ :: _ => false end.

Section Output.

Variable server : gmap string value -> http_result.
Variable to_numeric : value -> option Q.

(** [os.path.join] and the directory of the crawler. *)
Variable path_join : string -> string -> string.
Variable output_dir : string.

(** Whether [to_csv] / [to_excel] can write the path. *)
Variable can_write : string -> bool.

Definition save_to_csv (today : string) (df : DataFrame)
    (filename : option string) (start_date end_date : option string)
    : option string * list output_event :=
  let filepath :=
    path_join output_dir (csv_filename today filename start_date end_date) in
  if can_write filepath then
    (Some filepath, [ToCsv filepath df; Printed (MsgCsvSaved filepath)])
  else (None, []).

Definition save_to_excel (today : string) (df : DataFrame)
    (filename : option string) (start_date end_date : option string)
    : option string * list output_event :=
  let filepath :=
    path_join output_dir (excel_filename today filename start_date end_date) in
  if can_write filepath then
    (Some filepath, [ToExcel filepath df; Printed (MsgExcelSaved filepath)])
  else (None, []).

(** The table [crawl_and_save] saves, from the raw records. *)
Definition local_filter (category : option string) (df : DataFrame)
    : DataFrame * list output_event :=
  if str_truthy category && negb (df_empty df) then
    let original_count := length (rows df) in
    let df := filter_category (default "" category) df in
    (df,
     if (length (rows df) <? original_count)%nat then
       [Printed (MsgLocalFilter original_count (length (rows df))
                   (default "" category))]
     else [])
  else (df, []).

(** [crawl_and_save]; [today_csv] and [today_xlsx] are the dates the two
    saves read when they name the file themselves. *)
Definition crawl_and_save (fuel : nat) (today_csv today_xlsx : string)
    (category start_date end_date filename : option string)
    (output_format : string) (sync_to_feishu : bool)
    : crawl_result * list output_event :=
  match fetch_all_data server category None start_date end_date
          100 None (1 # 2) fuel with
  | None => (FetchOutOfFuel, [])
  | Some (raw_data, log) =>
      let '(df, ev_filter) :=
        local_filter category (parse_data to_numeric raw_data) in
      let ev := (Fetch <$> log) ++ ev_filter in
      let csv :=
        if String.eqb output_format "csv" || String.eqb output_format "both"
        then Some (save_to_csv today_csv df filename start_date end_date)
        else None in
      match csv with
      | Some (None, _) => (WriteRaised, ev)
      | _ =>
          let filepath := csv ≫= fst in
          let ev := ev ++ from_option snd [] csv in
          let xlsx :=
            if String.eqb output_format "xlsx"
               || String.eqb output_format "both"
            then Some (save_to_excel today_xlsx df filename start_date end_date)
            else None in
          match xlsx with
          | Some (None, _) => (WriteRaised, ev)
          | _ =>
              let filepath :=
                match filepath with
                | None => xlsx ≫= fst
                | Some _ => filepath
                end in
              let ev := ev ++ from_option snd [] xlsx in
              (Returned filepath,
               ev ++ if sync_to_feishu
                     then [SyncToFeishu df start_date end_date] else [])
          end
      end
  end.

End Output.

End CrawlerOutput.

(** * feishu_sync.py *)

Module FeishuSync.

(** ** Exceptions, results and the world *)

Inductive exn :=
| ConnectionError
| AttributeError
| TypeError
| ZeroDivisionError
| OSError.

Inductive result (A : Type) :=
| Ok (a : A)
| Raise (e : exn)
| OutOfFuel.
Arguments Ok {A} a.
Arguments Raise {A} e.
Arguments OutOfFuel {A}.

Inductive method := GET | POST | PUT.

#[global] Instance method_eq_dec : EqDecision method.
Proof. solve_decision. Defined.

(** An HTTP request of the session: the bearer token of the
    [Authorization] header when headers are passed, and the JSON body or
    the query parameters. *)
Record request := {
  req_method : method;
  req_url : string;
  req_bearer : option value;
  req_payload : value
}.

(** A reading of [datetime.now()]. *)
Record instant := {
  timestamp : Q;
  isoformat : string
}.

(** The config file on disk: absent, not loadable as a JSON object, or a
    JSON object. *)
Inductive config_file :=
| NoFile
| Unreadable
| Config (cfg : gmap string value).

(** Attributes of the client object. *)
Record Client := {
  app_id : string;
  app_secret : string;
  folder_token : value;
  user_access_token : value;
  refresh_token : value;
  tenant_access_token : value;
  token_expires_at : Q;
  use_tenant_token : bool
}.

Record World := {
  self : Client;
  file : config_file;
  file_writable : bool;
  ticks : nat;
  sent : list request
}.

Definition set_self (f : Client -> Client) (w : World) : World :=
  {| self := f (self w); file := file w; file_writable := file_writable w;
     ticks := ticks w; sent := sent w |}.

Definition with_user_access_token (v : value) (c : Client) : Client :=
  {| app_id := app_id c; app_secret := app_secret c;
     folder_token := folder_token c; user_access_token := v;
     refresh_token := refresh_token c;
     tenant_access_token := tenant_access_token c;
     token_expires_at := token_expires_at c;
     use_tenant_token := use_tenant_token c |}.

Definition with_refresh_token (v : value) (c : Client) : Client :=
  {| app_id := app_id c; app_secret := app_secret c;
     folder_token := folder_token c; user_access_token := user_access_token c;
     refresh_token := v;
     tenant_access_token := tenant_access_token c;
     token_expires_at := token_expires_at c;
     use_tenant_token := use_tenant_token c |}.

Definition with_tenant_access_token (v : value) (c : Client) : Client :=
  {| app_id := app_id c; app_secret := app_secret c;
     folder_token := folder_token c; user_access_token := user_access_token c;
     refresh_token := refresh_token c;
     tenant_access_token := v;
     token_expires_at := token_expires_at c;
     use_tenant_token := use_tenant_token c |}.

Definition with_token_expires_at (q : Q) (c : Client) : Client :=
  {| app_id := app_id c; app_secret := app_secret c;
     folder_token := folder_token c; user_access_token := user_access_token c;
     refresh_token := refresh_token c;
     tenant_access_token := tenant_access_token c;
     token_expires_at := q;
     use_tenant_token := use_tenant_token c |}.

Definition with_file (f : config_file) (w : World) : World :=
  {| self := self w; file := f; file_writable := file_writable w;
     ticks := ticks w; sent := sent w |}.

Definition tick (w : World) : World :=
  {| self := self w; file := file w; file_writable := file_writable w;
     ticks := S (ticks w); sent := sent w |}.

Definition with_sent (r : request) (w : World) : World :=
  {| self := self w; file := file w; file_writable := file_writable w;
     ticks := ticks w; sent := sent w ++ [r] |}.

(** ** The monad: state, exceptions, and running out of fuel *)

Definition M (A : Type) : Type := World -> result A * World.

Definition ret {A} (a : A) : M A := λ w, (Ok a, w).

Definition raise {A} (e : exn) : M A := λ w, (Raise e, w).

Definition bind {A B} (m : M A) (k : A -> M B) : M B :=
  λ w, match m w with
       | (Ok a, w') => k a w'
       | (Raise e, w') => (Raise e, w')
       | (OutOfFuel, w') => (OutOfFuel, w')
       end.

(** [try: m except Exception: h] *)
Definition try_except {A} (m : M A) (h : M A) : M A :=
  λ w, match m w with
       | (Raise _, w') => h w'
       | r => r
       end.

Definition gets {A} (f : Client -> A) : M A := λ w, (Ok (f (self w)), w).

Definition modify (f : Client -> Client) : M unit := λ w, (Ok tt, set_self f w).

Notation "x <- m ;; k" := (bind m (λ x, k))
  (at level 100, m at next level, right associativity, only parsing).
Notation "m ;;; k" := (bind m (λ _, k))
  (at level 100, right associativity, only parsing).

(** [result.get(...)] on whatever [response.json()] returned. *)
Definition as_dict (v : value) : M (gmap string value) :=
  match v with
  | VDict d => ret d
  | _ => raise AttributeError
  end.

(** [v == 0] *)
Definition eq_zero (v : value) : bool :=
  match v with
  | VInt z => z =? 0
  | VFloat q => Qeq_bool q 0
  | VBool b => negb b
  | _ => false
  end.

(** [t + v] for a float [t] *)
Definition add_number (t : Q) (v : value) : M Q :=
  match v with
  | VInt z => ret (t + inject_Z z)%Q
  | VFloat q => ret (t + q)%Q
  | VBool b => ret (t + (if b then 1 else 0))%Q
  | _ => raise TypeError
  end.

Definition BASE_URL : string := "https://open.feishu.cn/open-apis".

(** ** Pure helpers of [write_data] *)

Definition chr (n : Z) : ascii := ascii_of_N (Z.to_N n).

Definition ord (c : ascii) : Z := Z.of_N (N_of_ascii c).

(** The [while col > 0] loop of [col_to_letter]. *)
Equations? col_to_letter_loop (col : Z) (result : string) : string
  by wf (Z.to_nat col) lt :=
col_to_letter_loop col result with decide (0 < col) := {
  | left _ =>
      col_to_letter_loop ((col - 1) `div` 26)
        (String (chr ((col - 1) `mod` 26 + ord "A")) result)
  | right _ => result }.
Proof.
  assert ((col - 1) `div` 26 < col); [|lia].
  apply Z.div_lt_upper_bound; lia.
Qed.

Definition col_to_letter (col : Z) : string := col_to_letter_loop col "".

(** [re.match(r'^([A-Z]+)(\d+)$', start_cell.upper())] on ASCII text:
    the row digits when the cell reference matches. *)
Definition upper_char (c : ascii) : ascii :=
  let n := ord c in
  if (97 <=? n) && (n <=? 122) then chr (n - 32) else c.

Fixpoint upper (s : string) : string :=
  match s with
  | EmptyString => EmptyString
  | String c s => String (upper_char c) (upper s)
  end.

Definition is_letter (c : ascii) : bool := (65 <=? ord c) && (ord c <=? 90).

Definition is_digit (c : ascii) : bool := (48 <=? ord c) && (ord c <=? 57).

Fixpoint span (p : ascii -> bool) (s : string) : string * string :=
  match s with
  | String c s' =>
      if p c then let '(a, b) := span p s' in (String c a, b)
      else (EmptyString, s)
  | EmptyString => (EmptyString, EmptyString)
  end.

Definition match_cell (s : string) : option string :=
  let '(letters, rest) := span is_letter s in
  let '(digits, tail) := span is_digit rest in
  if String.eqb letters "" || String.eqb digits "" then None
  else if String.eqb tail "" || String.eqb tail (String (chr 10) "") then
    Some digits
  else None.

(** [int(...)] on a string of ASCII digits. *)
Definition int_of_digits (s : string) : Z :=
  fold_left (λ acc c, 10 * acc + (ord c - 48)) (list_ascii_of_string s) 0.

Definition start_row_of (start_cell : string) : Z :=
  match match_cell (upper start_cell) with
  | Some digits => int_of_digits digits
  | None => 1
  end.

(** [range(n)] *)
Definition range (n : Z) : list Z := Z.of_nat <$> seq 0 (Z.to_nat n).

(** [l[a:b]] *)
Definition slice_index (len i : Z) : Z :=
  if i <? 0 then Z.max 0 (len + i) else Z.min i len.

Definition py_slice {A} (l : list A) (a b : Z) : list A :=
  let len := Z.of_nat (length l) in
  let a := slice_index len a in
  let b := slice_index len b in
  take (Z.to_nat (b - a)) (drop (Z.to_nat a) l).

Section Client.

(** The remote service: the answer to the [n]-th request of the session,
    already parsed by [response.json()], or [None] when the request or the
    parsing raises. *)
Variable remote : nat -> request -> option value.

(** Successive readings of the wall clock. *)
Variable clock : nat -> instant.

Definition now : M instant := λ w, (Ok (clock (ticks w)), tick w).

Definition http (r : request) : M value :=
  λ w, match remote (length (sent w)) r with
       | Some v => (Ok v, with_sent r w)
       | None => (Raise ConnectionError, with_sent r w)
       end.

(** ** Config persistence *)

Definition _save_config : M unit :=
  try_except
    (λ w,
       match file w with
       | Unreadable => (Raise OSError, w)
       | f =>
           let config := match f with Config cfg => cfg | _ => ∅ end in
           let c := self w in
           let config := <["user_access_token" := user_access_token c]> config in
           let config := <["refresh_token" := refresh_token c]> config in
           let config := <["token_expires_at" := VFloat (token_expires_at c)]> config in
           let config :=
             <["updated_at" := VStr (isoformat (clock (ticks w)))]> config in
           let w := tick w in
           if file_writable w then (Ok tt, with_file (Config config) w)
           else (Raise OSError, w)
       end)
    (ret tt).

(** ** Token renewal *)

Definition app_token_request (c : Client) : request :=
  {| req_method := POST;
     req_url := BASE_URL +:+ "/auth/v3/app_access_token/internal";
     req_bearer := None;
     req_payload := VDict (<["app_id" := VStr (app_id c)]>
                             (<["app_secret" := VStr (app_secret c)]> ∅)) |}.

Definition tenant_token_request (c : Client) : request :=
  {| req_method := POST;
     req_url := BASE_URL +:+ "/auth/v3/tenant_access_token/internal";
     req_bearer := None;
     req_payload := VDict (<["app_id" := VStr (app_id c)]>
                             (<["app_secret" := VStr (app_secret c)]> ∅)) |}.

(** The assignments made from the [data] object of a successful answer. *)
Definition store_user_token (data : gmap string value) : M unit :=
  modify (with_user_access_token (dict_get_none data "access_token")) ;;;
  modify (with_refresh_token (dict_get_none data "refresh_token")) ;;;
  t <- now ;;
  expires <- add_number (timestamp t) (dict_get data "expires_in" (VInt 7200)) ;;
  modify (with_token_expires_at expires) ;;;
  _save_config.

Definition exchange_code_for_token (code : string) : M bool :=
  try_except
    (c <- gets id ;;
     result <- http (app_token_request c) ;;
     result <- as_dict result ;;
     if negb (eq_zero (dict_get_none result "code")) then ret false
     else
       let app_access_token := dict_get_none result "app_access_token" in
       result <- http {| req_method := POST;
                        req_url := BASE_URL +:+ "/authen/v1/oidc/access_token";
                        req_bearer := Some app_access_token;
                        req_payload :=
                          VDict (<["grant_type" := VStr "authorization_code"]>
                                   (<["code" := VStr code]> ∅)) |} ;;
       result <- as_dict result ;;
       if eq_zero (dict_get_none result "code") then
         data <- as_dict (dict_get result "data" (VDict ∅)) ;;
         store_user_token data ;;;
         ret true
       else ret false)
    (ret false).

Definition refresh_user_token : M bool :=
  rt <- gets refresh_token ;;
  if negb (truthy rt) then ret false
  else
    try_except
      (c <- gets id ;;
       result <- http (app_token_request c) ;;
       result <- as_dict result ;;
       if negb (eq_zero (dict_get_none result "code")) then ret false
       else
         let app_access_token := dict_get_none result "app_access_token" in
         rt <- gets refresh_token ;;
         result <- http {| req_method := POST;
                          req_url :=
                            BASE_URL +:+ "/authen/v1/oidc/refresh_access_token";
                          req_bearer := Some app_access_token;
                          req_payload :=
                            VDict (<["grant_type" := VStr "refresh_token"]>
                                     (<["refresh_token" := rt]> ∅)) |} ;;
         result <- as_dict result ;;
         if eq_zero (dict_get_none result "code") then
           data <- as_dict (dict_get result "data" (VDict ∅)) ;;
           store_user_token data ;;;
           ret true
         else ret false)
      (ret false).

(** ** Token accessors *)

Definition get_user_access_token : M value :=
  tok <- gets user_access_token ;;
  if negb (truthy tok) then ret VNone
  else
    current_time <- now ;;
    expires <- gets token_expires_at ;;
    if Qle_bool (expires - 300) (timestamp current_time) then
      ok <- refresh_user_token ;;
      if negb ok then ret VNone else gets user_access_token
    else gets user_access_token.

Definition get_tenant_access_token : M value :=
  current_time <- now ;;
  tok <- gets tenant_access_token ;;
  expires <- gets token_expires_at ;;
  if truthy tok && negb (Qle_bool (expires - 300) (timestamp current_time))
  then ret tok
  else
    try_except
      (c <- gets id ;;
       result <- http (tenant_token_request c) ;;
       result <- as_dict result ;;
       if eq_zero (dict_get_none result "code") then
         modify (with_tenant_access_token
                   (dict_get_none result "tenant_access_token")) ;;;
         expires <- add_number (timestamp current_time)
                     (dict_get result "expire" (VInt 7200)) ;;
         modify (with_token_expires_at expires) ;;;
         gets tenant_access_token
       else ret VNone)
      (ret VNone).

(** [_get_headers]: the token placed after [Bearer] in the headers. *)
Definition _get_headers : M value :=
  tenant <- gets use_tenant_token ;;
  if tenant then get_tenant_access_token else get_user_access_token.

(** ** Listing a folder and resolving name collisions *)

Definition list_folder_files (folder_token : value) : M value :=
  let params := <["page_size" := VInt 100]> (∅ : gmap string value) in
  let params :=
    if truthy folder_token then <["folder_token" := folder_token]> params
    else params in
  try_except
    (headers <- _get_headers ;;
     result <- http {| req_method := GET;
                       req_url := BASE_URL +:+ "/drive/v1/files";
                       req_bearer := Some headers;
                       req_payload := VDict params |} ;;
     result <- as_dict result ;;
     if eq_zero (dict_get_none result "code") then
       data <- as_dict (dict_get result "data" (VDict ∅)) ;;
       ret (dict_get data "files" (VList []))
     else ret (VList []))
    (ret (VList [])).

(** [{f.get('name', '') for f in files}], restricted to its string
    members: the set is only ever asked whether it holds a string, and no
    other hashable object compares equal to one. *)
Fixpoint names_of (files : list value) : M (gset string) :=
  match files with
  | [] => ret ∅
  | f :: files =>
      f <- as_dict f ;;
      match dict_get f "name" (VStr "") with
      | VStr s => names <- names_of files ;; ret ({[ s ]} ∪ names)
      | VList _ | VDict _ => raise TypeError
      | _ => names_of files
      end
  end.

(** Iteration over whatever [list_folder_files] returned. *)
Definition existing_names (files : value) : M (gset string) :=
  match files with
  | VList l => names_of l
  | VStr s => if String.eqb s "" then ret ∅ else raise AttributeError
  | VDict d => if bool_decide (d = ∅) then ret ∅ else raise AttributeError
  | _ => raise TypeError
  end.

(** [f"{base_name}_({counter})"] *)
Definition candidate (base_name : string) (counter : Z) : string :=
  base_name +:+ "_(" +:+ pretty counter +:+ ")".

(** The [while True] probe, from [counter] on. *)
Fixpoint probe (fuel : nat) (base_name : string) (existing : gset string)
    (counter : Z) : option string :=
  match fuel with
  | O => None
  | S fuel =>
      let new_name := candidate base_name counter in
      if decide (new_name ∈ existing) then
        probe fuel base_name existing (counter + 1)
      else Some new_name
  end.

Definition get_unique_filename (fuel : nat) (base_name : string)
    (folder_token' : value) : M string :=
  own <- gets folder_token ;;
  files <- list_folder_files (py_or folder_token' own) ;;
  existing <- existing_names files ;;
  if decide (base_name ∈ existing) then
    match probe fuel base_name existing 1 with
    | Some new_name => ret new_name
    | None => λ w, (OutOfFuel, w)
    end
  else ret base_name.

(** ** Chunked writes *)

(** The [request_data] dict of one chunk. *)
Definition request_data (range_str : string) (batch_data : list (list value))
    : value :=
  VDict {[ "valueRange" :=
             VDict (<["range" := VStr range_str]>
                      (<["values" := VList (VList <$> batch_data)]> ∅)) ]}.

Definition write_request (url : string) (headers : value) (range_str : string)
    (batch_data : list (list value)) : request :=
  {| req_method := PUT;
     req_url := url;
     req_bearer := Some headers;
     req_payload := request_data range_str batch_data |}.

(** The body of [for batch_idx in range(batches)], over the remaining
    indices; [false] is the early [return False]. *)
Fixpoint write_batches (idxs : list Z) (data : list (list value))
    (sheet_id end_col url : string) (start_row batch_size : Z) : M bool :=
  match idxs with
  | [] => ret true
  | batch_idx :: idxs =>
      let total_rows := Z.of_nat (length data) in
      let batch_start := batch_idx * batch_size in
      let batch_end := Z.min ((batch_idx + 1) * batch_size) total_rows in
      let batch_data := py_slice data batch_start batch_end in
      let current_start_row := start_row + batch_start in
      let current_end_row := start_row + batch_end - 1 in
      let range_str :=
        sheet_id +:+ "!A" +:+ pretty current_start_row +:+ ":"
        +:+ end_col +:+ pretty current_end_row in
      ok <- try_except
              (headers <- _get_headers ;;
               result <- http (write_request url headers range_str batch_data) ;;
               result <- as_dict result ;;
               ret (eq_zero (dict_get_none result "code")))
              (ret false) ;;
      if ok then
        write_batches idxs data sheet_id end_col url start_row batch_size
      else ret false
  end.

Definition write_data (data : list (list value)) (sheet_id start_cell : string)
    (spreadsheet_token : option string) (batch_size : Z) : M bool :=
  match spreadsheet_token with
  | Some token =>
      if str_truthy spreadsheet_token then
        match data with
        | [] => ret true
        | _ :: _ =>
            let cols := Z.of_nat (max_list (length <$> data)) in
            let end_col := col_to_letter cols in
            let start_row := start_row_of start_cell in
            let url := BASE_URL +:+ "/sheets/v2/spreadsheets/" +:+ token
                       +:+ "/values" in
            let total_rows := Z.of_nat (length data) in
            if batch_size =? 0 then raise ZeroDivisionError
            else
              let batches := (total_rows + batch_size - 1) `div` batch_size in
              write_batches (range batches) data sheet_id end_col url
                start_row batch_size
        end
      else raise AttributeError
  | None => raise AttributeError
  end.

End Client.

End FeishuSync.

(** * feishu_sync.py: configuration and modes *)

Module FeishuSetup.
Import FeishuSync.

Definition with_use_tenant_token (b : bool) (c : Client) : Client :=
  {| app_id := app_id c; app_secret := app_secret c;
     folder_token := folder_token c; user_access_token := user_access_token c;
     refresh_token := refresh_token c;
     tenant_access_token := tenant_access_token c;
     token_expires_at := token_expires_at c;
     use_tenant_token := b |}.

(** The dict [create_config_template] dumps. *)
Definition template : gmap string value :=
  list_to_map
    [("app_id", VStr "YOUR_APP_ID");
     ("app_secret", VStr "YOUR_APP_SECRET");
     ("folder_token", VStr "");
     ("user_access_token", VStr "");
     ("refresh_token", VStr "");
     ("token_expires_at", VInt 0);
     ("instructions",
      VDict (list_to_map
        [("step1", VStr "访问 https://open.feishu.cn/ 创建应用");
         ("step2",
          VStr "在【安全设置】中添加重定向URL: http://localhost:9000/callback");
         ("step3", VStr "在【权限管理】中添加以下权限:");
         ("permissions",
          VList [VStr "sheets:spreadsheet - 创建和编辑电子表格";
                 VStr "drive:drive - 访问云空间"]);
         ("step4", VStr "发布应用版本（创建版本并发布）");
         ("step5", VStr "将 app_id、app_secret 填入此文件");
         ("step6", VStr "运行 python feishu_sync.py --auth 进行用户授权");
         ("note_folder",
          VStr "folder_token 可选，如果要保存到特定文件夹，从文件夹URL获取");
         ("note_folder_url",
          VStr "格式如: https://xxx.feishu.cn/drive/folder/TOKEN")]))].

(** [create_config_template]: the file is written only when there is
    none; the [open] is not guarded. *)
Definition create_config_template : M string :=
  λ w, match file w with
       | NoFile =>
           if file_writable w then
             (Ok "./feishu_config.json", with_file (Config template) w)
           else (Raise OSError, w)
       | _ => (Ok "./feishu_config.json", w)
       end.

(** What a constructor call makes of a config file: a client, no client,
    or a client that [Client] cannot hold (a credential that is not a
    string, an expiry that is not a number).  The code does return a
    client in the last case; the comparison of its expiry with the clock
    in the token accessors then raises TypeError, so nothing proved about
    a [Client] speaks of it. *)
Inductive loaded :=
| Loaded (c : Client)
| NotLoaded
| OutsideModel.

(** [_load_config] of a client under construction. *)
Definition _load_config (f : config_file) (c : Client) : loaded :=
  match f with
  | Config config =>
      let c :=
        if negb (truthy (folder_token c)) then
          {| app_id := app_id c; app_secret := app_secret c;
             folder_token := dict_get config "folder_token" (VStr "");
             user_access_token := user_access_token c;
             refresh_token := refresh_token c;
             tenant_access_token := tenant_access_token c;
             token_expires_at := token_expires_at c;
             use_tenant_token := use_tenant_token c |}
        else c in
      let c := with_user_access_token (dict_get_none config "user_access_token") c in
      let c := with_refresh_token (dict_get_none config "refresh_token") c in
      (* the mode flag is kept as its truth value, all the client tests *)
      let c :=
        with_use_tenant_token
          (truthy (dict_get config "use_tenant_token" (VBool false))) c in
      match dict_get config "token_expires_at" (VInt 0) with
      | VInt z => Loaded (with_token_expires_at (inject_Z z) c)
      | VFloat q => Loaded (with_token_expires_at q c)
      | _ => OutsideModel
      end
  | _ => Loaded c
  end.

(** [FeishuSync.__init__] *)
Definition __init__ (f : config_file) (app_id app_secret : string)
    (folder_token : value) : loaded :=
  _load_config f
    {| FeishuSync.app_id := app_id; FeishuSync.app_secret := app_secret;
       FeishuSync.folder_token := folder_token;
       user_access_token := VNone; refresh_token := VNone;
       tenant_access_token := VNone; token_expires_at := 0;
       use_tenant_token := false |}.

(** A credential read from the config: usable, refused, or not a
    string. *)
Definition credential (placeholder : string) (v : value) : option (option string) :=
  match v with
  | VStr s =>
      if String.eqb s "" || String.eqb s placeholder then Some None
      else Some (Some s)
  | _ => if truthy v then None else Some None
  end.

(** [load_sync_client] *)
Definition load_sync_client (f : config_file) : loaded :=
  match f with
  | Config config =>
      match credential "YOUR_APP_ID" (dict_get config "app_id" (VStr "")) with
      | Some None => NotLoaded
      | None =>
          (* the secret is still checked before the constructor runs *)
          match credential "YOUR_APP_SECRET"
                  (dict_get config "app_secret" (VStr "")) with
          | Some None => NotLoaded
          | _ => OutsideModel
          end
      | Some (Some app_id) =>
          match credential "YOUR_APP_SECRET"
                  (dict_get config "app_secret" (VStr "")) with
          | Some None => NotLoaded
          | None => OutsideModel
          | Some (Some app_secret) =>
              __init__ f app_id app_secret
                (dict_get config "folder_token" (VStr ""))
          end
      end
  | _ => NotLoaded
  end.

Section Setup.

Variable remote : nat -> request -> option value.
Variable clock : nat -> instant.

Definition enable_simple_mode : M bool :=
  modify (with_use_tenant_token true) ;;;
  token <- get_tenant_access_token remote clock ;;
  if truthy token then
    try_except
      (λ w,
         match file w with
         | Unreadable => (Raise OSError, w)
         | f =>
             let config := match f with Config cfg => cfg | _ => ∅ end in
             let config := <["use_tenant_token" := VBool true]> config in
             let config :=
               <["updated_at" := VStr (isoformat (clock (ticks w)))]> config in
             let w := tick w in
             if file_writable w then (Ok true, with_file (Config config) w)
             else (Raise OSError, w)
         end)
      (ret false)
  else ret false.

End Setup.

End FeishuSetup.

(** * Sample inputs *)

Module Samples.
Import XinfadiCrawler FeishuSync.

Definition record (name : string) : gmap string value :=
  {[ "prodName" := VStr name ]}.

Definition current_page (params : gmap string value) : Z :=
  match params !! "current" with
  | Some (VInt p) => p
  | _ => 0
  end.

(** Three records over two pages with the total reported as 10; the third
    request fails in transit. *)
Definition flaky_server (params : gmap string value) : http_result :=
  match current_page params with
  | 1 => Json {| pr_list := Some [record "a"; record "b"];
                 pr_count := Some 10; pr_total := None |}
  | 2 => Json {| pr_list := Some [record "c"];
                 pr_count := Some 10; pr_total := None |}
  | _ => RequestException
  end.

(** The same pages, the third one empty and still reporting 10. *)
Definition short_server (params : gmap string value) : http_result :=
  match current_page params with
  | 1 => Json {| pr_list := Some [record "a"; record "b"];
                 pr_count := Some 10; pr_total := None |}
  | 2 => Json {| pr_list := Some [record "c"];
                 pr_count := Some 10; pr_total := None |}
  | _ => Json {| pr_list := Some []; pr_count := Some 10; pr_total := None |}
  end.

(** The record of the end-to-end scenario. *)
Definition cabbage : gmap string value :=
  list_to_map
    [("prodCat", VStr "蔬菜"); ("prodName", VStr "白菜");
     ("lowPrice", VStr "1.2"); ("avgPrice", VStr "bad");
     ("highPrice", VStr "2.0")].

Definition noon : instant :=
  {| timestamp := 1000; isoformat := "2024-01-01T12:00:00" |}.

Definition client : Client :=
  {| app_id := "cli_app"; app_secret := "secret";
     folder_token := VStr "fld";
     user_access_token := VStr "u-0";
     refresh_token := VStr "r-0";
     tenant_access_token := VStr "t-0";
     token_expires_at := 2000;
     use_tenant_token := true |}.

Definition world : World :=
  {| self := client; file := NoFile; file_writable := true;
     ticks := 0; sent := [] |}.

(** A client that has never held a service token, with an empty config. *)
Definition fresh_world : World :=
  {| self := with_tenant_access_token VNone client;
     file := Config ∅; file_writable := true; ticks := 0; sent := [] |}.

Definition ok_answer (fields : list (string * value)) : option value :=
  Some (VDict (<["code" := VInt 0]> (list_to_map fields))).

(** A service that grants every token request and accepts every write. *)
Definition granting (n : nat) (r : request) : option value :=
  match req_method r with
  | PUT => ok_answer []
  | GET =>
      ok_answer
        [("data",
          VDict {[ "files" :=
                     VList [VDict {[ "name" := VStr "X" ]};
                            VDict {[ "name" := VStr "X_(1)" ]}] ]})]
  | POST =>
      ok_answer
        [("app_access_token", VStr "a-1");
         ("tenant_access_token", VStr "t-1");
         ("expire", VInt 7200);
         ("data",
          VDict (list_to_map
                   [("access_token", VStr "u-1");
                    ("refresh_token", VStr "r-1");
                    ("expires_in", VInt 7200)]))]
  end.

(** A grid of 10,000 rows of ten cells. *)
Definition grid : list (list value) :=
  replicate (Z.to_nat 10000) (replicate 10 (VInt 1)).

End Samples.

(** * More sample inputs *)

Module MoreSamples.
Import XinfadiCrawler FeishuSync.

(** A service that reports no total at all. *)
Definition untotalled_server (params : gmap string value) : http_result :=
  Json {| pr_list := Some [Samples.record "a"; Samples.record "b"];
          pr_count := None; pr_total := None |}.

Definition apple : gmap string value :=
  list_to_map
    [("prodCat", VStr "水果"); ("prodName", VStr "苹果");
     ("lowPrice", VStr "3.5"); ("avgPrice", VStr "4.0");
     ("highPrice", VStr "4.5")].

(** One page holding a vegetable and a fruit. *)
Definition market_server (params : gmap string value) : http_result :=
  Json {| pr_list := Some [Samples.cabbage; apple];
          pr_count := Some 2; pr_total := None |}.

Definition join (dir name : string) : string := dir +:+ "/" +:+ name.

(** Three rows of one cell each. *)
Definition small_grid : list (list value) :=
  [[VInt 1]; [VInt 2]; [VInt 3]].

(** The chunk a write carries starts with the cell 2. *)
Definition carries_two (r : request) : bool :=
  match req_payload r with
  | VDict d =>
      match d !! "valueRange" with
      | Some (VDict value_range) =>
          match value_range !! "values" with
          | Some (VList (VList (VInt 2 :: _) :: _)) => true
          | _ => false
          end
      | _ => false
      end
  | _ => false
  end.

(** A service that refuses the write of the row holding 2. *)
Definition refusing_two (n : nat) (r : request) : option value :=
  match req_method r with
  | PUT =>
      if carries_two r then Some (VDict {[ "code" := VInt 1254005 ]})
      else Samples.ok_answer []
  | _ => Samples.granting n r
  end.

(** The answers of a code exchange whose [expires_in] is a string. *)
Definition app_answer : gmap string value :=
  <["code" := VInt 0]> {[ "app_access_token" := VStr "a-1" ]}.

Definition late_data : gmap string value :=
  list_to_map
    [("access_token", VStr "u-9"); ("refresh_token", VStr "r-9");
     ("expires_in", VStr "7200")].

Definition late_answer : gmap string value :=
  <["code" := VInt 0]> {[ "data" := VDict late_data ]}.

Definition late (n : nat) (r : request) : option value :=
  match n with
  | O => Some (VDict app_answer)
  | _ => Some (VDict late_answer)
  end.

(** The answer [Samples.granting] gives to every POST. *)
Definition granted : gmap string value :=
  <["code" := VInt 0]>
    (list_to_map
       [("app_access_token", VStr "a-1");
        ("tenant_access_token", VStr "t-1");
        ("expire", VInt 7200);
        ("data",
         VDict (list_to_map
                  [("access_token", VStr "u-1");
                   ("refresh_token", VStr "r-1");
                   ("expires_in", VInt 7200)]))]).

(** A config file with credentials, and a client working on it. *)
Definition credentials : gmap string value :=
  list_to_map
    [("app_id", VStr "cli_app"); ("app_secret", VStr "secret");
     ("folder_token", VStr "fld"); ("use_tenant_token", VBool true)].

Definition configured_world : World :=
  {| self := Samples.client; file := Config credentials;
     file_writable := true; ticks := 0; sent := [] |}.

(** A service that answers nothing: every request fails in transit. *)
Definition silent (n : nat) (r : request) : option value := None.

End MoreSamples.

(** * Sample services with untyped answers *)

Module JsonSamples.
Import CrawlerJson.

Definition answer (fields : list (string * value)) : http_result :=
  Parsed (VDict (list_to_map fields)).

Definition records (names : list string) : value :=
  VList ((λ name, VDict (Samples.record name)) <$> names).

(** Three records over two pages, the total reported as 3. *)
Definition book_server (params : gmap string value) : http_result :=
  match Samples.current_page params with
  | 1 => answer [("list", records ["a"; "b"]); ("count", VInt 3)]
  | _ => answer [("list", records ["c"]); ("count", VInt 3)]
  end.

(** A body that is a JSON array. *)
Definition array_server (params : gmap string value) : http_result :=
  Parsed (VList []).

(** One record, the count reported as the string "10". *)
Definition string_count_server (params : gmap string value) : http_result :=
  answer [("list", records ["a"]); ("count", VStr "10")].

(** No object with keys is iterated in the samples. *)
Definition no_keys (d : gmap string value) : list string := [].

End JsonSamples.

(** * Properties of the paginated fetch *)

Module CrawlerProofs.
Import XinfadiCrawler.

Section FetchProperties.

Variable server : gmap string value -> http_result.
Variables (category product_name start_date end_date : option string).
Variable limit_per_page : Z.
Variable max_pages : option Z.
Variable delay : Q.

Local Abbreviation loop_body :=
  (loop_body server category product_name start_date end_date
     limit_per_page max_pages delay).
Local Abbreviation fetch_loop :=
  (fetch_loop server category product_name start_date end_date
     limit_per_page max_pages delay).
Local Abbreviation fetch_all_data :=
  (fetch_all_data server category product_name start_date end_date
     limit_per_page max_pages delay).
Local Abbreviation prelude := (prelude category start_date end_date).
Local Abbreviation page_result :=
  (page_result server category product_name start_date end_date limit_per_page).
Local Abbreviation page_list :=
  (page_list server category product_name start_date end_date limit_per_page).
Local Abbreviation acc_upto :=
  (acc_upto server category product_name start_date end_date limit_per_page).
Local Abbreviation stop_reason :=
  (stop_reason server category product_name start_date end_date
     limit_per_page max_pages).
Local Abbreviation collected :=
  (collected server category product_name start_date end_date
     limit_per_page max_pages).
Local Abbreviation pass_events :=
  (pass_events server category product_name start_date end_date
     limit_per_page max_pages delay).
Local Abbreviation stops_at :=
  (stops_at server category product_name start_date end_date
     limit_per_page max_pages).
Local Abbreviation first_stop :=
  (first_stop server category product_name start_date end_date
     limit_per_page max_pages).
Local Abbreviation cond_empty :=
  (cond_empty server category product_name start_date end_date limit_per_page).
Local Abbreviation cond_total :=
  (cond_total server category product_name start_date end_date limit_per_page).
Local Abbreviation cond_max_pages := (cond_max_pages max_pages).
Local Abbreviation max_pages_exceeded := (max_pages_exceeded max_pages).

Lemma max_pages_exceeded_iff (k : nat) :
  max_pages_exceeded (Z.of_nat k) = true ↔ cond_max_pages k.
Proof.
  unfold XinfadiCrawler.max_pages_exceeded, XinfadiCrawler.cond_max_pages.
  destruct max_pages as [m|]; split.
  - intros [H1 H2]%andb_true_iff. exists m.
    apply negb_true_iff, Z.eqb_neq in H1. apply Z.ltb_lt in H2. done.
  - intros (m' & [= <-] & H1 & H2). apply andb_true_iff. split.
    + by apply negb_true_iff, Z.eqb_neq.
    + by apply Z.ltb_lt.
  - done.
  - by intros (m' & [=] & _).
Qed.

(** The decision procedure agrees with the three conditions. *)
Lemma stop_reason_None (k : nat) : stop_reason k = None ↔ ¬ stops_at k.
Proof.
  unfold XinfadiCrawler.stop_reason, XinfadiCrawler.stops_at.
  rewrite <- max_pages_exceeded_iff.
  unfold XinfadiCrawler.cond_empty, XinfadiCrawler.cond_total.
  destruct (max_pages_exceeded (Z.of_nat k)); [naive_solver|].
  destruct (page_list k) eqn:Hl; [naive_solver|].
  destruct (Z.leb_spec (reported_total (page_result k))
              (Z.of_nat (length (acc_upto k)))); split; try done.
  - naive_solver.
  - intros _ [?|[?|?]]; [done|done|lia].
Qed.

Lemma stop_reason_Some (k : nat) (why : stop) :
  stop_reason k = Some why →
  match why with
  | StopMaxPages => cond_max_pages k
  | StopEmpty => cond_empty k
  | StopTotal => cond_total k
  end.
Proof.
  unfold XinfadiCrawler.stop_reason.
  destruct (max_pages_exceeded (Z.of_nat k)) eqn:Hc.
  - intros [= <-]. by apply max_pages_exceeded_iff.
  - destruct (page_list k) eqn:Hl.
    + by intros [= <-].
    + destruct (Z.leb_spec (reported_total (page_result k))
                  (Z.of_nat (length (acc_upto k)))); [|done].
      by intros [= <-].
Qed.

(** One pass of the loop, started in the state the loop has on entering
    page [S k]. *)
Lemma loop_body_at (k : nat) :
  loop_body (acc_upto k) (Z.of_nat (S k)) =
    (match stop_reason (S k) with
     | Some why => Break why (collected (S k))
     | None => Next (acc_upto (S k)) (Z.of_nat (S (S k)))
     end, pass_events (S k)).
Proof.
  unfold XinfadiCrawler.pass_events. simpl pred.
  rewrite (surjective_pairing (loop_body _ _)) at 1. f_equal.
  unfold XinfadiCrawler.loop_body, XinfadiCrawler.stop_reason,
    XinfadiCrawler.collected.
  destruct (max_pages_exceeded (Z.of_nat (S k))); [done|].
  unfold XinfadiCrawler.page_list, XinfadiCrawler.page_result.
  cbn [XinfadiCrawler.acc_upto].
  unfold XinfadiCrawler.page_list, XinfadiCrawler.page_result.
  destruct (fetch_page server _ _ _ _ _ _) as [result ev]. cbn [fst].
  destruct (default [] (pr_list result)) as [|r l] eqn:Hl.
  - cbn. by rewrite app_nil_r.
  - cbn [snd fst].
    destruct (reported_total result <=? _); [done|].
    cbn. do 2 f_equal. lia.
Qed.

Lemma fetch_loop_to_stop (d : nat) :
  ∀ (k fuel : nat) (log : list event) (why : stop),
    (∀ j, (k < j ≤ k + d)%nat → stop_reason j = None) →
    stop_reason (S (k + d)) = Some why →
    (d < fuel)%nat →
    fetch_loop fuel (acc_upto k) (Z.of_nat (S k)) log =
      Some (why, collected (S (k + d)),
            log ++ concat (pass_events <$> seq (S k) (S d))).
Proof.
  induction d as [|d IH]; intros k fuel log why Hnone Hstop Hfuel;
    (destruct fuel as [|fuel]; [lia|]); cbn [XinfadiCrawler.fetch_loop];
    rewrite loop_body_at.
  - rewrite Nat.add_0_r in Hstop |- *. rewrite Hstop. cbn. by rewrite app_nil_r.
  - rewrite (Hnone (S k)) by lia.
    rewrite (IH (S k) fuel _ why).
    + replace (S (S k + d)) with (S (k + S d)) by lia.
      rewrite <- app_assoc. done.
    + intros j Hj. apply Hnone. lia.
    + by replace (S (S k + d)) with (S (k + S d)) by lia.
    + lia.
Qed.

Lemma fetch_loop_stopped (fuel : nat) :
  ∀ (k : nat) (log log' : list event) (why : stop) (data : list RawRecord),
    fetch_loop fuel (acc_upto k) (Z.of_nat (S k)) log = Some (why, data, log') →
    ∃ d, (d < fuel)%nat
         ∧ (∀ j, (k < j ≤ k + d)%nat → stop_reason j = None)
         ∧ stop_reason (S (k + d)) = Some why.
Proof.
  induction fuel as [|fuel IH]; intros k log log' why data; [done|].
  cbn [XinfadiCrawler.fetch_loop]. rewrite loop_body_at.
  destruct (stop_reason (S k)) as [why'|] eqn:Hk.
  - intros [= <- _ _]. exists 0%nat. rewrite Nat.add_0_r.
    split; [lia|]. split; [intros; lia|done].
  - intros (d & Hd & Hnone & Hstop)%IH. exists (S d).
    split; [lia|]. split.
    + intros j Hj. destruct (decide (j = S k)) as [->|]; [done|].
      apply Hnone. lia.
    + by replace (S (k + S d)) with (S (S k + d)) by lia.
Qed.

Lemma first_stop_reason (n : nat) :
  first_stop n ↔
  (1 ≤ n)%nat ∧ is_Some (stop_reason n)
  ∧ ∀ j, (1 ≤ j < n)%nat → stop_reason j = None.
Proof.
  unfold XinfadiCrawler.first_stop. split.
  - intros (Hn & Hs & Hb). split; [done|]. split.
    + destruct (stop_reason n) eqn:E; [done|]. by apply stop_reason_None in E.
    + intros j Hj. apply stop_reason_None. by apply Hb.
  - intros (Hn & [why Hs] & Hb). split; [done|]. split.
    + apply stop_reason_Some in Hs. unfold XinfadiCrawler.stops_at.
      destruct why; auto.
    + intros j Hj. apply stop_reason_None. by apply Hb.
Qed.

(** Requests of one pass: one for the page, none when the cap fired. *)
Lemma requested_pages_pass (k : nat) :
  requested_pages (pass_events (S k)) =
    if max_pages_exceeded (Z.of_nat (S k)) then []
    else [VInt (Z.of_nat (S k))].
Proof.
  unfold XinfadiCrawler.pass_events, XinfadiCrawler.loop_body. simpl pred.
  destruct (max_pages_exceeded (Z.of_nat (S k))); [done|].
  unfold XinfadiCrawler.fetch_page.
  assert (Hcur : ∀ p l c n s e,
            request_params p l c n s e !! "current" = Some (VInt p)).
  { intros. unfold request_params, set_if_truthy.
    repeat (case_match; simplify_map_eq; try done). }
  destruct (server _) as [| |r]; cbn [fst snd].
  - cbn. by rewrite Hcur.
  - cbn. by rewrite Hcur.
  - destruct (default [] (pr_list r)); [cbn; by rewrite Hcur|].
    destruct (_ <=? _); cbn; by rewrite Hcur.
Qed.

Lemma requested_pages_app (l1 l2 : list event) :
  requested_pages (l1 ++ l2) = requested_pages l1 ++ requested_pages l2.
Proof. apply omap_app. Qed.

Lemma requested_pages_prelude : requested_pages prelude = [].
Proof.
  unfold XinfadiCrawler.prelude.
  destruct (_ || _), category as [c|]; cbn; try done;
    by destruct (negb _).
Qed.

Lemma progress_lines_app (l1 l2 : list event) :
  progress_lines (l1 ++ l2) = progress_lines l1 ++ progress_lines l2.
Proof. apply omap_app. Qed.

Lemma progress_lines_prelude : progress_lines prelude = [].
Proof.
  unfold XinfadiCrawler.prelude.
  destruct (_ || _), category as [c|]; cbn; try done;
    by destruct (negb _).
Qed.

(** Progress lines of one pass: the count held after extending with page
    [S k], against the total that page reported. *)
Lemma progress_lines_pass (k : nat) :
  progress_lines (pass_events (S k)) =
    if max_pages_exceeded (Z.of_nat (S k)) then []
    else match page_list (S k) with
         | [] => []
         | _ :: _ => [(length (acc_upto (S k)),
                       reported_total (page_result (S k)))]
         end.
Proof.
  unfold XinfadiCrawler.pass_events, XinfadiCrawler.loop_body. simpl pred.
  destruct (max_pages_exceeded (Z.of_nat (S k))); [done|].
  cbn [XinfadiCrawler.acc_upto].
  unfold XinfadiCrawler.page_list, XinfadiCrawler.page_result,
    XinfadiCrawler.fetch_page.
  destruct (server _) as [| |r]; cbn [fst snd]; [done..|].
  destruct (default [] (pr_list r)); [done|].
  destruct (_ <=? _); done.
Qed.

Lemma stop_reason_None_cap (j : nat) :
  stop_reason j = None → max_pages_exceeded (Z.of_nat j) = false.
Proof.
  unfold XinfadiCrawler.stop_reason.
  by destruct (max_pages_exceeded (Z.of_nat j)).
Qed.

Lemma requested_pages_passes (d : nat) :
  ∀ k, (∀ j, (k < j ≤ k + d)%nat → max_pages_exceeded (Z.of_nat j) = false) →
       requested_pages (concat (pass_events <$> seq (S k) d)) =
         (λ j, VInt (Z.of_nat j)) <$> seq (S k) d.
Proof.
  induction d as [|d IH]; intros k Hcap; [done|].
  cbn [seq fmap list_fmap concat].
  rewrite requested_pages_app, requested_pages_pass, Hcap by lia.
  rewrite IH; [done|]. intros j Hj. apply Hcap. lia.
Qed.

(** The requests made up to and including the pass that stops at [n]. *)
Lemma requested_pages_until_stop (n : nat) :
  (1 ≤ n)%nat →
  (∀ j, (1 ≤ j < n)%nat → stop_reason j = None) →
  requested_pages (prelude ++ concat (pass_events <$> seq 1 n)) =
    (λ j, VInt (Z.of_nat j)) <$>
      seq 1 (if max_pages_exceeded (Z.of_nat n) then pred n else n).
Proof.
  intros Hn Hnone. destruct n as [|m]; [lia|].
  rewrite requested_pages_app, requested_pages_prelude. cbn [app pred].
  rewrite seq_S, fmap_app, concat_app, requested_pages_app.
  rewrite requested_pages_passes.
  2:{ intros j Hj. apply stop_reason_None_cap, Hnone. lia. }
  cbn [fmap list_fmap concat]. rewrite app_nil_r, requested_pages_pass.
  replace (1 + m)%nat with (S m) by lia.
  destruct (max_pages_exceeded (Z.of_nat (S m))).
  - by rewrite app_nil_r.
  - by rewrite seq_S, fmap_app.
Qed.

(** ** The stopping behaviour of [fetch_all_data] *)

(** On typed answers the loop of [fetch_all_data] starts at page 1 and
    leaves exactly at the first page at which one of three conditions
    holds: [max_pages] is set (a non-zero number) and the page number
    exceeds it, the page's record list is empty, or the accumulated count
    has reached the reported total.  With fuel for [n] passes the loop
    returns at the first such page [n]; it returns at no other page, and
    never when no page satisfies a condition.  The pages requested are
    [1, 2, ...] in order, each once. *)
Theorem fetch_all_data_stops_at_first_condition :
  (∀ fuel why data log,
     fetch_loop fuel [] 1 prelude = Some (why, data, log) ↔
     ∃ n, (n ≤ fuel)%nat ∧ first_stop n ∧ stop_reason n = Some why
          ∧ data = collected n
          ∧ log = prelude ++ concat (pass_events <$> seq 1 n))
  ∧ (∀ n why, first_stop n → stop_reason n = Some why →
       match why with
       | StopMaxPages => cond_max_pages n
       | StopEmpty => cond_empty n
       | StopTotal => cond_total n
       end
       ∧ requested_pages (prelude ++ concat (pass_events <$> seq 1 n)) =
           (λ j, VInt (Z.of_nat j)) <$>
             seq 1 (if max_pages_exceeded (Z.of_nat n) then pred n else n))
  ∧ (∀ fuel,
       fetch_all_data fuel =
         (λ '(_, data, log), (data, log ++ [EvPrint (MsgDone (length data))]))
           <$> fetch_loop fuel [] 1 prelude).
Proof.
  split; [|split].
  - intros fuel why data log. split.
    + intros Hrun.
      destruct (fetch_loop_stopped fuel 0 _ _ _ _ Hrun)
        as (d & Hd & Hnone & Hstop).
      pose proof (fetch_loop_to_stop d 0 fuel prelude why Hnone Hstop Hd)
        as Heq.
      change (acc_upto 0) with (@nil RawRecord) in Heq.
      change (Z.of_nat 1) with 1 in Heq.
      rewrite Hrun in Heq. injection Heq as -> ->.
      exists (S d). split; [lia|]. split; [|done].
      apply first_stop_reason. split; [lia|]. split; [by eexists|].
      intros j Hj. apply Hnone. lia.
    + intros (n & Hn & Hfirst & Hwhy & -> & ->).
      apply first_stop_reason in Hfirst as (H1 & _ & Hnone).
      destruct n as [|d]; [lia|].
      apply (fetch_loop_to_stop d 0 fuel prelude why); [|done|lia].
      intros j Hj. apply Hnone. lia.
  - intros n why Hfirst Hwhy. split; [by apply stop_reason_Some|].
    apply first_stop_reason in Hfirst as (H1 & _ & Hnone).
    by apply requested_pages_until_stop.
  - intros fuel. unfold XinfadiCrawler.fetch_all_data.
    by destruct (fetch_loop fuel [] 1 prelude) as [[[? ?] ?]|].
Qed.

(** C2. When the request for a page raises a transport error, or its body
    is not JSON, [fetch_page] returns [{list: [], total: 0}]; the loop of
    [fetch_all_data], having reached that page, leaves on it and returns the
    records of the pages before it, the failed page having been requested
    once, as the last request. *)
Theorem fetch_page_failure_ends_fetch (n fuel : nat) :
  (1 ≤ n ≤ fuel)%nat →
  (∀ j, (1 ≤ j < n)%nat → ¬ stops_at j) →
  max_pages_exceeded (Z.of_nat n) = false →
  (server (request_params (Z.of_nat n) limit_per_page
             category product_name start_date end_date) = RequestException
   ∨ server (request_params (Z.of_nat n) limit_per_page
               category product_name start_date end_date) = ValueError) →
  fst (fetch_page server (Z.of_nat n) limit_per_page
         category product_name start_date end_date)
    = {| pr_list := Some []; pr_count := None; pr_total := Some 0 |}
  ∧ ∃ log,
      fetch_all_data fuel = Some (acc_upto (pred n), log)
      ∧ requested_pages log = (λ j, VInt (Z.of_nat j)) <$> seq 1 n.
Proof.
  intros Hn Hbefore Hcap Hfail.
  assert (Hpage : fst (fetch_page server (Z.of_nat n) limit_per_page
                         category product_name start_date end_date)
                  = empty_page).
  { unfold XinfadiCrawler.fetch_page. by destruct Hfail as [-> | ->]. }
  split; [done|].
  assert (Hstop : stop_reason n = Some StopEmpty).
  { unfold XinfadiCrawler.stop_reason. rewrite Hcap.
    unfold XinfadiCrawler.page_list, XinfadiCrawler.page_result.
    by rewrite Hpage. }
  assert (Hnone : ∀ j, (1 ≤ j < n)%nat → stop_reason j = None).
  { intros j Hj. by apply stop_reason_None, Hbefore. }
  destruct n as [|d]; [lia|].
  assert (Hrun : fetch_loop fuel [] 1 prelude =
                   Some (StopEmpty, collected (S d),
                         prelude ++ concat (pass_events <$> seq 1 (S d)))).
  { apply (fetch_loop_to_stop d 0 fuel prelude StopEmpty); [|done|lia].
    intros j Hj. apply Hnone. lia. }
  assert (Hdata : collected (S d) = acc_upto d).
  { unfold XinfadiCrawler.collected. rewrite Hcap.
    cbn [XinfadiCrawler.acc_upto].
    unfold XinfadiCrawler.page_list, XinfadiCrawler.page_result.
    rewrite Hpage. cbn. by rewrite app_nil_r. }
  unfold XinfadiCrawler.fetch_all_data. rewrite Hrun, Hdata. cbn [pred].
  eexists. split; [reflexivity|].
  rewrite requested_pages_app.
  rewrite (requested_pages_until_stop (S d)) by (done || lia).
  rewrite Hcap. cbn. by rewrite app_nil_r.
Qed.

Lemma acc_upto_length_mono (j n : nat) :
  (j ≤ n)%nat → (length (acc_upto j) ≤ length (acc_upto n))%nat.
Proof.
  induction 1 as [|n _ IH]; [done|].
  cbn [XinfadiCrawler.acc_upto]. rewrite length_app. lia.
Qed.

Lemma progress_lines_passes (P : nat * Z → Prop) (d : nat) :
  ∀ k, (∀ j, (k < j ≤ k + d)%nat → Forall P (progress_lines (pass_events j))) →
       Forall P (progress_lines (concat (pass_events <$> seq (S k) d))).
Proof.
  induction d as [|d IH]; intros k Hall; [constructor|].
  cbn [seq fmap list_fmap concat]. rewrite progress_lines_app.
  apply Forall_app. split; [apply Hall; lia|].
  apply IH. intros j Hj. apply Hall. lia.
Qed.

(** C7. When every page up to the first empty page [E] reports a total
    larger than the number of records available, and no page cap
    intervenes, the loop leaves exactly at page [E], having requested pages
    [1..E], and returns the records of the pages before it; every count it
    has accumulated is at most the total reported by the page just read. *)
Theorem fetch_stops_at_first_empty_page (E fuel : nat) :
  (1 ≤ E ≤ fuel)%nat →
  page_list E = [] →
  (∀ j, (1 ≤ j < E)%nat → page_list j ≠ []) →
  (∀ j, (1 ≤ j ≤ E)%nat →
        Z.of_nat (length (acc_upto E)) < reported_total (page_result j)) →
  (∀ j, (1 ≤ j ≤ E)%nat → max_pages_exceeded (Z.of_nat j) = false) →
  ∃ log,
    fetch_loop fuel [] 1 prelude = Some (StopEmpty, acc_upto (pred E), log)
    ∧ fetch_all_data fuel =
        Some (acc_upto (pred E),
              log ++ [EvPrint (MsgDone (length (acc_upto (pred E))))])
    ∧ requested_pages log = (λ j, VInt (Z.of_nat j)) <$> seq 1 E
    ∧ Forall (λ '(acc, total), Z.of_nat acc ≤ total) (progress_lines log)
    ∧ Z.of_nat (length (acc_upto (pred E))) ≤ reported_total (page_result E).
Proof.
  intros HE Hempty Hfull Htotal Hcap.
  assert (Hnone : ∀ j, (1 ≤ j < E)%nat → stop_reason j = None).
  { intros j Hj. unfold XinfadiCrawler.stop_reason.
    rewrite Hcap by lia.
    destruct (page_list j) eqn:Hl; [by apply Hfull in Hl|].
    pose proof (Htotal j ltac:(lia)).
    pose proof (acc_upto_length_mono j E ltac:(lia)).
    destruct (Z.leb_spec (reported_total (page_result j))
                (Z.of_nat (length (acc_upto j)))); [lia|done]. }
  assert (Hstop : stop_reason E = Some StopEmpty).
  { unfold XinfadiCrawler.stop_reason. rewrite Hcap by lia. by rewrite Hempty. }
  destruct E as [|d]; [lia|].
  assert (Hdata : collected (S d) = acc_upto d).
  { unfold XinfadiCrawler.collected. rewrite Hcap by lia.
    cbn [XinfadiCrawler.acc_upto]. rewrite Hempty. by rewrite app_nil_r. }
  assert (Hrun : fetch_loop fuel [] 1 prelude =
                   Some (StopEmpty, acc_upto d,
                         prelude ++ concat (pass_events <$> seq 1 (S d)))).
  { rewrite <- Hdata.
    apply (fetch_loop_to_stop d 0 fuel prelude StopEmpty); [|done|lia].
    intros j Hj. apply Hnone. lia. }
  cbn [pred]. eexists. split; [exact Hrun|].
  split; [unfold XinfadiCrawler.fetch_all_data; by rewrite Hrun|].
  split; [|split].
  - rewrite (requested_pages_until_stop (S d)) by (done || lia).
    by rewrite Hcap by lia.
  - rewrite progress_lines_app, progress_lines_prelude. cbn [app].
    apply progress_lines_passes. intros j Hj.
    destruct j as [|k]; [lia|]. rewrite progress_lines_pass.
    rewrite Hcap by lia.
    destruct (page_list (S k)); constructor; [|constructor].
    pose proof (Htotal (S k) ltac:(lia)).
    pose proof (acc_upto_length_mono (S k) (S d) ltac:(lia)). lia.
  - pose proof (Htotal (S d) ltac:(lia)).
    pose proof (acc_upto_length_mono d (S d) ltac:(lia)). lia.
Qed.

End FetchProperties.

(** ** parse_data *)

Section ParseProperties.

Variable to_numeric : value -> option Q.

(** The row [parse_data] makes of one raw item. *)
Definition parsed_row (item : RawRecord) : gmap string cell :=
  alter (to_numeric_cell to_numeric) "最高价"
    (alter (to_numeric_cell to_numeric) "平均价"
       (alter (to_numeric_cell to_numeric) "最低价" (parse_item item))).

Lemma parse_data_rows (raw_data : list RawRecord) :
  rows (parse_data to_numeric raw_data) = parsed_row <$> raw_data
  ∧ columns (parse_data to_numeric raw_data) = COLUMNS.
Proof.
  destruct raw_data as [|item raw_data]; [done|].
  unfold parse_data. cbn [foldl coerce_column rows columns].
  split; [|done]. rewrite <- !list_fmap_compose. done.
Qed.

End ParseProperties.

Example pd_to_numeric_spellings :
  pd_to_numeric (VStr "1.2") = Some 1.2%Q
  ∧ pd_to_numeric (VStr " -3.50 ") = Some (- 3.50)%Q
  ∧ pd_to_numeric (VStr "1e3") = Some 1000%Q
  ∧ pd_to_numeric (VStr "25e-1") = Some 2.5%Q
  ∧ pd_to_numeric (VStr "bad") = None
  ∧ pd_to_numeric (VStr "") = None
  ∧ pd_to_numeric (VStr "1.2.3") = None
  ∧ pd_to_numeric VNone = None.
Proof. repeat split; reflexivity. Qed.

(** C5. [parse_data] makes one row of the ten fixed columns out of every
    raw record, rejecting none.  The primary category is [prodCat], or
    [prodPcat] when [prodCat] is absent, or the empty string when both
    are; each price cell is the numeric coercion of the raw field, null
    where it cannot be read.  A record with lowPrice "1.2", avgPrice "bad"
    and highPrice "2.0" gives the low price 1.2, a null average price and
    the high price 2.0, and its row is kept. *)
Theorem parse_data_coerces_prices :
  (∀ raw_data,
     columns (parse_data pd_to_numeric raw_data) = COLUMNS
     ∧ length (rows (parse_data pd_to_numeric raw_data)) = length raw_data
     ∧ ∀ i item, raw_data !! i = Some item →
         ∃ row,
           rows (parse_data pd_to_numeric raw_data) !! i = Some row
           ∧ dom row = list_to_set COLUMNS
           ∧ row !! "一级分类"
             = Some (Obj (py_or (dict_get item "prodCat" (VStr ""))
                            (dict_get item "prodPcat" (VStr ""))))
           ∧ (item !! "prodCat" = None →
              row !! "一级分类" = Some (Obj (dict_get item "prodPcat" (VStr ""))))
           ∧ (item !! "prodCat" = None → item !! "prodPcat" = None →
              row !! "一级分类" = Some (Obj (VStr "")))
           ∧ row !! "最低价"
             = Some (Num (pd_to_numeric (dict_get item "lowPrice" (VStr ""))))
           ∧ row !! "平均价"
             = Some (Num (pd_to_numeric (dict_get item "avgPrice" (VStr ""))))
           ∧ row !! "最高价"
             = Some (Num (pd_to_numeric (dict_get item "highPrice" (VStr "")))))
  ∧ (∀ before after,
       ∃ row,
         rows (parse_data pd_to_numeric (before ++ Samples.cabbage :: after))
           !! length before = Some row
         ∧ row !! "一级分类" = Some (Obj (VStr "蔬菜"))
         ∧ row !! "最低价" = Some (Num (Some 1.2%Q))
         ∧ row !! "平均价" = Some (Num None)
         ∧ row !! "最高价" = Some (Num (Some 2.0%Q))).
Proof.
  split.
  - intros raw_data.
    destruct (parse_data_rows pd_to_numeric raw_data) as [Hrows Hcols].
    split; [done|]. rewrite Hrows. split; [by rewrite length_fmap|].
    intros i item Hi. exists (parsed_row pd_to_numeric item).
    split; [by rewrite list_lookup_fmap, Hi|].
    split; [|split; [|split; [|split]]].
    + unfold parsed_row. rewrite !dom_alter_L. unfold parse_item.
      rewrite dom_list_to_map_L. done.
    + done.
    + intros Hcat. unfold parsed_row, parse_item, dict_get at 1.
      rewrite Hcat. done.
    + intros Hcat Hpcat. unfold parsed_row, parse_item, dict_get.
      rewrite Hcat, Hpcat. done.
    + done.
  - intros before after. exists (parsed_row pd_to_numeric Samples.cabbage).
    destruct (parse_data_rows pd_to_numeric
                (before ++ Samples.cabbage :: after)) as [-> _].
    rewrite list_lookup_fmap, list_lookup_middle by done.
    split; [done|]. split; [done|].
    unfold parsed_row, to_numeric_cell.
    change (parse_item Samples.cabbage) with
      (list_to_map
         [("一级分类", Obj (VStr "蔬菜")); ("二级分类", Obj (VStr ""));
          ("品名", Obj (VStr "白菜")); ("最低价", Obj (VStr "1.2"));
          ("平均价", Obj (VStr "bad")); ("最高价", Obj (VStr "2.0"));
          ("规格", Obj (VStr "")); ("产地", Obj (VStr ""));
          ("单位", Obj (VStr "")); ("发布日期", Obj (VStr ""))]
       : gmap string cell).
    done.
Qed.


(** ** The theorems at work on the sample services *)

Example fetch_all_data_flaky :
  fst <$> fetch_all_data Samples.flaky_server None None None None
            100 None (1 # 2) 3
  = Some [Samples.record "a"; Samples.record "b"; Samples.record "c"].
Proof. reflexivity. Qed.

Lemma fetch_all_data_stops_at_first_condition_witness :
  fetch_loop Samples.flaky_server None None None None 100 None (1 # 2) 3
    [] 1 (prelude None None None)
  = Some (StopEmpty,
          [Samples.record "a"; Samples.record "b"; Samples.record "c"],
          prelude None None None
          ++ concat (pass_events Samples.flaky_server None None None None
                       100 None (1 # 2) <$> seq 1 3)).
Proof.
  apply (proj1 (fetch_all_data_stops_at_first_condition Samples.flaky_server
                  None None None None 100 None (1 # 2))).
  exists 3%nat. split; [lia|]. split; [|done].
  apply first_stop_reason. split; [lia|]. split; [by eexists|].
  intros j Hj. destruct j as [|[|[|j]]]; [lia|reflexivity|reflexivity|lia].
Defined.

Lemma fetch_page_failure_ends_fetch_witness :
  ∃ log,
    fetch_all_data Samples.flaky_server None None None None 100 None (1 # 2) 3
    = Some ([Samples.record "a"; Samples.record "b"; Samples.record "c"], log)
    ∧ requested_pages log = [VInt 1; VInt 2; VInt 3].
Proof.
  refine (proj2 (fetch_page_failure_ends_fetch Samples.flaky_server
                   None None None None 100 None (1 # 2) 3 3 _ _ _ _)).
  - lia.
  - intros j Hj. apply stop_reason_None.
    destruct j as [|[|[|j]]]; [lia|reflexivity|reflexivity|lia].
  - reflexivity.
  - left. reflexivity.
Defined.

Lemma fetch_stops_at_first_empty_page_witness :
  ∃ log,
    fetch_loop Samples.short_server None None None None 100 None (1 # 2) 3
      [] 1 (prelude None None None)
    = Some (StopEmpty,
            [Samples.record "a"; Samples.record "b"; Samples.record "c"], log)
    ∧ progress_lines log = [(2%nat, 10); (3%nat, 10)].
Proof.
  destruct (fetch_stops_at_first_empty_page Samples.short_server
              None None None None 100 None (1 # 2) 3 3)
    as (log & Hrun & _ & _ & _ & _).
  - lia.
  - reflexivity.
  - intros j Hj. destruct j as [|[|[|j]]]; [lia|done|done|lia].
  - intros j Hj. destruct j as [|[|[|[|j]]]]; [lia|reflexivity..|lia].
  - intros j Hj. reflexivity.
  - exists log. split; [exact Hrun|].
    cbn in Hrun. injection Hrun as <-. reflexivity.
Defined.

End CrawlerProofs.

(** * Properties of the fetch on arbitrary answers *)

Module CrawlerJsonProofs.
Import CrawlerJson.

Section FetchProperties.

Variable server : gmap string value -> http_result.
Variable key_order : gmap string value -> list string.
Variables (category product_name start_date end_date : option string).
Variable limit_per_page : Z.
Variable max_pages : option Z.
Variable delay : Q.

Local Abbreviation loop_body :=
  (loop_body server key_order category product_name start_date end_date
     limit_per_page max_pages delay).
Local Abbreviation fetch_loop :=
  (fetch_loop server key_order category product_name start_date end_date
     limit_per_page max_pages delay).
Local Abbreviation fetch_all_data :=
  (fetch_all_data server key_order category product_name start_date end_date
     limit_per_page max_pages delay).
Local Abbreviation prelude := (prelude category start_date end_date).
Local Abbreviation page_body :=
  (page_body server category product_name start_date end_date limit_per_page).
Local Abbreviation page_list :=
  (page_list server category product_name start_date end_date limit_per_page).
Local Abbreviation page_total :=
  (page_total server category product_name start_date end_date limit_per_page).
Local Abbreviation page_items :=
  (page_items server key_order category product_name start_date end_date
     limit_per_page).
Local Abbreviation acc_upto :=
  (acc_upto server key_order category product_name start_date end_date
     limit_per_page).
Local Abbreviation pass_ending :=
  (pass_ending server key_order category product_name start_date end_date
     limit_per_page max_pages).
Local Abbreviation pass_events :=
  (pass_events server key_order category product_name start_date end_date
     limit_per_page max_pages delay).
Local Abbreviation stops_at :=
  (stops_at server key_order category product_name start_date end_date
     limit_per_page max_pages).
Local Abbreviation first_stop :=
  (first_stop server key_order category product_name start_date end_date
     limit_per_page max_pages).
Local Abbreviation cond_empty :=
  (cond_empty server category product_name start_date end_date limit_per_page).
Local Abbreviation cond_total :=
  (cond_total server key_order category product_name start_date end_date
     limit_per_page).
Local Abbreviation well_shaped :=
  (well_shaped server category product_name start_date end_date limit_per_page).
Local Abbreviation cond_max_pages := (cond_max_pages max_pages).
Local Abbreviation max_pages_exceeded := (max_pages_exceeded max_pages).

Lemma max_pages_exceeded_cond (k : nat) :
  max_pages_exceeded (Z.of_nat k) = true ↔ cond_max_pages k.
Proof.
  unfold CrawlerJson.max_pages_exceeded, CrawlerJson.cond_max_pages.
  destruct max_pages as [m|]; split.
  - intros [H1 H2]%andb_true_iff. exists m.
    apply negb_true_iff, Z.eqb_neq in H1. apply Z.ltb_lt in H2. done.
  - intros (m' & [= <-] & H1 & H2). apply andb_true_iff. split.
    + by apply negb_true_iff, Z.eqb_neq.
    + by apply Z.ltb_lt.
  - done.
  - by intros (m' & [=] & _).
Qed.

(** One pass of the loop, started with the records of the pages before. *)
Lemma loop_body_pass (k : nat) :
  loop_body (acc_upto k) (Z.of_nat (S k)) =
    (match pass_ending (S k) with
     | Some how => Leave how
     | None => Next (acc_upto (S k)) (Z.of_nat (S (S k)))
     end, pass_events (S k)).
Proof.
  unfold CrawlerJson.pass_events. simpl pred.
  rewrite (surjective_pairing (loop_body _ _)) at 1. f_equal.
  unfold CrawlerJson.loop_body, CrawlerJson.pass_ending.
  destruct (max_pages_exceeded (Z.of_nat (S k))); [done|].
  cbn [CrawlerJson.acc_upto pred].
  unfold CrawlerJson.page_items, CrawlerJson.page_list, CrawlerJson.page_body.
  destruct (fetch_page server _ _ _ _ _ _) as [result ev]. cbn [fst].
  destruct result as [| | | | | |result]; try done.
  destruct (truthy (dict_get result "list" (VList []))); cbn [negb]; [|done].
  destruct (iterate key_order _) as [items|]; [|done]. cbn [default fst].
  destruct (len_ge _ _) as [[]|]; try done.
  cbn. do 2 f_equal. lia.
Qed.

Lemma fetch_loop_to_end (d : nat) :
  ∀ (k fuel : nat) (log : list event) (how : ending),
    (∀ j, (k < j ≤ k + d)%nat → pass_ending j = None) →
    pass_ending (S (k + d)) = Some how →
    (d < fuel)%nat →
    fetch_loop fuel (acc_upto k) (Z.of_nat (S k)) log =
      Some (how, log ++ concat (pass_events <$> seq (S k) (S d))).
Proof.
  induction d as [|d IH]; intros k fuel log how Hnone Hend Hfuel;
    (destruct fuel as [|fuel]; [lia|]); cbn [CrawlerJson.fetch_loop];
    rewrite loop_body_pass.
  - rewrite Nat.add_0_r in Hend. rewrite Hend. cbn. by rewrite app_nil_r.
  - rewrite (Hnone (S k)) by lia.
    rewrite (IH (S k) fuel _ how).
    + by rewrite <- app_assoc.
    + intros j Hj. apply Hnone. lia.
    + by replace (S (S k + d)) with (S (k + S d)) by lia.
    + lia.
Qed.

Lemma fetch_loop_ended (fuel : nat) :
  ∀ (k : nat) (log log' : list event) (how : ending),
    fetch_loop fuel (acc_upto k) (Z.of_nat (S k)) log = Some (how, log') →
    ∃ d, (d < fuel)%nat
         ∧ (∀ j, (k < j ≤ k + d)%nat → pass_ending j = None)
         ∧ pass_ending (S (k + d)) = Some how.
Proof.
  induction fuel as [|fuel IH]; intros k log log' how; [done|].
  cbn [CrawlerJson.fetch_loop]. rewrite loop_body_pass.
  destruct (pass_ending (S k)) as [how'|] eqn:Hk.
  - intros [= <- _]. exists 0%nat. rewrite Nat.add_0_r.
    split; [lia|]. split; [intros; lia|done].
  - intros (d & Hd & Hnone & Hend)%IH. exists (S d).
    split; [lia|]. split.
    + intros j Hj. destruct (decide (j = S k)) as [->|]; [done|].
      apply Hnone. lia.
    + by replace (S (k + S d)) with (S (S k + d)) by lia.
Qed.

Lemma requested_app (l1 l2 : list event) :
  requested_pages (l1 ++ l2) = requested_pages l1 ++ requested_pages l2.
Proof. apply omap_app. Qed.

(** [fetch_page] sends one request, for the page it is asked for. *)
Lemma requested_fetch_page (page limit : Z) c n s e :
  requested_pages (fetch_page server page limit c n s e).2 = [VInt page].
Proof.
  assert (Hcur : XinfadiCrawler.request_params page limit c n s e !! "current"
                 = Some (VInt page)).
  { unfold XinfadiCrawler.request_params, XinfadiCrawler.set_if_truthy.
    repeat (case_match; simplify_map_eq; try done). }
  unfold CrawlerJson.fetch_page.
  destruct (server _); cbn -[XinfadiCrawler.request_params]; by rewrite Hcur.
Qed.

(** Requests of one pass: one for the page, none when the cap fired. *)
Lemma requested_pass (k : nat) :
  requested_pages (pass_events (S k)) =
    if max_pages_exceeded (Z.of_nat (S k)) then []
    else [VInt (Z.of_nat (S k))].
Proof.
  unfold CrawlerJson.pass_events, CrawlerJson.loop_body. simpl pred.
  destruct (max_pages_exceeded (Z.of_nat (S k))); [done|].
  pose proof (requested_fetch_page (Z.of_nat (S k)) limit_per_page
                category product_name start_date end_date) as Hev.
  destruct (fetch_page server _ _ _ _ _ _) as [result ev]. cbn [snd] in Hev.
  destruct result as [| | | | | |result]; try done.
  destruct (negb _); [done|].
  destruct (iterate key_order _); [|done].
  destruct (len_ge _ _) as [[]|]; cbn [snd];
    rewrite ?requested_app, Hev; done.
Qed.

Lemma requested_prelude : requested_pages prelude = [].
Proof.
  unfold CrawlerJson.prelude.
  destruct (_ || _), category as [c|]; cbn; try done;
    by destruct (negb _).
Qed.

Lemma pass_ending_None_cap (j : nat) :
  pass_ending j = None → max_pages_exceeded (Z.of_nat j) = false.
Proof.
  unfold CrawlerJson.pass_ending.
  by destruct (max_pages_exceeded (Z.of_nat j)).
Qed.

Lemma requested_passes (d : nat) :
  ∀ k, (∀ j, (k < j ≤ k + d)%nat → max_pages_exceeded (Z.of_nat j) = false) →
       requested_pages (concat (pass_events <$> seq (S k) d)) =
         (λ j, VInt (Z.of_nat j)) <$> seq (S k) d.
Proof.
  induction d as [|d IH]; intros k Hcap; [done|].
  cbn [seq fmap list_fmap concat].
  rewrite requested_app, requested_pass, Hcap by lia.
  rewrite IH; [done|]. intros j Hj. apply Hcap. lia.
Qed.

(** The requests made up to and including the pass that leaves at [n]. *)
Lemma requested_until_end (n : nat) :
  (1 ≤ n)%nat →
  (∀ j, (1 ≤ j < n)%nat → pass_ending j = None) →
  requested_pages (prelude ++ concat (pass_events <$> seq 1 n)) =
    (λ j, VInt (Z.of_nat j)) <$>
      seq 1 (if max_pages_exceeded (Z.of_nat n) then pred n else n).
Proof.
  intros Hn Hnone. destruct n as [|m]; [lia|].
  rewrite requested_app, requested_prelude. cbn [app pred].
  rewrite seq_S, fmap_app, concat_app, requested_app.
  rewrite requested_passes.
  2:{ intros j Hj. apply pass_ending_None_cap, Hnone. lia. }
  cbn [fmap list_fmap concat]. rewrite app_nil_r, requested_pass.
  replace (1 + m)%nat with (S m) by lia.
  destruct (max_pages_exceeded (Z.of_nat (S m))).
  - by rewrite app_nil_r.
  - by rewrite seq_S, fmap_app.
Qed.

(** *** The ways out of one pass *)

Lemma len_ge_shape (total : value) (n m : nat) :
  is_Some (len_ge n total) → is_Some (len_ge m total).
Proof. by destruct total. Qed.

(** A pass that leaves by a [break] leaves by the condition of that
    [break], holding the records of the pages before, and those of the
    page itself when the total is reached. *)
Lemma pass_ending_ended (k : nat) (why : stop) (data : list value) :
  pass_ending k = Some (Ended why data) →
  match why with
  | StopMaxPages => cond_max_pages k ∧ data = acc_upto (pred k)
  | StopEmpty => ¬ cond_max_pages k ∧ cond_empty k ∧ data = acc_upto (pred k)
  | StopTotal =>
      ¬ cond_max_pages k ∧ ¬ cond_empty k ∧ cond_total k ∧ data = acc_upto k
  end.
Proof.
  unfold CrawlerJson.pass_ending, CrawlerJson.cond_empty,
    CrawlerJson.cond_total, CrawlerJson.page_list, CrawlerJson.page_total.
  destruct (max_pages_exceeded (Z.of_nat k)) eqn:Hcap.
  { intros [= <- <-]. split; [by apply max_pages_exceeded_cond|done]. }
  assert (Hno : ¬ cond_max_pages k).
  { intros H%max_pages_exceeded_cond. congruence. }
  destruct (page_body k) as [| | | | | |result]; try done.
  destruct (truthy (dict_get result "list" (VList []))) eqn:Hl; cbn [negb].
  - destruct (iterate key_order _); [|done].
    destruct (len_ge _ _) as [[]|] eqn:Hge; try done.
    intros [= <- <-]. split; [done|]. split; [|split; [|done]].
    + intros (data_list & [= <-] & Hfalse). congruence.
    + by eexists.
  - intros [= <- <-]. split; [done|]. split; [|done]. by eexists.
Qed.

(** An exception leaves the loop only on an answer that is not of the
    expected shape. *)
Lemma pass_ending_uncaught (k : nat) (e : exn) :
  pass_ending k = Some (Uncaught e) → ¬ well_shaped k.
Proof.
  unfold CrawlerJson.pass_ending, CrawlerJson.well_shaped.
  destruct (max_pages_exceeded (Z.of_nat k)); [done|].
  destruct (page_body k) as [| | | | | |result];
    try (intros _ (r & records & [=] & _); done).
  intros Hend (r & records & [= <-] & Hl & Htotal). rewrite Hl in Hend.
  destruct (negb _); [done|]. cbn [iterate] in Hend.
  apply (len_ge_shape _ _ (length (acc_upto k))) in Htotal as [b Hb].
  rewrite Hb in Hend. by destruct b.
Qed.

(** On an answer of the expected shape the pass goes on exactly when no
    stop condition holds. *)
Lemma pass_ending_None (k : nat) :
  (pass_ending k = None → ¬ stops_at k)
  ∧ (well_shaped k → ¬ stops_at k → pass_ending k = None).
Proof.
  split.
  - unfold CrawlerJson.pass_ending, CrawlerJson.stops_at,
      CrawlerJson.cond_empty, CrawlerJson.cond_total,
      CrawlerJson.page_list, CrawlerJson.page_total.
    destruct (max_pages_exceeded (Z.of_nat k)) eqn:Hcap; [done|].
    destruct (page_body k) as [| | | | | |result]; try done.
    destruct (truthy (dict_get result "list" (VList []))) eqn:Hl;
      cbn [negb]; [|done].
    destruct (iterate key_order _); [|done].
    destruct (len_ge _ _) as [[]|] eqn:Hge; try done.
    intros _ [H|[(dl & [= <-] & H)|(t & [= <-] & H)]].
    + apply max_pages_exceeded_cond in H. congruence.
    + congruence.
    + congruence.
  - intros Hshape Hno.
    destruct (pass_ending k) as [[why data|e]|] eqn:Hend; [| |done].
    + destruct Hno. unfold CrawlerJson.stops_at.
      apply pass_ending_ended in Hend. destruct why; tauto.
    + by apply pass_ending_uncaught in Hend.
Qed.

Lemma first_stop_ending (n : nat) :
  (∀ j, (1 ≤ j ≤ n)%nat → well_shaped j) →
  first_stop n ↔
  (1 ≤ n)%nat
  ∧ (∀ j, (1 ≤ j < n)%nat → pass_ending j = None)
  ∧ ∃ why data, pass_ending n = Some (Ended why data).
Proof.
  intros Hshape. unfold CrawlerJson.first_stop. split.
  - intros (Hn & Hs & Hb). split; [done|]. split.
    + intros j Hj. apply pass_ending_None; [apply Hshape; lia|apply Hb; lia].
    + destruct (pass_ending n) as [[why data|e]|] eqn:Hend.
      * by eexists _, _.
      * apply pass_ending_uncaught in Hend. destruct Hend. apply Hshape. lia.
      * by apply pass_ending_None in Hend.
  - intros (Hn & Hnone & why & data & Hend). split; [done|]. split.
    + apply pass_ending_ended in Hend. unfold CrawlerJson.stops_at.
      destruct why; tauto.
    + intros j Hj. apply pass_ending_None. by apply Hnone.
Qed.

(** The runs of the loop: it leaves at the first pass that has an
    ending. *)
Lemma fetch_loop_runs (fuel : nat) (how : ending) (log : list event) :
  fetch_loop fuel [] 1 prelude = Some (how, log) ↔
  ∃ n, (1 ≤ n ≤ fuel)%nat
       ∧ (∀ j, (1 ≤ j < n)%nat → pass_ending j = None)
       ∧ pass_ending n = Some how
       ∧ log = prelude ++ concat (pass_events <$> seq 1 n).
Proof.
  split.
  - intros Hrun.
    destruct (fetch_loop_ended fuel 0 _ _ _ Hrun) as (d & Hd & Hnone & Hend).
    pose proof (fetch_loop_to_end d 0 fuel prelude how Hnone Hend Hd) as Heq.
    change (acc_upto 0) with (@nil value) in Heq.
    change (Z.of_nat 1) with 1 in Heq.
    rewrite Hrun in Heq. injection Heq as ->.
    exists (S d). split; [lia|]. split; [|done].
    intros j Hj. apply Hnone. lia.
  - intros (n & Hn & Hnone & Hend & ->).
    destruct n as [|d]; [lia|].
    apply (fetch_loop_to_end d 0 fuel prelude how); [|done|lia].
    intros j Hj. apply Hnone. lia.
Qed.

(** A pass with an ending has a first such pass at or before it. *)
Lemma first_ending_before (d : nat) :
  ∀ k, (∀ j, (1 ≤ j ≤ k)%nat → pass_ending j = None) →
       is_Some (pass_ending (k + S d)) →
       ∃ n, (k < n ≤ k + S d)%nat
            ∧ is_Some (pass_ending n)
            ∧ ∀ j, (1 ≤ j < n)%nat → pass_ending j = None.
Proof.
  induction d as [|d IH]; intros k Hnone Hend.
  - exists (k + 1)%nat. split; [lia|]. split; [done|].
    intros j Hj. apply Hnone. lia.
  - destruct (pass_ending (S k)) as [how|] eqn:Hk.
    + exists (S k). split; [lia|]. split; [by rewrite Hk|].
      intros j Hj. apply Hnone. lia.
    + destruct (IH (S k)) as (n & Hn & Hs & Hb).
      * intros j Hj. destruct (decide (j = S k)) as [->|]; [done|].
        apply Hnone. lia.
      * by replace (S k + S d)%nat with (k + S (S d))%nat by lia.
      * exists n. split; [lia|done].
Qed.

(** What the caller gets from a run that leaves at pass [n]. *)
Lemma fetch_all_data_at_ending (n fuel : nat) (how : ending) :
  (1 ≤ n ≤ fuel)%nat →
  (∀ j, (1 ≤ j < n)%nat → pass_ending j = None) →
  pass_ending n = Some how →
  ∃ log,
    fetch_all_data fuel
      = Some (match how with
              | Ended _ all_data => Returned all_data
              | Uncaught e => Raised e
              end, log)
    ∧ requested_pages log =
        (λ j, VInt (Z.of_nat j)) <$>
          seq 1 (if max_pages_exceeded (Z.of_nat n) then pred n else n).
Proof.
  intros Hn Hnone Hend.
  assert (Hrun : fetch_loop fuel [] 1 prelude
                 = Some (how, prelude ++ concat (pass_events <$> seq 1 n))).
  { apply fetch_loop_runs. by exists n. }
  pose proof (requested_until_end n ltac:(lia) Hnone) as Hreq.
  unfold CrawlerJson.fetch_all_data. rewrite Hrun.
  destruct how as [why data|e]; eexists; (split; [reflexivity|]).
  - rewrite requested_app, Hreq. cbn. by rewrite app_nil_r.
  - exact Hreq.
Qed.

Lemma fetch_all_data_inv (fuel : nat) (res : result) (log : list event) :
  fetch_all_data fuel = Some (res, log) →
  ∃ n how,
    (1 ≤ n ≤ fuel)%nat
    ∧ (∀ j, (1 ≤ j < n)%nat → pass_ending j = None)
    ∧ pass_ending n = Some how
    ∧ res = match how with
            | Ended _ all_data => Returned all_data
            | Uncaught e => Raised e
            end
    ∧ requested_pages log =
        (λ j, VInt (Z.of_nat j)) <$>
          seq 1 (if max_pages_exceeded (Z.of_nat n) then pred n else n).
Proof.
  intros Hrun.
  destruct (fetch_loop fuel [] 1 prelude) as [[how log0]|] eqn:Hloop.
  2:{ unfold CrawlerJson.fetch_all_data in Hrun. by rewrite Hloop in Hrun. }
  apply fetch_loop_runs in Hloop as (n & Hn & Hnone & Hend & _).
  destruct (fetch_all_data_at_ending n fuel how Hn Hnone Hend)
    as (log' & Hrun' & Hreq).
  rewrite Hrun in Hrun'. injection Hrun' as -> ->.
  by exists n, how.
Qed.

Lemma pass_ending_uncaught_cap (k : nat) (e : exn) :
  pass_ending k = Some (Uncaught e) → max_pages_exceeded (Z.of_nat k) = false.
Proof.
  unfold CrawlerJson.pass_ending.
  by destruct (max_pages_exceeded (Z.of_nat k)).
Qed.

(** ** The ways out of the loop of [fetch_all_data] *)

(** C1. The loop of [fetch_all_data] starts at page 1.  While the answers
    have the expected shape (an object whose [list] is a list and whose
    total is a number) it leaves exactly at the first page at which one of
    three conditions holds: [max_pages] is set (a non-zero number, as
    [if max_pages] tests it) and the page number exceeds it, the page's
    record list is empty, or the accumulated count has reached the
    reported total; with fuel for [n] passes the call returns at the first
    such page [n], and it returns at no other page.  The only other way
    out of the loop is an exception that the call lets through, and that
    happens only at an answer of another shape.  The pages requested are
    [1, 2, ...] in order, each once. *)
Theorem fetch_all_data_stops_or_raises :
  (∀ n fuel,
     (n ≤ fuel)%nat →
     (∀ j, (1 ≤ j ≤ n)%nat → well_shaped j) →
     first_stop n →
     ∃ why data log,
       fetch_all_data fuel = Some (Returned data, log)
       ∧ pass_ending n = Some (Ended why data)
       ∧ requested_pages log =
           (λ j, VInt (Z.of_nat j)) <$>
             seq 1 (if max_pages_exceeded (Z.of_nat n) then pred n else n))
  ∧ (∀ fuel data log,
       fetch_all_data fuel = Some (Returned data, log) →
       ∃ n why,
         (n ≤ fuel)%nat ∧ first_stop n
         ∧ pass_ending n = Some (Ended why data)
         ∧ requested_pages log =
             (λ j, VInt (Z.of_nat j)) <$>
               seq 1 (if max_pages_exceeded (Z.of_nat n) then pred n else n))
  ∧ (∀ n why data,
       pass_ending n = Some (Ended why data) →
       match why with
       | StopMaxPages => cond_max_pages n ∧ data = acc_upto (pred n)
       | StopEmpty =>
           ¬ cond_max_pages n ∧ cond_empty n ∧ data = acc_upto (pred n)
       | StopTotal =>
           ¬ cond_max_pages n ∧ ¬ cond_empty n ∧ cond_total n
           ∧ data = acc_upto n
       end)
  ∧ (∀ fuel e log,
       fetch_all_data fuel = Some (Raised e, log) →
       ∃ n, (1 ≤ n ≤ fuel)%nat
            ∧ ¬ well_shaped n
            ∧ (∀ j, (1 ≤ j < n)%nat → ¬ stops_at j)
            ∧ requested_pages log = (λ j, VInt (Z.of_nat j)) <$> seq 1 n).
Proof.
  split; [|split; [|split]].
  - intros n fuel Hfuel Hshape Hfirst.
    apply first_stop_ending in Hfirst as (Hn & Hnone & why & data & Hend);
      [|done].
    destruct (fetch_all_data_at_ending n fuel _ ltac:(lia) Hnone Hend)
      as (log & Hrun & Hreq).
    by exists why, data, log.
  - intros fuel data log Hrun.
    apply fetch_all_data_inv in Hrun as (n & how & Hn & Hnone & Hend & Hres & Hreq).
    destruct how as [why data'|e]; [|done]. injection Hres as ->.
    exists n, why. split; [lia|]. split; [|done].
    split; [lia|]. split.
    + apply pass_ending_ended in Hend. unfold CrawlerJson.stops_at.
      destruct why; tauto.
    + intros j Hj. apply pass_ending_None. by apply Hnone.
  - apply pass_ending_ended.
  - intros fuel e log Hrun.
    apply fetch_all_data_inv in Hrun as (n & how & Hn & Hnone & Hend & Hres & Hreq).
    destruct how as [why data'|e']; [done|]. injection Hres as ->.
    exists n. split; [done|]. split; [by apply pass_ending_uncaught in Hend|].
    split.
    + intros j Hj. apply pass_ending_None. by apply Hnone.
    + by rewrite (pass_ending_uncaught_cap n e' Hend) in Hreq.
Qed.

(** X1. With a non-zero [max_pages] the call always ends, whatever the
    service answers: within [max_pages + 1] passes it returns or lets an
    exception through, and at most [max_pages] pages are requested (none
    when it is negative). *)
Theorem fetch_all_data_bounded_by_max_pages (m : Z) (fuel : nat) :
  max_pages = Some m →
  m ≠ 0 →
  (Z.to_nat m < fuel)%nat →
  ∃ res log,
    fetch_all_data fuel = Some (res, log)
    ∧ (length (requested_pages log) ≤ Z.to_nat m)%nat.
Proof.
  intros Hmax Hm Hfuel.
  assert (Hcap : max_pages_exceeded (Z.of_nat (0 + S (Z.to_nat m))) = true).
  { unfold CrawlerJson.max_pages_exceeded. rewrite Hmax.
    destruct (Z.eqb_spec m 0); [done|]. cbn [negb andb].
    destruct (Z.ltb_spec m (Z.of_nat (0 + S (Z.to_nat m)))); [done|lia]. }
  destruct (first_ending_before (Z.to_nat m) 0)
    as (n & Hn & [how Hhow] & Hnone); [intros; lia| |].
  { unfold CrawlerJson.pass_ending. by rewrite Hcap. }
  destruct (fetch_all_data_at_ending n fuel how ltac:(lia) Hnone Hhow)
    as (log & Hrun & Hreq).
  eexists _, log. split; [exact Hrun|].
  rewrite Hreq, length_fmap, length_seq.
  destruct (decide (n = S (Z.to_nat m))) as [->|Hne].
  - cbn [Nat.add] in Hcap. rewrite Hcap. cbn [pred]. lia.
  - destruct (max_pages_exceeded (Z.of_nat n)); lia.
Qed.

End FetchProperties.

(** *** [max_pages] equal to 0 *)

Section MaxPagesZero.

Variable server : gmap string value -> http_result.
Variable key_order : gmap string value -> list string.
Variables (category product_name start_date end_date : option string).
Variable limit_per_page : Z.
Variable delay : Q.

Local Abbreviation fetch_loop max_pages :=
  (fetch_loop server key_order category product_name start_date end_date
     limit_per_page max_pages delay).
Local Abbreviation fetch_all_data max_pages :=
  (fetch_all_data server key_order category product_name start_date end_date
     limit_per_page max_pages delay).
Local Abbreviation pass_ending max_pages :=
  (pass_ending server key_order category product_name start_date end_date
     limit_per_page max_pages).
Local Abbreviation cond_empty :=
  (cond_empty server category product_name start_date end_date limit_per_page).
Local Abbreviation cond_total :=
  (cond_total server key_order category product_name start_date end_date
     limit_per_page).
Local Abbreviation well_shaped :=
  (well_shaped server category product_name start_date end_date limit_per_page).

Lemma fetch_loop_max_pages_zero (fuel : nat) :
  ∀ all_data page log,
    fetch_loop (Some 0) fuel all_data page log
    = fetch_loop None fuel all_data page log.
Proof.
  induction fuel as [|fuel IH]; intros all_data page log; [done|].
  cbn [CrawlerJson.fetch_loop].
  change (loop_body server key_order category product_name start_date
            end_date limit_per_page (Some 0) delay all_data page)
    with (loop_body server key_order category product_name start_date
            end_date limit_per_page None delay all_data page).
  destruct (loop_body _ _ _ _ _ _ _ _ _ _ _) as [[all_data' page'|how] ev];
    [apply IH|done].
Qed.

Lemma fetch_all_data_max_pages_zero (fuel : nat) :
  fetch_all_data (Some 0) fuel = fetch_all_data None fuel.
Proof.
  unfold CrawlerJson.fetch_all_data. by rewrite fetch_loop_max_pages_zero.
Qed.

(** C10. With [max_pages] equal to 0 no page cap is applied: every call
    gives what the call with [max_pages] unset gives, events included.
    Page 1 is always requested, and the loop goes on to the first page [n]
    at which the loop with [max_pages] unset is left: the call requests
    the pages [1..n] and ends there, by the empty-page or the
    total-reached condition, or by an exception on an answer that has not
    the expected shape, and never by the cap. *)
Theorem max_pages_zero_never_caps (n fuel : nat) (how : ending) :
  (1 ≤ n ≤ fuel)%nat →
  (∀ j, (1 ≤ j < n)%nat → pass_ending None j = None) →
  pass_ending None n = Some how →
  (∀ fuel', fetch_all_data (Some 0) fuel' = fetch_all_data None fuel')
  ∧ ∃ log,
      fetch_all_data (Some 0) fuel
        = Some (match how with
                | Ended _ all_data => Returned all_data
                | Uncaught e => Raised e
                end, log)
      ∧ requested_pages log = (λ j, VInt (Z.of_nat j)) <$> seq 1 n
      ∧ match how with
        | Ended StopMaxPages _ => False
        | Ended StopEmpty data =>
            cond_empty n
            ∧ data = acc_upto server key_order category product_name
                       start_date end_date limit_per_page (pred n)
        | Ended StopTotal data =>
            cond_total n
            ∧ data = acc_upto server key_order category product_name
                       start_date end_date limit_per_page n
        | Uncaught _ => ¬ well_shaped n
        end.
Proof.
  intros Hn Hnone Hend. split; [apply fetch_all_data_max_pages_zero|].
  destruct (fetch_all_data_at_ending server key_order category product_name
              start_date end_date limit_per_page None delay n fuel how
              Hn Hnone Hend) as (log & Hrun & Hreq).
  exists log. rewrite fetch_all_data_max_pages_zero.
  split; [exact Hrun|]. split; [exact Hreq|].
  destruct how as [why data|e].
  - apply pass_ending_ended in Hend.
    destruct why; [|tauto..].
    by destruct Hend as [(m & [=] & _) _].
  - by apply pass_ending_uncaught in Hend.
Qed.

End MaxPagesZero.
(** ** The fetch on the sample services *)

Lemma fetch_all_data_stops_or_raises_witness :
  ∃ why data log,
    fetch_all_data JsonSamples.book_server JsonSamples.no_keys
      None None None None 100 None (1 # 2) 2 = Some (Returned data, log)
    ∧ pass_ending JsonSamples.book_server JsonSamples.no_keys
        None None None None 100 None 2 = Some (Ended why data)
    ∧ requested_pages log = [VInt 1; VInt 2].
Proof.
  apply (proj1 (fetch_all_data_stops_or_raises JsonSamples.book_server
                  JsonSamples.no_keys None None None None 100 None (1 # 2))
           2%nat 2%nat).
  - lia.
  - intros j Hj. assert (j = 1 ∨ j = 2)%nat as [-> | ->] by lia.
    + eexists _, _. split; [vm_compute; reflexivity|].
      split; [vm_compute; reflexivity|]. vm_compute. by eexists.
    + eexists _, _. split; [vm_compute; reflexivity|].
      split; [vm_compute; reflexivity|]. vm_compute. by eexists.
  - split; [lia|]. split.
    + right. right. eexists. split; vm_compute; reflexivity.
    + intros j Hj. assert (j = 1)%nat as -> by lia.
      intros [(m & [=] & _)|[(data_list & Hl & Hempty)|(total & Ht & Hge)]].
      * vm_compute in Hl. injection Hl as <-. discriminate.
      * vm_compute in Ht. injection Ht as <-. discriminate.
Defined.

(** C1, as stated, fails on an answer that is no object: the loop is left
    at page 1 by an AttributeError although none of the three conditions
    holds there. *)
Lemma array_answer_raises :
  (∃ log,
     fetch_all_data JsonSamples.array_server JsonSamples.no_keys
       None None None None 100 None (1 # 2) 5 = Some (Raised AttributeError, log)
     ∧ requested_pages log = [VInt 1])
  ∧ ¬ stops_at JsonSamples.array_server JsonSamples.no_keys
        None None None None 100 None 1.
Proof.
  split.
  - eexists. split; vm_compute; reflexivity.
  - intros [(m & [=] & _)|[(data_list & Hl & _)|(total & Ht & _)]];
      discriminate.
Qed.

Lemma max_pages_zero_never_caps_witness :
  ∃ log,
    fetch_all_data JsonSamples.book_server JsonSamples.no_keys
      None None None None 100 (Some 0) (1 # 2) 2
    = Some (Returned [VDict (Samples.record "a"); VDict (Samples.record "b");
                      VDict (Samples.record "c")], log)
    ∧ requested_pages log = [VInt 1; VInt 2].
Proof.
  destruct (max_pages_zero_never_caps JsonSamples.book_server
              JsonSamples.no_keys None None None None 100 (1 # 2) 2 2
              (Ended StopTotal
                 [VDict (Samples.record "a"); VDict (Samples.record "b");
                  VDict (Samples.record "c")]))
    as (_ & log & Hrun & Hreq & _).
  - lia.
  - intros j Hj. assert (j = 1)%nat as -> by lia. vm_compute. reflexivity.
  - vm_compute. reflexivity.
  - by exists log.
Defined.

(** C10, as stated, fails on an answer whose count is a string: with
    [max_pages] equal to 0 the loop is left at page 1 by a TypeError, and
    neither the empty-page nor the total-reached condition has fired. *)
Lemma string_count_raises :
  (∃ log,
     fetch_all_data JsonSamples.string_count_server JsonSamples.no_keys
       None None None None 100 (Some 0) (1 # 2) 5 = Some (Raised TypeError, log)
     ∧ requested_pages log = [VInt 1])
  ∧ ¬ cond_empty JsonSamples.string_count_server None None None None 100 1
  ∧ ¬ cond_total JsonSamples.string_count_server JsonSamples.no_keys
        None None None None 100 1.
Proof.
  split; [|split].
  - eexists. split; vm_compute; reflexivity.
  - intros (data_list & Hl & Hempty).
    vm_compute in Hl. injection Hl as <-. discriminate.
  - intros (total & Ht & Hge).
    vm_compute in Ht. injection Ht as <-. discriminate.
Qed.

Lemma fetch_all_data_bounded_by_max_pages_witness :
  ∃ res log,
    fetch_all_data JsonSamples.string_count_server JsonSamples.no_keys
      None None None None 100 (Some 1) (1 # 2) 2 = Some (res, log)
    ∧ (length (requested_pages log) ≤ 1)%nat.
Proof.
  apply (fetch_all_data_bounded_by_max_pages JsonSamples.string_count_server
           JsonSamples.no_keys None None None None 100 (Some 1) (1 # 2) 1 2).
  - reflexivity.
  - discriminate.
  - vm_compute. lia.
Defined.

End CrawlerJsonProofs.

(** * Typed answers *)

Module TypedAnswers.
Import CrawlerJson.

(** ** The typed answers among all answers

    [XinfadiCrawler] runs the loop on answers of the expected shape.  Such
    an answer is the JSON object below, and on these objects the loop of
    this module does what the typed loop does. *)

Definition set_key (k : string) (v : option value)
    (d : gmap string value) : gmap string value :=
  match v with
  | Some v => <[k := v]> d
  | None => d
  end.

Definition json_of_page (r : XinfadiCrawler.PageResult) : value :=
  VDict
    (set_key "list"
       ((λ l, VList (VDict <$> l)) <$> XinfadiCrawler.pr_list r)
       (set_key "count" (VInt <$> XinfadiCrawler.pr_count r)
          (set_key "total" (VInt <$> XinfadiCrawler.pr_total r) ∅))).

Definition json_of_answer (a : XinfadiCrawler.http_result) : http_result :=
  match a with
  | XinfadiCrawler.RequestException => RequestException
  | XinfadiCrawler.ValueError => ValueError
  | XinfadiCrawler.Json r => Parsed (json_of_page r)
  end.

Definition json_of_message (m : XinfadiCrawler.message) : message :=
  match m with
  | XinfadiCrawler.MsgRequestFailed => MsgRequestFailed
  | XinfadiCrawler.MsgJsonFailed => MsgJsonFailed
  | XinfadiCrawler.MsgStart => MsgStart
  | XinfadiCrawler.MsgDateRange s e => MsgDateRange s e
  | XinfadiCrawler.MsgCategory c => MsgCategory c
  | XinfadiCrawler.MsgMaxPages m => MsgMaxPages m
  | XinfadiCrawler.MsgProgress page got acc total =>
      MsgProgress page got acc (VInt total)
  | XinfadiCrawler.MsgDone n => MsgDone n
  end.

Definition json_of_event (e : XinfadiCrawler.event) : event :=
  match e with
  | XinfadiCrawler.EvGet params => EvGet params
  | XinfadiCrawler.EvSleep delay => EvSleep delay
  | XinfadiCrawler.EvPrint m => EvPrint (json_of_message m)
  end.

Definition json_of_stop (why : XinfadiCrawler.stop) : stop :=
  match why with
  | XinfadiCrawler.StopMaxPages => StopMaxPages
  | XinfadiCrawler.StopEmpty => StopEmpty
  | XinfadiCrawler.StopTotal => StopTotal
  end.

Section Refinement.

Variable server : gmap string value -> XinfadiCrawler.http_result.
Variable key_order : gmap string value -> list string.
Variables (category product_name start_date end_date : option string).
Variable limit_per_page : Z.
Variable max_pages : option Z.
Variable delay : Q.

Lemma json_of_page_list (r : XinfadiCrawler.PageResult) (d : gmap string value) :
  json_of_page r = VDict d →
  dict_get d "list" (VList [])
  = VList (VDict <$> default [] (XinfadiCrawler.pr_list r)).
Proof.
  intros [= <-]. unfold dict_get, set_key.
  destruct (XinfadiCrawler.pr_list r), (XinfadiCrawler.pr_count r),
    (XinfadiCrawler.pr_total r); by simplify_map_eq.
Qed.

Lemma json_of_page_total (r : XinfadiCrawler.PageResult) (d : gmap string value) :
  json_of_page r = VDict d →
  reported_total d = VInt (XinfadiCrawler.reported_total r).
Proof.
  intros [= <-].
  unfold reported_total, XinfadiCrawler.reported_total, py_or, dict_get, set_key.
  destruct (XinfadiCrawler.pr_list r), (XinfadiCrawler.pr_count r) as [c|],
    (XinfadiCrawler.pr_total r); simplify_map_eq; cbn [truthy default];
    try done; by destruct (c =? 0).
Qed.

Lemma fetch_page_typed (page limit : Z) c n s e :
  fetch_page (json_of_answer ∘ server) page limit c n s e
  = (json_of_page (XinfadiCrawler.fetch_page server page limit c n s e).1,
     json_of_event <$> (XinfadiCrawler.fetch_page server page limit c n s e).2).
Proof.
  unfold fetch_page, XinfadiCrawler.fetch_page, compose.
  by destruct (server _).
Qed.

Definition json_of_outcome (o : XinfadiCrawler.outcome) : outcome :=
  match o with
  | XinfadiCrawler.Next all_data page => Next (VDict <$> all_data) page
  | XinfadiCrawler.Break why all_data =>
      Leave (Ended (json_of_stop why) (VDict <$> all_data))
  end.

Lemma loop_body_typed (all_data : list XinfadiCrawler.RawRecord) (page : Z) :
  loop_body (json_of_answer ∘ server) key_order category product_name
    start_date end_date limit_per_page max_pages delay
    (VDict <$> all_data) page
  = (json_of_outcome
       (XinfadiCrawler.loop_body server category product_name start_date
          end_date limit_per_page max_pages delay all_data page).1,
     json_of_event <$>
       (XinfadiCrawler.loop_body server category product_name start_date
          end_date limit_per_page max_pages delay all_data page).2).
Proof.
  unfold loop_body, XinfadiCrawler.loop_body.
  change (max_pages_exceeded max_pages page)
    with (XinfadiCrawler.max_pages_exceeded max_pages page).
  destruct (XinfadiCrawler.max_pages_exceeded max_pages page); [done|].
  rewrite fetch_page_typed.
  destruct (XinfadiCrawler.fetch_page server _ _ _ _ _ _) as [r ev].
  cbn [fst snd].
  destruct (json_of_page r) as [| | | | | |d] eqn:Hd; try done.
  rewrite (json_of_page_list r d Hd), (json_of_page_total r d Hd).
  destruct (default [] (XinfadiCrawler.pr_list r)) as [|item l]; [done|].
  cbn [fmap list_fmap truthy negb iterate len_ge].
  rewrite <- fmap_cons, <- fmap_app, !length_fmap.
  destruct (_ <=? _); cbn [fst snd json_of_outcome json_of_stop];
    by rewrite !fmap_app.
Qed.

Lemma fetch_loop_typed (fuel : nat) :
  ∀ (all_data : list (gmap string value)) (page : Z)
    (log : list XinfadiCrawler.event),
    fetch_loop (json_of_answer ∘ server) key_order category product_name
      start_date end_date limit_per_page max_pages delay fuel
      (VDict <$> all_data) page (json_of_event <$> log)
    = (λ '(why, all_data, log),
         (Ended (json_of_stop why) (VDict <$> (all_data : list _)),
          json_of_event <$> (log : list _)))
        <$> XinfadiCrawler.fetch_loop server category product_name start_date
              end_date limit_per_page max_pages delay fuel all_data page log.
Proof.
  induction fuel as [|fuel IH]; intros all_data page log; [done|].
  cbn [fetch_loop XinfadiCrawler.fetch_loop]. rewrite loop_body_typed.
  destruct (XinfadiCrawler.loop_body server _ _ _ _ _ _ _ _ _)
    as [[all_data' page'|why all_data'] ev]; cbn [fst snd json_of_outcome].
  - rewrite <- fmap_app. apply IH.
  - cbn. by rewrite fmap_app.
Qed.

(** On typed answers [fetch_all_data] never raises, and it returns the
    records and performs the events of the typed loop. *)
Theorem fetch_all_data_typed (fuel : nat) :
  fetch_all_data (json_of_answer ∘ server) key_order category product_name
    start_date end_date limit_per_page max_pages delay fuel
  = (λ '(all_data, log),
       (Returned (VDict <$> (all_data : list _)),
        json_of_event <$> (log : list _)))
      <$> XinfadiCrawler.fetch_all_data server category product_name
            start_date end_date limit_per_page max_pages delay fuel.
Proof.
  unfold fetch_all_data, XinfadiCrawler.fetch_all_data.
  assert (Hpre : prelude category start_date end_date
                 = json_of_event <$>
                     XinfadiCrawler.prelude category start_date end_date).
  { unfold prelude, XinfadiCrawler.prelude.
    destruct (_ || _), category as [c|]; cbn; try done;
      by destruct (negb _). }
  rewrite Hpre.
  pose proof (fetch_loop_typed fuel [] 1
                (XinfadiCrawler.prelude category start_date end_date)) as Hrun.
  cbn [fmap list_fmap] in Hrun. rewrite Hrun.
  destruct (XinfadiCrawler.fetch_loop _ _ _ _ _ _ _ _ _ _ _ _)
    as [[[why all_data] log]|]; [|done].
  cbn. by rewrite fmap_app, length_fmap.
Qed.

End Refinement.

End TypedAnswers.

(** * Properties of the sync client *)

Module SyncProofs.
Import FeishuSync.

(** ** Column letters *)

(** The column number a letter string stands for in a spreadsheet: the
    letters read as digits 1..26 in base 26. *)
Fixpoint column_number_from (acc : Z) (s : string) : Z :=
  match s with
  | EmptyString => acc
  | String c s => column_number_from (26 * acc + (ord c - ord "A" + 1)) s
  end.

Definition column_number (s : string) : Z := column_number_from 0 s.

Fixpoint all_letters (s : string) : bool :=
  match s with
  | EmptyString => true
  | String c s => is_letter c && all_letters s
  end.

Lemma col_to_letter_loop_unfold (col : Z) (result : string) :
  col_to_letter_loop col result =
    if decide (0 < col) then
      col_to_letter_loop ((col - 1) `div` 26)
        (String (chr ((col - 1) `mod` 26 + ord "A")) result)
    else result.
Proof.
  rewrite col_to_letter_loop_equation_1.
  by destruct (decide (0 < col)).
Qed.

Lemma append_assoc (s1 s2 s3 : string) :
  (s1 +:+ s2) +:+ s3 = s1 +:+ (s2 +:+ s3).
Proof.
  induction s1 as [|c s1 IH]; [done|].
  change (String c ((s1 +:+ s2) +:+ s3) = String c (s1 +:+ (s2 +:+ s3))).
  by rewrite IH.
Qed.

Lemma column_number_from_app (s1 s2 : string) :
  ∀ acc, column_number_from acc (s1 +:+ s2)
         = column_number_from (column_number_from acc s1) s2.
Proof. induction s1 as [|c s1 IH]; intros acc; cbn; [done|apply IH]. Qed.

Lemma all_letters_app (s1 s2 : string) :
  all_letters (s1 +:+ s2) = all_letters s1 && all_letters s2.
Proof.
  induction s1 as [|c s1 IH]; [done|].
  change (String c s1 +:+ s2) with (String c (s1 +:+ s2)).
  cbn [all_letters]. by rewrite IH, andb_assoc.
Qed.

Lemma ord_chr (n : Z) : 0 ≤ n < 256 → ord (chr n) = n.
Proof.
  intros Hn. unfold ord, chr. rewrite N_ascii_embedding; lia.
Qed.

(** The loop pushes letters in front of what it was given. *)
Lemma col_to_letter_loop_acc (col : Z) :
  0 ≤ col →
  ∀ result, col_to_letter_loop col result = col_to_letter col +:+ result.
Proof.
  intros Hcol. pattern col. apply Z_lt_induction; [clear col Hcol|done].
  intros col IH result. unfold col_to_letter.
  rewrite (col_to_letter_loop_unfold col result),
    (col_to_letter_loop_unfold col "").
  destruct (decide (0 < col)) as [Hpos|]; [|done].
  assert (0 ≤ (col - 1) `div` 26 < col) as Hq.
  { split; [apply Z.div_pos; lia|apply Z.div_lt_upper_bound; lia]. }
  rewrite (IH _ Hq (String _ result)), (IH _ Hq (String _ "")).
  by rewrite append_assoc.
Qed.

Lemma col_to_letter_step (col : Z) :
  0 < col →
  col_to_letter col =
    col_to_letter ((col - 1) `div` 26)
    +:+ String (chr ((col - 1) `mod` 26 + ord "A")) "".
Proof.
  intros Hpos. unfold col_to_letter at 1.
  rewrite col_to_letter_loop_unfold. destruct (decide (0 < col)); [|lia].
  apply col_to_letter_loop_acc. apply Z.div_pos; lia.
Qed.

Lemma col_to_letter_nonpos (col : Z) : col ≤ 0 → col_to_letter col = "".
Proof.
  intros Hle. unfold col_to_letter. rewrite col_to_letter_loop_unfold.
  destruct (decide (0 < col)); [lia|done].
Qed.

Lemma col_to_letter_sound (col : Z) :
  0 ≤ col →
  column_number (col_to_letter col) = col
  ∧ all_letters (col_to_letter col) = true.
Proof.
  intros Hcol. generalize Hcol. pattern col.
  apply Z_lt_induction; [clear col Hcol|done].
  intros col IH Hcol.
  destruct (decide (0 < col)) as [Hpos|Hle].
  - rewrite col_to_letter_step by done.
    assert (0 ≤ (col - 1) `div` 26 < col) as Hq.
    { split; [apply Z.div_pos; lia|apply Z.div_lt_upper_bound; lia]. }
    destruct (IH _ Hq ltac:(lia)) as [Hnum Hall].
    pose proof (Z.mod_pos_bound (col - 1) 26 ltac:(lia)) as Hm.
    unfold column_number in *. split.
    + rewrite column_number_from_app, Hnum. cbn [column_number_from].
      rewrite ord_chr by (change (ord "A") with 65; lia).
      pose proof (Z.div_mod (col - 1) 26 ltac:(lia)). lia.
    + rewrite all_letters_app, Hall. cbn. unfold is_letter.
      rewrite ord_chr by (change (ord "A") with 65; lia).
      change (ord "A") with 65. rewrite andb_true_r.
      apply andb_true_iff. split; apply Z.leb_le; lia.
  - rewrite col_to_letter_nonpos by lia. split; [cbn; lia|done].
Qed.

(** C8. [col_to_letter] maps a positive column count to its spreadsheet
    letter string: upper-case letters only, which read back in base 26
    (A = 1, ..., Z = 26) give the count; 1, 26, 27, 52 and 53 map to
    A, Z, AA, AZ and BA. *)
Theorem col_to_letter_base26 :
  (∀ col, 0 < col →
          column_number (col_to_letter col) = col
          ∧ all_letters (col_to_letter col) = true
          ∧ col_to_letter col ≠ "")
  ∧ col_to_letter 1 = "A"
  ∧ col_to_letter 26 = "Z"
  ∧ col_to_letter 27 = "AA"
  ∧ col_to_letter 52 = "AZ"
  ∧ col_to_letter 53 = "BA".
Proof.
  split; [|by vm_compute].
  intros col Hpos. destruct (col_to_letter_sound col ltac:(lia)) as [Hn Hl].
  repeat split; [done..|].
  intros Hnil. rewrite Hnil in Hn. cbn in Hn. lia.
Qed.

(** ** The collision probe *)

Lemma append_inj_r (c : ascii) (s1 : string) :
  ∀ s2, s1 +:+ String c "" = s2 +:+ String c "" → s1 = s2.
Proof.
  induction s1 as [|a s1 IH]; intros [|b s2]; cbn; intros Heq.
  - done.
  - injection Heq as _ Heq. by destruct s2.
  - injection Heq as _ Heq. by destruct s1.
  - injection Heq as -> Heq. f_equal. by apply IH.
Qed.

Lemma candidate_inj (base_name : string) : Inj (=) (=) (candidate base_name).
Proof.
  intros j k Heq. unfold candidate in Heq.
  apply String.app_inj, String.app_inj in Heq.
  by apply append_inj_r, pretty_Z_inj in Heq.
Qed.

(** The probe returns the first free candidate from [counter] on; fuel
    beyond the number of names that can collide is enough. *)
Lemma probe_first_free (base_name : string) (existing : gset string) (fuel : nat) :
  ∀ (counter : Z) (colliding : gset string),
    (∀ j, counter ≤ j →
          candidate base_name j ∈ existing → candidate base_name j ∈ colliding) →
    (size colliding < fuel)%nat →
    ∃ k, counter ≤ k
         ∧ probe fuel base_name existing counter = Some (candidate base_name k)
         ∧ (candidate base_name k ∉ existing)
         ∧ (∀ j, counter ≤ j < k → candidate base_name j ∈ existing).
Proof.
  induction fuel as [|fuel IH]; intros counter colliding Hcol Hsize; [lia|].
  cbn [probe].
  destruct (decide (candidate base_name counter ∈ existing)) as [Hin|Hout].
  - assert (candidate base_name counter ∈ colliding) as Hin'.
    { apply Hcol; [lia|done]. }
    destruct (IH (counter + 1) (colliding ∖ {[candidate base_name counter]}))
      as (k & Hk & Hprobe & Hfree & Hbelow).
    + intros j Hj Hj'. apply elem_of_difference. split.
      * apply Hcol; [lia|done].
      * intros Heq%elem_of_singleton. apply candidate_inj in Heq. lia.
    + pose proof (size_difference colliding {[candidate base_name counter]}
                    ltac:(set_solver)) as Hsz.
      rewrite size_singleton in Hsz.
      assert (size colliding ≠ 0%nat).
      { intros Hz%size_empty_inv. set_solver. }
      lia.
    + exists k. split; [lia|]. split; [done|]. split; [done|].
      intros j Hj. destruct (decide (j = counter)) as [->|]; [done|].
      apply Hbelow. lia.
  - exists counter. split; [lia|]. split; [done|]. split; [done|].
    intros j Hj. lia.
Qed.

(** ** What the token machinery does to the session *)

Section ClientProperties.

Variable remote : nat -> request -> option value.
Variable clock : nat -> instant.

Definition is_post (r : request) : Prop := req_method r = POST.

(** A computation with token traffic only: it appends nothing but POST
    requests to the session, it does not run out of fuel, and it raises
    only where [may_raise] allows. *)
Definition token_traffic (may_raise : bool) {A} (m : M A) : Prop :=
  ∀ w, ∃ new,
    sent (m w).2 = sent w ++ new
    ∧ Forall is_post new
    ∧ match (m w).1 with
      | Ok _ => True
      | Raise _ => may_raise = true
      | OutOfFuel => False
      end.

Lemma tt_ret {A} b (a : A) : token_traffic b (ret a).
Proof. intros w. exists []. by rewrite app_nil_r. Qed.

Lemma tt_raise {A} (e : exn) : token_traffic true (@raise A e).
Proof. intros w. exists []. by rewrite app_nil_r. Qed.

Lemma tt_gets {A} b (f : Client → A) : token_traffic b (gets f).
Proof. intros w. exists []. by rewrite app_nil_r. Qed.

Lemma tt_modify b (f : Client → Client) : token_traffic b (modify f).
Proof. intros w. exists []. by rewrite app_nil_r. Qed.

Lemma tt_now b : token_traffic b (now clock).
Proof. intros w. exists []. by rewrite app_nil_r. Qed.

Lemma tt_http (r : request) : is_post r → token_traffic true (http remote r).
Proof.
  intros Hr w. exists [r]. unfold http.
  destruct (remote _ r); cbn; by repeat constructor.
Qed.

Lemma tt_bind {A B} b (m : M A) (k : A → M B) :
  token_traffic b m → (∀ a, token_traffic b (k a)) → token_traffic b (bind m k).
Proof.
  intros Hm Hk w. destruct (Hm w) as (new & Hs & Hp & Hr). unfold bind.
  destruct (m w) as [[a|e|] w1]; cbn in *; [|by exists new|done].
  destruct (Hk a w1) as (new' & Hs' & Hp' & Hr').
  exists (new ++ new'). rewrite Hs', Hs, app_assoc.
  split; [done|]. split; [by apply Forall_app|done].
Qed.

Lemma tt_try {A} b (m h : M A) :
  token_traffic true m → token_traffic b h → token_traffic b (try_except m h).
Proof.
  intros Hm Hh w. destruct (Hm w) as (new & Hs & Hp & Hr). unfold try_except.
  destruct (m w) as [[a|e|] w1]; cbn in *; [by exists new| |done].
  destruct (Hh w1) as (new' & Hs' & Hp' & Hr').
  exists (new ++ new'). rewrite Hs', Hs, app_assoc.
  split; [done|]. split; [by apply Forall_app|done].
Qed.

Lemma tt_save_config b : token_traffic b (_save_config clock).
Proof.
  intros w. exists []. rewrite app_nil_r.
  unfold _save_config, try_except.
  destruct (file w), (file_writable w) eqn:Hw; cbn; rewrite ?Hw; cbn; done.
Qed.

Ltac traffic :=
  repeat match goal with
    | |- token_traffic _ (bind _ _) => apply tt_bind; [|intros ?]
    | |- token_traffic _ (try_except _ _) => apply tt_try
    | |- token_traffic _ (ret _) => apply tt_ret
    | |- token_traffic true (raise _) => apply tt_raise
    | |- token_traffic _ (gets _) => apply tt_gets
    | |- token_traffic _ (modify _) => apply tt_modify
    | |- token_traffic _ (now _) => apply tt_now
    | |- token_traffic _ (_save_config _) => apply tt_save_config
    | |- token_traffic true (http _ _) => apply tt_http; reflexivity
    | |- token_traffic _ (as_dict ?v) => destruct v; cbn [as_dict]
    | |- token_traffic _ (add_number _ ?v) => destruct v; cbn [add_number]
    | |- token_traffic _ (if ?c then _ else _) => destruct c
    end.

Lemma tt_store_user_token (data : gmap string value) :
  token_traffic true (store_user_token clock data).
Proof. unfold store_user_token. traffic. Qed.

Lemma tt_exchange_code_for_token b (code : string) :
  token_traffic b (exchange_code_for_token remote clock code).
Proof.
  unfold exchange_code_for_token. traffic; apply tt_store_user_token.
Qed.

Lemma tt_refresh_user_token b : token_traffic b (refresh_user_token remote clock).
Proof.
  unfold refresh_user_token. traffic; apply tt_store_user_token.
Qed.

Lemma tt_get_user_access_token b :
  token_traffic b (get_user_access_token remote clock).
Proof.
  unfold get_user_access_token. traffic; apply tt_refresh_user_token.
Qed.

Lemma tt_get_tenant_access_token b :
  token_traffic b (get_tenant_access_token remote clock).
Proof. unfold get_tenant_access_token. traffic. Qed.

Lemma tt_get_headers b : token_traffic b (_get_headers remote clock).
Proof.
  unfold _get_headers. traffic;
    [apply tt_get_tenant_access_token|apply tt_get_user_access_token].
Qed.

(** ** Chunked writes *)

(** The payload [write_batches] builds for batch [batch_idx]. *)
Definition planned_write (data : list (list value)) (sheet_id end_col : string)
    (start_row batch_size batch_idx : Z) : value :=
  let total_rows := Z.of_nat (length data) in
  let batch_start := batch_idx * batch_size in
  let batch_end := Z.min ((batch_idx + 1) * batch_size) total_rows in
  request_data
    (sheet_id +:+ "!A" +:+ pretty (start_row + batch_start) +:+ ":"
     +:+ end_col +:+ pretty (start_row + batch_end - 1))
    (py_slice data batch_start batch_end).

(** The service accepts every chunk write. *)
Definition accepts_writes : Prop :=
  ∀ n r, req_method r = PUT →
         ∃ d, remote n r = Some (VDict d)
              ∧ eq_zero (dict_get_none d "code") = true.

Definition chunk_writes (new : list request) : list request :=
  filter (λ r, req_method r = PUT) new.

Lemma chunk_writes_posts (new : list request) :
  Forall is_post new → chunk_writes new = [].
Proof.
  induction 1 as [|r new Hr _ IH]; [done|].
  unfold chunk_writes in *. rewrite filter_cons_False; [done|].
  unfold is_post in Hr. by rewrite Hr.
Qed.

Lemma write_batches_accepted (data : list (list value))
    (sheet_id end_col url : string) (start_row batch_size : Z) (idxs : list Z) :
  accepts_writes →
  ∀ w, ∃ w' new,
    write_batches remote clock idxs data sheet_id end_col url
      start_row batch_size w = (Ok true, w')
    ∧ sent w' = sent w ++ new
    ∧ req_payload <$> chunk_writes new =
        planned_write data sheet_id end_col start_row batch_size <$> idxs
    ∧ Forall (λ r, req_url r = url) (chunk_writes new).
Proof.
  intros Hacc. induction idxs as [|batch_idx idxs IH]; intros w.
  - exists w, []. by rewrite app_nil_r.
  - cbn [write_batches]. cbv zeta. unfold bind at 1, try_except, bind at 1.
    destruct (tt_get_headers false w) as (posts & Hs & Hp & Hr).
    destruct (_get_headers remote clock w) as [[headers|e|] w1]; cbn in Hs, Hr;
      [|done..].
    set (r := write_request url headers _ _).
    unfold bind at 1, http.
    destruct (Hacc (length (sent w1)) r eq_refl) as (d & -> & Hcode).
    unfold bind at 1. cbn [as_dict]. unfold ret at 1. rewrite Hcode.
    destruct (IH (with_sent r w1)) as (w' & new & Hrun & Hs' & Hpay & Hurl).
    exists w', (posts ++ [r] ++ new). split; [done|].
    split; [rewrite Hs'; cbn; rewrite Hs; by rewrite <- !app_assoc|].
    assert (chunk_writes (posts ++ [r] ++ new) = r :: chunk_writes new) as ->.
    { unfold chunk_writes. rewrite !filter_app.
      fold (chunk_writes posts). rewrite (chunk_writes_posts posts Hp).
      rewrite filter_cons_True by done. by rewrite filter_nil. }
    split; [rewrite fmap_cons, Hpay; done|].
    by constructor.
Qed.

Lemma py_slice_length {A} (l : list A) (a b : Z) :
  0 ≤ a ≤ b → b ≤ Z.of_nat (length l) →
  Z.of_nat (length (py_slice l a b)) = b - a.
Proof.
  intros Hab Hb. unfold py_slice, slice_index.
  destruct (Z.ltb_spec a 0), (Z.ltb_spec b 0); try lia.
  rewrite length_take, length_drop. lia.
Qed.

Lemma match_nonempty {A B} (l : list A) (x y : B) :
  l ≠ [] → match l with [] => x | _ :: _ => y end = y.
Proof. by destruct l. Qed.

(** C4. A grid of 10,000 rows written from cell A1 with the chunk size of
    4000, every write being accepted, goes out as exactly three chunk
    writes, in order, to the ranges [{sheet}!A1:{lastCol}4000],
    [{sheet}!A4001:{lastCol}8000] and [{sheet}!A8001:{lastCol}10000], where
    [lastCol] is [col_to_letter] of the widest row's length; the chunks are
    the rows [0:4000], [4000:8000] and [8000:10000] of the grid. *)
Theorem write_data_ten_thousand_rows (data : list (list value))
    (sheet_id token : string) (w : World) :
  Z.of_nat (length data) = 10000 →
  token ≠ "" →
  accepts_writes →
  let lastCol := col_to_letter (Z.of_nat (max_list (length <$> data))) in
  ∃ w' new,
    write_data remote clock data sheet_id "A1" (Some token) 4000 w
      = (Ok true, w')
    ∧ sent w' = sent w ++ new
    ∧ req_payload <$> chunk_writes new =
        [ request_data (sheet_id +:+ "!A1:" +:+ lastCol +:+ "4000")
            (py_slice data 0 4000);
          request_data (sheet_id +:+ "!A4001:" +:+ lastCol +:+ "8000")
            (py_slice data 4000 8000);
          request_data (sheet_id +:+ "!A8001:" +:+ lastCol +:+ "10000")
            (py_slice data 8000 10000) ]
    ∧ Forall (λ r, req_url r = BASE_URL +:+ "/sheets/v2/spreadsheets/"
                                +:+ token +:+ "/values") (chunk_writes new)
    ∧ Z.of_nat <$> [ length (py_slice data 0 4000);
                     length (py_slice data 4000 8000);
                     length (py_slice data 8000 10000) ]
      = [4000; 4000; 2000].
Proof.
  intros Hlen Htoken Hacc lastCol.
  unfold write_data.
  assert (str_truthy (Some token) = true) as ->.
  { cbn. by destruct token. }
  rewrite (match_nonempty data) by (intros ->; done).
  cbv zeta. rewrite Hlen.
  change (4000 =? 0) with false. cbv iota.
  change ((10000 + 4000 - 1) `div` 4000) with 3.
  change (range 3) with [0; 1; 2].
  destruct (write_batches_accepted data sheet_id lastCol
              (BASE_URL +:+ "/sheets/v2/spreadsheets/" +:+ token +:+ "/values")
              (start_row_of "A1") 4000 [0; 1; 2] Hacc w)
    as (w' & new & Hrun & Hs & Hpay & Hurl).
  exists w', new. split; [exact Hrun|]. split; [done|].
  split; [|split; [done|]].
  - rewrite Hpay. cbn [fmap list_fmap]. unfold planned_write. rewrite Hlen.
    reflexivity.
  - cbn [fmap list_fmap]. by rewrite !py_slice_length by lia.
Qed.

(** ** Name collisions *)

Lemma existing_names_pure (files : value) (w : World) :
  (existing_names files w).2 = w.
Proof.
  assert (Hnames : ∀ l w, (names_of l w).2 = w).
  { induction l as [|f l IH]; intros w'; [done|].
    cbn [names_of]. unfold bind.
    destruct f; cbn; try done.
    specialize (IH w').
    destruct (dict_get d "name" (VStr "")); try done.
    destruct (names_of l w') as [[names|e|] w1]; cbn in *; by subst. }
  destruct files; cbn; try done.
  - by destruct (String.eqb s "").
  - by destruct (bool_decide (d = ∅)).
Qed.

(** C9. [get_unique_filename] probes linearly: a base name that collides
    with no listed name is returned unchanged; otherwise the result is
    [base_(k)] for the least [k ≥ 1] whose candidate is free, every
    candidate below it colliding.  With the names X and X_(1) listed,
    resolving X gives X_(2).  Fuel beyond the number of listed names is
    enough for the probe to end. *)
Theorem get_unique_filename_first_free (fuel : nat) (base_name : string)
    (folder : value) (w w1 : World) (files : value) (existing : gset string) :
  list_folder_files remote clock (py_or folder (folder_token (self w))) w
    = (Ok files, w1) →
  existing_names files w1 = (Ok existing, w1) →
  (size existing < fuel)%nat →
  ∃ name,
    get_unique_filename remote clock fuel base_name folder w = (Ok name, w1)
    ∧ (name ∉ existing)
    ∧ (base_name ∉ existing → name = base_name)
    ∧ (base_name ∈ existing →
       ∃ k, 1 ≤ k ∧ name = candidate base_name k
            ∧ ∀ j, 1 ≤ j < k → candidate base_name j ∈ existing)
    ∧ (base_name = "X" → existing = {[ "X"; "X_(1)" ]} → name = "X_(2)").
Proof.
  intros Hlist Hnames Hfuel.
  unfold get_unique_filename, bind, gets. rewrite Hlist, Hnames.
  destruct (decide (base_name ∈ existing)) as [Hin|Hout].
  - destruct (probe_first_free base_name existing fuel 1 existing)
      as (k & Hk & Hprobe & Hfree & Hbelow); [done..|].
    rewrite Hprobe. exists (candidate base_name k).
    split; [done|]. split; [done|]. split; [done|].
    split; [intros _; by exists k|].
    intros -> ->.
    assert (candidate "X" 1 ∈ ({[ "X"; "X_(1)" ]} : gset string)) as H1.
    { vm_compute candidate. set_solver. }
    assert (candidate "X" 2 ∉ ({[ "X"; "X_(1)" ]} : gset string)) as H2.
    { vm_compute candidate. set_solver. }
    destruct (decide (k = 2)) as [->|]; [done|].
    destruct (decide (k = 1)) as [->|]; [done|].
    exfalso. apply H2, Hbelow. lia.
  - exists base_name. unfold ret. split; [done|]. split; [done|].
    split; [done|]. split; [done|].
    intros -> ->. exfalso. apply Hout. set_solver.
Qed.

(** ** The expiry margin *)

(** A computation that starts by sending [req] inside a [try]. *)
Lemma sends_first {B} (req : Client → request) (K : Client → value → M B)
    (h : M B) (w : World) :
  (∀ c v, token_traffic true (K c v)) →
  token_traffic false h →
  ∃ rest,
    sent (try_except
            (bind (gets id) (λ c, bind (http remote (req c)) (K c))) h w).2
    = sent w ++ req (self w) :: rest.
Proof.
  intros HK Hh. unfold try_except, bind at 1, gets. unfold bind at 1, http.
  cbn [id].
  assert (∃ rest,
            sent (h (with_sent (req (self w)) w)).2
            = sent w ++ req (self w) :: rest) as Hraise.
  { destruct (Hh (with_sent (req (self w)) w)) as (new & Hs & _).
    exists new. rewrite Hs. cbn. by rewrite <- app_assoc. }
  destruct (remote _ _) as [v|]; [|by apply Hraise].
  destruct (HK (self w) v (with_sent (req (self w)) w)) as (new & Hs & _ & Hr).
  destruct (K (self w) v _) as [[b|e|] w1]; cbn in Hs, Hr |- *; [| |done].
  - exists new. rewrite Hs. by rewrite <- app_assoc.
  - destruct (Hh w1) as (new' & Hs' & _).
    exists (new ++ new'). rewrite Hs', Hs. by rewrite <- !app_assoc.
Qed.

Lemma sent_grew (w w' : World) (r : request) (rest : list request) :
  sent w' = sent w ++ r :: rest → w' ≠ tick w.
Proof.
  intros Hs ->. cbn in Hs.
  apply (f_equal length) in Hs. rewrite length_app in Hs. cbn in Hs. lia.
Qed.

Lemma truthy_not_None (v : value) : truthy v = true → VNone ≠ v.
Proof. by intros Hv <-. Qed.

(** Past the margin the delegated accessor goes through the refresh. *)
Lemma get_user_access_token_stale (w : World) :
  truthy (user_access_token (self w)) = true →
  Qle_bool (token_expires_at (self w) - 300) (timestamp (clock (ticks w)))
    = true →
  get_user_access_token remote clock w =
    bind (refresh_user_token remote clock)
      (λ ok, if negb ok then ret VNone else gets user_access_token) (tick w).
Proof.
  intros Htok Hstale. unfold get_user_access_token.
  unfold bind at 1, gets at 1. rewrite Htok. cbn [negb].
  unfold bind at 1, now. unfold bind at 1, gets at 1.
  cbn [self tick]. by rewrite Hstale.
Qed.

Lemma get_user_access_token_fresh (w : World) :
  truthy (user_access_token (self w)) = true →
  Qle_bool (token_expires_at (self w) - 300) (timestamp (clock (ticks w)))
    = false →
  get_user_access_token remote clock w
    = (Ok (user_access_token (self w)), tick w).
Proof.
  intros Htok Hfresh. unfold get_user_access_token.
  unfold bind at 1, gets at 1. rewrite Htok. cbn [negb].
  unfold bind at 1, now. unfold bind at 1, gets at 1.
  cbn [self tick]. by rewrite Hfresh.
Qed.

Lemma refresh_user_token_not_cached (w : World) (tok : value) :
  truthy tok = true →
  bind (refresh_user_token remote clock)
    (λ ok, if negb ok then ret VNone else gets user_access_token) (tick w)
  ≠ (Ok tok, tick w).
Proof.
  intros Htok. unfold bind at 1, refresh_user_token.
  unfold bind at 1, gets at 1.
  destruct (truthy (refresh_token (self (tick w)))) eqn:Hrt; cbn [negb].
  - match goal with
    | |- context [try_except
                    (bind (gets id)
                       (λ c, bind (http remote (app_token_request c)) (@?K c)))
                    ?h (tick w)] =>
        destruct (sends_first app_token_request K h (tick w))
          as (rest & Hs);
        [intros c v; cbv beta; traffic; apply tt_store_user_token
        |apply tt_ret|]
    end.
    destruct (try_except _ _ (tick w)) as [[ok| |] w1]; cbn in Hs |- *;
      [|done..].
    intros Heq.
    assert (w1 = tick w) as ->.
    { by destruct (negb ok); injection Heq. }
    cbn in Hs. apply (f_equal length) in Hs.
    rewrite length_app in Hs. cbn in Hs. lia.
  - cbn. intros [= Heq]. by apply (truthy_not_None tok).
Qed.

Lemma get_tenant_access_token_fresh (w : World) :
  truthy (tenant_access_token (self w)) = true →
  Qle_bool (token_expires_at (self w) - 300) (timestamp (clock (ticks w)))
    = false →
  get_tenant_access_token remote clock w
    = (Ok (tenant_access_token (self w)), tick w).
Proof.
  intros Htok Hfresh. unfold get_tenant_access_token.
  unfold bind at 1, now. unfold bind at 1, gets at 1.
  unfold bind at 1, gets at 1. cbn [self tick].
  by rewrite Htok, Hfresh.
Qed.

(** Past the margin, or with no cached token, the service accessor asks
    for a new token. *)
Lemma get_tenant_access_token_stale (w : World) :
  truthy (tenant_access_token (self w))
  && negb (Qle_bool (token_expires_at (self w) - 300)
             (timestamp (clock (ticks w)))) = false →
  ∃ rest,
    sent (get_tenant_access_token remote clock w).2
    = sent w ++ tenant_token_request (self w) :: rest.
Proof.
  intros Hstale. unfold get_tenant_access_token.
  unfold bind at 1, now. unfold bind at 1, gets at 1.
  unfold bind at 1, gets at 1. cbn [self tick]. rewrite Hstale.
  match goal with
  | |- context [try_except
                  (bind (gets id)
                     (λ c, bind (http remote (tenant_token_request c)) (@?K c)))
                  ?h (tick w)] =>
      destruct (sends_first tenant_token_request K h (tick w))
        as (rest & Hs);
      [intros c v; cbv beta; traffic|apply tt_ret|]
  end.
  by exists rest.
Qed.

(** C3. A cached token is returned as it is, with no renewal, exactly when
    [now < expiry - 300], for the delegated accessor and for the service
    accessor alike.  At [expiry - now = 300] the token is not usable: the
    delegated accessor goes through [refresh_user_token] and the service
    accessor requests a new token.  At [expiry - now = 301] both return
    the cached token. *)
Theorem token_usable_iff_before_margin (w : World) :
  let now := timestamp (clock (ticks w)) in
  let expiry := token_expires_at (self w) in
  (truthy (user_access_token (self w)) = true →
   (get_user_access_token remote clock w
      = (Ok (user_access_token (self w)), tick w)
    ↔ (now < expiry - 300)%Q)
   ∧ ((expiry - now == 300)%Q →
      get_user_access_token remote clock w
        = bind (refresh_user_token remote clock)
            (λ ok, if negb ok then ret VNone else gets user_access_token)
            (tick w))
   ∧ ((expiry - now == 301)%Q →
      get_user_access_token remote clock w
        = (Ok (user_access_token (self w)), tick w)))
  ∧ (truthy (tenant_access_token (self w)) = true →
     (get_tenant_access_token remote clock w
        = (Ok (tenant_access_token (self w)), tick w)
      ↔ (now < expiry - 300)%Q)
     ∧ ((expiry - now == 300)%Q →
        ∃ rest,
          sent (get_tenant_access_token remote clock w).2
          = sent w ++ tenant_token_request (self w) :: rest)
     ∧ ((expiry - now == 301)%Q →
        get_tenant_access_token remote clock w
          = (Ok (tenant_access_token (self w)), tick w))).
Proof.
  intros now expiry.
  assert (Hfresh : (now < expiry - 300)%Q →
                   Qle_bool (expiry - 300) now = false).
  { intros Hlt. destruct (Qle_bool (expiry - 300) now) eqn:E; [|done].
    apply Qle_bool_iff in E. by apply Qlt_not_le in Hlt. }
  split.
  - intros Huser.
    assert (Hstale : (expiry - 300 <= now)%Q →
              get_user_access_token remote clock w
                = bind (refresh_user_token remote clock)
                    (λ ok, if negb ok then ret VNone
                           else gets user_access_token) (tick w)).
    { intros Hle%Qle_bool_iff. by apply get_user_access_token_stale. }
    split; [split|split].
    + intros Hcached. apply Qnot_le_lt. intros Hle.
      rewrite (Hstale Hle) in Hcached.
      by apply refresh_user_token_not_cached in Hcached.
    + intros Hlt. apply get_user_access_token_fresh; [done|by apply Hfresh].
    + intros Heq. apply Hstale. lra.
    + intros Heq. apply get_user_access_token_fresh; [done|].
      apply Hfresh. lra.
  - intros Htenant.
    assert (Hstale : (expiry - 300 <= now)%Q →
              ∃ rest,
                sent (get_tenant_access_token remote clock w).2
                = sent w ++ tenant_token_request (self w) :: rest).
    { intros Hle%Qle_bool_iff. apply get_tenant_access_token_stale.
      fold expiry now. by rewrite Hle, andb_false_r. }
    split; [split|split].
    + intros Hcached. apply Qnot_le_lt. intros Hle.
      destruct (Hstale Hle) as [rest Hsent]. rewrite Hcached in Hsent.
      cbn in Hsent. apply (f_equal length) in Hsent.
      rewrite length_app in Hsent. cbn in Hsent. lia.
    + intros Hlt. apply get_tenant_access_token_fresh; [done|by apply Hfresh].
    + intros Heq. apply Hstale. lra.
    + intros Heq. apply get_tenant_access_token_fresh; [done|].
      apply Hfresh. lra.
Qed.

(** ** Persistence of renewed tokens *)











End ClientProperties.

(** ** The theorems at work on the sample client *)

Lemma max_list_replicate (n k : nat) : max_list (replicate (S n) k) = k.
Proof. induction n as [|n IH]; cbn in *; [lia|]. rewrite IH. lia. Qed.

Lemma token_usable_iff_before_margin_witness :
  get_user_access_token Samples.granting (λ _, Samples.noon) Samples.world
    = (Ok (VStr "u-0"), tick Samples.world)
  ↔ (1000 < 2000 - 300)%Q.
Proof.
  exact (proj1 (proj1 (token_usable_iff_before_margin Samples.granting
                         (λ _, Samples.noon) Samples.world) eq_refl)).
Defined.

Lemma write_data_ten_thousand_rows_witness :
  ∃ w' new,
    write_data Samples.granting (λ _, Samples.noon) Samples.grid
      "sheet1" "A1" (Some "sht") 4000 Samples.world = (Ok true, w')
    ∧ sent w' = new
    ∧ req_payload <$> chunk_writes new =
        [ request_data "sheet1!A1:J4000" (py_slice Samples.grid 0 4000);
          request_data "sheet1!A4001:J8000" (py_slice Samples.grid 4000 8000);
          request_data "sheet1!A8001:J10000"
            (py_slice Samples.grid 8000 10000) ].
Proof.
  destruct (write_data_ten_thousand_rows Samples.granting (λ _, Samples.noon)
              Samples.grid "sheet1" "sht" Samples.world)
    as (w' & new & Hrun & Hsent & Hpay & _).
  - unfold Samples.grid. rewrite length_replicate. lia.
  - discriminate.
  - intros n r Hr. unfold Samples.granting. rewrite Hr.
    eexists. split; reflexivity.
  - exists w', new. split; [exact Hrun|]. split; [exact Hsent|].
    rewrite Hpay.
    replace (max_list (length <$> Samples.grid)) with 10%nat; [reflexivity|].
    unfold Samples.grid. rewrite fmap_replicate.
    replace (Z.to_nat 10000) with (S (Z.to_nat 9999)) by lia.
    by rewrite max_list_replicate.
Defined.



Lemma get_unique_filename_first_free_witness :
  (get_unique_filename Samples.granting (λ _, Samples.noon) 3 "X" VNone
     Samples.world).1 = Ok "X_(2)".
Proof.
  destruct (get_unique_filename_first_free Samples.granting (λ _, Samples.noon)
              3 "X" VNone Samples.world
              (list_folder_files Samples.granting (λ _, Samples.noon)
                 (VStr "fld") Samples.world).2
              (VList [VDict {[ "name" := VStr "X" ]};
                      VDict {[ "name" := VStr "X_(1)" ]}])
              {[ "X"; "X_(1)" ]})
    as (name & Hrun & _ & _ & _ & Hname).
  - vm_compute. reflexivity.
  - vm_compute. reflexivity.
  - vm_compute. lia.
  - rewrite Hrun. cbn. f_equal. by apply Hname.
Defined.

End SyncProofs.

(** * More on the crawler *)

Module CrawlerExtras.
Import XinfadiCrawler CrawlerOutput.

Section FetchBounds.

Variable server : gmap string value -> http_result.
Variables (category product_name start_date end_date : option string).
Variable limit_per_page : Z.
Variable delay : Q.

Local Abbreviation stop_reason max_pages :=
  (stop_reason server category product_name start_date end_date
     limit_per_page max_pages).
Local Abbreviation fetch_all_data max_pages :=
  (fetch_all_data server category product_name start_date end_date
     limit_per_page max_pages delay).
Local Abbreviation fetch_loop max_pages :=
  (fetch_loop server category product_name start_date end_date
     limit_per_page max_pages delay).
Local Abbreviation page_result :=
  (page_result server category product_name start_date end_date limit_per_page).
Local Abbreviation page_list :=
  (page_list server category product_name start_date end_date limit_per_page).
Local Abbreviation pass_events max_pages :=
  (pass_events server category product_name start_date end_date
     limit_per_page max_pages delay).
Local Abbreviation prelude := (prelude category start_date end_date).

(** A page at which the loop would stop has a first such page at or
    before it. *)
Lemma first_stop_before (max_pages : option Z) (d : nat) :
  ∀ k, (∀ j, (1 ≤ j ≤ k)%nat → stop_reason max_pages j = None) →
       is_Some (stop_reason max_pages (k + S d)) →
       ∃ n, (k < n ≤ k + S d)%nat
            ∧ is_Some (stop_reason max_pages n)
            ∧ ∀ j, (1 ≤ j < n)%nat → stop_reason max_pages j = None.
Proof.
  induction d as [|d IH]; intros k Hnone Hstop.
  - exists (k + 1)%nat. split; [lia|]. split; [done|].
    intros j Hj. apply Hnone. lia.
  - destruct (stop_reason max_pages (S k)) as [why|] eqn:Hk.
    + exists (S k). split; [lia|]. split; [by rewrite Hk|].
      intros j Hj. apply Hnone. lia.
    + destruct (IH (S k)) as (n & Hn & Hs & Hb).
      * intros j Hj. destruct (decide (j = S k)) as [->|]; [done|].
        apply Hnone. lia.
      * by replace (S k + S d)%nat with (k + S (S d))%nat by lia.
      * exists n. split; [lia|done].
Qed.

(** The run of the loop up to its first stop, as [fetch_all_data]
    reports it. *)
Lemma fetch_all_data_at_first_stop (max_pages : option Z) (n fuel : nat)
    (why : stop) :
  (1 ≤ n ≤ fuel)%nat →
  stop_reason max_pages n = Some why →
  (∀ j, (1 ≤ j < n)%nat → stop_reason max_pages j = None) →
  ∃ log,
    fetch_all_data max_pages fuel
      = Some (collected server category product_name start_date end_date
                limit_per_page max_pages n, log)
    ∧ requested_pages log =
        (λ j, VInt (Z.of_nat j)) <$>
          seq 1 (if max_pages_exceeded max_pages (Z.of_nat n)
                 then pred n else n).
Proof.
  intros Hn Hstop Hnone. destruct n as [|d]; [lia|].
  pose proof (CrawlerProofs.fetch_loop_to_stop server category product_name
                start_date end_date limit_per_page max_pages delay
                d 0 fuel prelude why) as Hrun.
  cbn [acc_upto Nat.add] in Hrun. change (Z.of_nat 1) with 1 in Hrun.
  unfold XinfadiCrawler.fetch_all_data. rewrite Hrun; [|intros j Hj; apply Hnone; lia|done|lia].
  eexists. split; [reflexivity|].
  rewrite CrawlerProofs.requested_pages_app.
  rewrite (CrawlerProofs.requested_pages_until_stop server category
             product_name start_date end_date limit_per_page max_pages delay
             (S d)) by (done || lia).
  cbn. by rewrite app_nil_r.
Qed.

(** X2. When the first answer reports no total (neither [count] nor
    [total], or zero), the fetch returns the records of page 1 alone and
    requests no second page. *)
Theorem fetch_all_data_without_total (max_pages : option Z) (fuel : nat) :
  reported_total (page_result 1) ≤ 0 →
  max_pages_exceeded max_pages 1 = false →
  ∃ log,
    fetch_all_data max_pages (S fuel) = Some (page_list 1, log)
    ∧ requested_pages log = [VInt 1].
Proof.
  intros Htotal Hcap.
  assert (Hstop : is_Some (stop_reason max_pages 1)).
  { unfold XinfadiCrawler.stop_reason. change (Z.of_nat 1) with 1.
    rewrite Hcap. destruct (page_list 1) eqn:Hl; [done|].
    destruct (Z.leb_spec (reported_total (page_result 1))
                (Z.of_nat (length (acc_upto server category product_name
                                     start_date end_date limit_per_page 1))));
      [done|lia]. }
  destruct Hstop as [why Hwhy].
  destruct (fetch_all_data_at_first_stop max_pages 1 (S fuel) why)
    as (log & Hrun & Hreq); [lia|done|intros; lia|].
  exists log. change (Z.of_nat 1) with 1 in Hreq. rewrite Hcap in Hreq.
  split; [|done]. rewrite Hrun. unfold collected.
  change (Z.of_nat 1) with 1. by rewrite Hcap.
Qed.

End FetchBounds.

(** ** File names *)

Lemma endswith_refl (s : string) : endswith s s = true.
Proof. destruct s; cbn [endswith]; by rewrite String.eqb_refl. Qed.

Lemma endswith_app (a b : string) : endswith (a +:+ b) b = true.
Proof.
  induction a as [|c a IH]; [apply endswith_refl|].
  change (String c a +:+ b) with (String c (a +:+ b)).
  cbn [endswith]. rewrite IH. apply orb_true_r.
Qed.

Lemma endswith_app_r (a b suffix : string) :
  endswith b suffix = true → endswith (a +:+ b) suffix = true.
Proof.
  intros Hb. induction a as [|c a IH]; [done|].
  change (String c a +:+ b) with (String c (a +:+ b)).
  cbn [endswith]. rewrite IH. apply orb_true_r.
Qed.

Lemma endswith_dot (s rest : string) :
  endswith s (String "." rest) = true → is_Some (before_last_dot s).
Proof.
  induction s as [|c s IH]; [done|].
  cbn [endswith before_last_dot].
  intros [Heq|Htail]%orb_true_iff.
  - apply String.eqb_eq in Heq as [= -> ->].
    by destruct (before_last_dot rest).
  - destruct (IH Htail) as [head ->]. done.
Qed.

(** X3. Whatever name it is given, [save_to_excel] writes to a name that
    ends in [.xlsx]; a name that already does is kept, and normalising a
    normalised name changes nothing.  A name with no dot gets the
    extension appended. *)
Theorem excel_filename_xlsx (today : string) (filename start_date end_date : option string) :
  endswith (excel_filename today filename start_date end_date) ".xlsx" = true
  ∧ excel_filename today
      (Some (excel_filename today filename start_date end_date))
      start_date end_date
    = excel_filename today filename start_date end_date
  ∧ (∀ f, filename = Some f → endswith f ".xlsx" = true →
          excel_filename today filename start_date end_date = f)
  ∧ (∀ f, filename = Some f → before_last_dot f = None →
          excel_filename today filename start_date end_date = f +:+ ".xlsx").
Proof.
  assert (Hends : endswith (excel_filename today filename start_date end_date)
                    ".xlsx" = true).
  { unfold excel_filename. destruct filename as [f|].
    - destruct (endswith f ".xlsx") eqn:Hf; cbn [negb]; [done|].
      apply endswith_app.
    - unfold _generate_filename.
      destruct (_ && _); [|destruct (str_truthy start_date)].
      + do 4 apply endswith_app_r. reflexivity.
      + do 2 apply endswith_app_r. reflexivity.
      + do 2 apply endswith_app_r. reflexivity. }
  split; [done|]. split; [|split].
  - unfold excel_filename at 1. by rewrite Hends.
  - intros f -> Hf. unfold excel_filename. by rewrite Hf.
  - intros f -> Hdot. unfold excel_filename, rsplit_dot_head. rewrite Hdot.
    destruct (endswith f ".xlsx") eqn:Hf; [|done].
    apply endswith_dot in Hf as [head Hhead]. congruence.
Qed.

(** ** The save pipeline *)

Section SavePipeline.

Variable server : gmap string value -> http_result.
Variable to_numeric : value -> option Q.
Variable path_join : string -> string -> string.
Variable output_dir : string.
Variable can_write : string -> bool.

Local Abbreviation crawl_and_save :=
  (crawl_and_save server to_numeric path_join output_dir can_write).
Local Abbreviation local_filter := (local_filter).

(** The table an event hands to a writer or to the sync. *)
Definition saved_table (e : output_event) : option DataFrame :=
  match e with
  | ToCsv _ df | ToExcel _ df | SyncToFeishu df _ _ => Some df
  | _ => None
  end.

(** The paths written, in order. *)
Definition written_paths (ev : list output_event) : list (bool * string) :=
  omap (λ e, match e with
             | ToCsv p _ => Some (false, p)
             | ToExcel p _ => Some (true, p)
             | _ => None
             end) ev.

Lemma local_filter_rows (category : option string) (df : DataFrame) :
  columns (local_filter category df).1 = columns df
  ∧ rows (local_filter category df).1 =
      if str_truthy category then
        filter (λ row, cell_is (default "" category) (row !! "一级分类") = true)
          (rows df)
      else rows df.
Proof.
  unfold CrawlerOutput.local_filter.
  destruct (str_truthy category); [|done]. cbn [andb].
  unfold df_empty.
  destruct (rows df) eqn:Hrows; cbn [negb fst filter_category columns rows];
    by rewrite ?Hrows.
Qed.

Lemma local_filter_events (category : option string) (df : DataFrame) :
  Forall (λ e, saved_table e = None) (local_filter category df).2.
Proof.
  unfold CrawlerOutput.local_filter.
  destruct (_ && _); [|constructor]. cbn [snd].
  destruct (_ <? _)%nat; repeat constructor.
Qed.

Lemma save_to_csv_events today df filename start_date end_date :
  Forall (λ e, ∀ df', saved_table e = Some df' → df' = df)
    (save_to_csv path_join output_dir can_write today df filename
       start_date end_date).2.
Proof.
  unfold save_to_csv. destruct (can_write _); repeat constructor; cbn;
    by intros df' [= <-].
Qed.

Lemma save_to_excel_events today df filename start_date end_date :
  Forall (λ e, ∀ df', saved_table e = Some df' → df' = df)
    (save_to_excel path_join output_dir can_write today df filename
       start_date end_date).2.
Proof.
  unfold save_to_excel. destruct (can_write _); repeat constructor; cbn;
    by intros df' [= <-].
Qed.

(** X4. Every table [crawl_and_save] writes or hands to the sync is the
    same one: the list of parsed rows in fetch order when no category is
    asked for, and otherwise that list filtered to the rows whose primary
    category is that string (compared case-sensitively), each matching row
    kept once per occurrence and in its place. *)
Theorem crawl_and_save_filters_category (fuel : nat)
    (today_csv today_xlsx : string)
    (category start_date end_date filename : option string)
    (output_format : string) (sync_to_feishu : bool)
    (raw_data : list RawRecord) (log : list event) :
  fetch_all_data server category None start_date end_date 100 None (1 # 2) fuel
    = Some (raw_data, log) →
  ∃ df,
    Forall (λ e, ∀ df', saved_table e = Some df' → df' = df)
      (crawl_and_save fuel today_csv today_xlsx category start_date end_date
         filename output_format sync_to_feishu).2
    ∧ columns df = COLUMNS
    ∧ rows df =
        (if str_truthy category then
           filter (λ row, cell_is (default "" category) (row !! "一级分类")
                          = true)
             (rows (parse_data to_numeric raw_data))
         else rows (parse_data to_numeric raw_data))
    ∧ (∀ c x, cell_is c x = true ↔ x = Some (Obj (VStr c)))
    ∧ rows df `sublist_of` rows (parse_data to_numeric raw_data)
    ∧ (str_truthy category = false →
       rows df = rows (parse_data to_numeric raw_data))
    ∧ (∀ c, category = Some c → c ≠ "" →
         ∀ row, row ∈ rows df ↔
                row ∈ rows (parse_data to_numeric raw_data)
                ∧ row !! "一级分类" = Some (Obj (VStr c))).
Proof.
  intros Hfetch.
  set (parsed := parse_data to_numeric raw_data).
  exists (local_filter category parsed).1.
  destruct (local_filter_rows category parsed) as [Hcols Hrows].
  split; [|split; [|split; [|split; [|split; [|split]]]]].
  - unfold CrawlerOutput.crawl_and_save. rewrite Hfetch. fold parsed.
    pose proof (local_filter_events category parsed) as Hev.
    destruct (local_filter category parsed) as [df ev_filter]. cbn [fst snd] in *.
    assert (Hlog : Forall (λ e, ∀ df', saved_table e = Some df' → df' = df)
                     (Fetch <$> log)).
    { apply Forall_fmap, Forall_true. by intros e df'. }
    assert (Hfil : Forall (λ e, ∀ df', saved_table e = Some df' → df' = df)
                     ev_filter).
    { eapply Forall_impl; [exact Hev|]. cbn. by intros e -> df'. }
    pose proof (save_to_csv_events today_csv df filename start_date end_date)
      as Hcsv.
    pose proof (save_to_excel_events today_xlsx df filename start_date end_date)
      as Hxlsx.
    destruct (save_to_csv _ _ _ _ _ _ _ _) as [[csv_path|] ev_csv];
      destruct (save_to_excel _ _ _ _ _ _ _ _) as [[xlsx_path|] ev_xlsx];
      cbn [snd] in Hcsv, Hxlsx;
      destruct (String.eqb output_format "csv"
                || String.eqb output_format "both"),
        (String.eqb output_format "xlsx" || String.eqb output_format "both");
      cbn [fst snd from_option mbind option_bind]; try done;
      repeat (apply Forall_app; split); try done;
      destruct sync_to_feishu; repeat constructor; cbn;
      by intros df' [= <-].
  - rewrite Hcols. unfold parsed.
    by destruct (CrawlerProofs.parse_data_rows to_numeric raw_data) as [_ ->].
  - exact Hrows.
  - intros c x. unfold cell_is. split.
    + destruct x as [[[]|]|]; try done. by intros ->%String.eqb_eq.
    + intros ->. apply String.eqb_refl.
  - rewrite Hrows. destruct (str_truthy category); [apply sublist_filter|done].
  - intros Hc. by rewrite Hrows, Hc.
  - intros c -> Hne row. rewrite Hrows.
    assert (str_truthy (Some c) = true) as ->.
    { cbn. by destruct c. }
    rewrite list_elem_of_filter. cbn [default].
    split; intros [H1 H2].
    + split; [done|]. unfold cell_is in H1.
      destruct (row !! "一级分类") as [[[]|]|]; try done.
      by apply String.eqb_eq in H1 as ->.
    + split; [|done]. rewrite H2. cbn. apply String.eqb_refl.
Qed.

Lemma written_paths_app (l1 l2 : list output_event) :
  written_paths (l1 ++ l2) = written_paths l1 ++ written_paths l2.
Proof. apply omap_app. Qed.

Lemma written_paths_fetch (log : list event) :
  written_paths (Fetch <$> log) = [].
Proof. induction log as [|e log IH]; [done|]. by cbn. Qed.

Lemma written_paths_filter (category : option string) (df : DataFrame) :
  written_paths (local_filter category df).2 = [].
Proof.
  unfold CrawlerOutput.local_filter.
  destruct (_ && _); [|done]. cbn [snd]. by destruct (_ <? _)%nat.
Qed.

(** What a run writes and returns when every write succeeds. *)
Lemma crawl_and_save_writes (fuel : nat) (today_csv today_xlsx : string)
    (category start_date end_date filename : option string)
    (output_format : string) (sync_to_feishu : bool)
    (raw_data : list RawRecord) (log : list event) :
  fetch_all_data server category None start_date end_date 100 None (1 # 2) fuel
    = Some (raw_data, log) →
  (∀ p, can_write p = true) →
  let csv_path :=
    path_join output_dir
      (csv_filename today_csv filename start_date end_date) in
  let xlsx_path :=
    path_join output_dir
      (excel_filename today_xlsx filename start_date end_date) in
  let csv :=
    String.eqb output_format "csv" || String.eqb output_format "both" in
  let xlsx :=
    String.eqb output_format "xlsx" || String.eqb output_format "both" in
  let run :=
    crawl_and_save fuel today_csv today_xlsx category start_date end_date
      filename output_format sync_to_feishu in
  run.1 = Returned (if csv then Some csv_path
                    else if xlsx then Some xlsx_path else None)
  ∧ written_paths run.2 =
      (if csv then [(false, csv_path)] else [])
      ++ (if xlsx then [(true, xlsx_path)] else []).
Proof.
  intros Hfetch Hwrite csv_path xlsx_path csv xlsx run.
  subst run. unfold CrawlerOutput.crawl_and_save. rewrite Hfetch.
  pose proof (written_paths_filter category (parse_data to_numeric raw_data))
    as Hfilter.
  destruct (local_filter category (parse_data to_numeric raw_data))
    as [df ev_filter]. cbn [snd] in Hfilter.
  unfold save_to_csv, save_to_excel. rewrite !Hwrite.
  fold csv_path xlsx_path csv xlsx.
  destruct csv, xlsx; cbn [fst snd from_option mbind option_bind];
    (split; [done|]);
    rewrite !written_paths_app, written_paths_fetch, Hfilter;
    by destruct sync_to_feishu.
Qed.

(** X5. With every write succeeding, the output format alone decides what
    is written and returned: "csv" writes the CSV and returns its path,
    "xlsx" the Excel file and its path, "both" the CSV then the Excel file
    and returns the CSV path; with any other format nothing is written and
    the result is none. *)
Theorem crawl_and_save_formats (fuel : nat) (today_csv today_xlsx : string)
    (category start_date end_date filename : option string)
    (output_format : string) (sync_to_feishu : bool)
    (raw_data : list RawRecord) (log : list event) :
  fetch_all_data server category None start_date end_date 100 None (1 # 2) fuel
    = Some (raw_data, log) →
  (∀ p, can_write p = true) →
  let csv_path :=
    path_join output_dir
      (csv_filename today_csv filename start_date end_date) in
  let xlsx_path :=
    path_join output_dir
      (excel_filename today_xlsx filename start_date end_date) in
  let run :=
    crawl_and_save fuel today_csv today_xlsx category start_date end_date
      filename output_format sync_to_feishu in
  (output_format = "csv" →
   run.1 = Returned (Some csv_path)
   ∧ written_paths run.2 = [(false, csv_path)])
  ∧ (output_format = "xlsx" →
     run.1 = Returned (Some xlsx_path)
     ∧ written_paths run.2 = [(true, xlsx_path)])
  ∧ (output_format = "both" →
     run.1 = Returned (Some csv_path)
     ∧ written_paths run.2 = [(false, csv_path); (true, xlsx_path)])
  ∧ (output_format ≠ "csv" → output_format ≠ "xlsx" →
     output_format ≠ "both" →
     run.1 = Returned None ∧ written_paths run.2 = []).
Proof.
  intros Hfetch Hwrite csv_path xlsx_path run.
  pose proof (crawl_and_save_writes fuel today_csv today_xlsx category
                start_date end_date filename output_format sync_to_feishu
                raw_data log Hfetch Hwrite) as Hrun.
  cbv zeta in Hrun. fold csv_path xlsx_path run in Hrun.
  split; [|split; [|split]].
  - intros Hfmt. by rewrite Hfmt in Hrun.
  - intros Hfmt. by rewrite Hfmt in Hrun.
  - intros Hfmt. by rewrite Hfmt in Hrun.
  - intros H1 H2 H3. apply String.eqb_neq in H1, H2, H3.
    by rewrite H1, H2, H3 in Hrun.
Qed.

(** X6. [save_to_csv] takes a custom file name as it is.  With the format
    "both" and a custom name ending in [.xlsx], the CSV and the Excel file
    are written to one and the same path, the Excel file last. *)
Theorem crawl_and_save_both_same_path (fuel : nat)
    (today_csv today_xlsx : string)
    (category start_date end_date : option string) (f : string)
    (sync_to_feishu : bool) (raw_data : list RawRecord) (log : list event) :
  fetch_all_data server category None start_date end_date 100 None (1 # 2) fuel
    = Some (raw_data, log) →
  (∀ p, can_write p = true) →
  endswith f ".xlsx" = true →
  written_paths
    (crawl_and_save fuel today_csv today_xlsx category start_date end_date
       (Some f) "both" sync_to_feishu).2
  = [(false, path_join output_dir f); (true, path_join output_dir f)].
Proof.
  intros Hfetch Hwrite Hf.
  destruct (crawl_and_save_writes fuel today_csv today_xlsx category
              start_date end_date (Some f) "both" sync_to_feishu raw_data log
              Hfetch Hwrite) as [_ ->].
  unfold csv_filename, excel_filename. by rewrite Hf.
Qed.

End SavePipeline.

(** ** The bounds and the pipeline on sample services *)

Lemma fetch_all_data_without_total_witness :
  ∃ log,
    fetch_all_data MoreSamples.untotalled_server None None None None 100 None
      (1 # 2) 1
      = Some ([Samples.record "a"; Samples.record "b"], log)
    ∧ requested_pages log = [VInt 1].
Proof.
  apply (fetch_all_data_without_total MoreSamples.untotalled_server
           None None None None 100 (1 # 2) None 0).
  - vm_compute. discriminate.
  - reflexivity.
Defined.

(** The run of [fetch_all_data] inside [crawl_and_save] on the sample
    market, asked for vegetables. *)
Definition market_run : list RawRecord * list event :=
  default ([], [])
    (fetch_all_data MoreSamples.market_server (Some "蔬菜") None None None
       100 None (1 # 2) 2).

Lemma market_run_eq :
  fetch_all_data MoreSamples.market_server (Some "蔬菜") None None None
    100 None (1 # 2) 2 = Some (market_run.1, market_run.2).
Proof. vm_compute. reflexivity. Qed.

Lemma crawl_and_save_filters_category_witness :
  ∃ df,
    Forall (λ e, ∀ df', saved_table e = Some df' → df' = df)
      (crawl_and_save MoreSamples.market_server pd_to_numeric
         MoreSamples.join "./data" (λ _, true) 2 "2024-01-01" "2024-01-01"
         (Some "蔬菜") None None None "both" true).2
    ∧ ∀ row, row ∈ rows df ↔
             row ∈ rows (parse_data pd_to_numeric market_run.1)
             ∧ row !! "一级分类" = Some (Obj (VStr "蔬菜")).
Proof.
  destruct (crawl_and_save_filters_category MoreSamples.market_server
              pd_to_numeric MoreSamples.join "./data" (λ _, true) 2
              "2024-01-01" "2024-01-01" (Some "蔬菜") None None None "both"
              true market_run.1 market_run.2 market_run_eq)
    as (df & Hsaved & _ & _ & _ & _ & _ & Hrows).
  exists df. split; [exact Hsaved|].
  apply (Hrows "蔬菜"); [reflexivity|discriminate].
Defined.

Lemma crawl_and_save_formats_witness :
  written_paths
    (crawl_and_save MoreSamples.market_server pd_to_numeric
       MoreSamples.join "./data" (λ _, true) 2 "2024-01-01" "2024-01-01"
       (Some "蔬菜") None None None "both" false).2
  = [(false, "./data/xinfadi_price_2024-01-01.csv");
     (true, "./data/xinfadi_price_2024-01-01.xlsx")].
Proof.
  refine (proj2 (proj1 (proj2 (proj2
            (crawl_and_save_formats MoreSamples.market_server
               pd_to_numeric MoreSamples.join "./data" (λ _, true) 2
               "2024-01-01" "2024-01-01" (Some "蔬菜") None None None "both"
               false market_run.1 market_run.2 market_run_eq _))) _)).
  - reflexivity.
  - reflexivity.
Defined.

Lemma crawl_and_save_both_same_path_witness :
  written_paths
    (crawl_and_save MoreSamples.market_server pd_to_numeric
       MoreSamples.join "./data" (λ _, true) 2 "2024-01-01" "2024-01-01"
       (Some "蔬菜") None None (Some "prices.xlsx") "both" false).2
  = [(false, "./data/prices.xlsx"); (true, "./data/prices.xlsx")].
Proof.
  apply (crawl_and_save_both_same_path MoreSamples.market_server
           pd_to_numeric MoreSamples.join "./data" (λ _, true) 2
           "2024-01-01" "2024-01-01" (Some "蔬菜") None None "prices.xlsx"
           false market_run.1 market_run.2 market_run_eq).
  - reflexivity.
  - reflexivity.
Defined.

Lemma excel_filename_xlsx_witness :
  excel_filename "2024-01-01" (Some "prices") None None = "prices.xlsx".
Proof.
  apply (proj2 (proj2 (proj2
           (excel_filename_xlsx "2024-01-01" (Some "prices") None None)))
           "prices"); reflexivity.
Defined.

End CrawlerExtras.

(** * More on the sync client *)

Module SyncExtras.
Import FeishuSync FeishuSetup SyncProofs.

(** ** Chunked writes in general *)

(** The rows a chunk write carries. *)
Definition written_rows (payload : value) : list (list value) :=
  match payload with
  | VDict d =>
      match d !! "valueRange" with
      | Some (VDict value_range) =>
          match value_range !! "values" with
          | Some (VList rows) =>
              omap (λ v, match v with VList r => Some r | _ => None end) rows
          | _ => []
          end
      | _ => []
      end
  | _ => []
  end.

Lemma written_rows_request_data (range_str : string)
    (batch_data : list (list value)) :
  written_rows (request_data range_str batch_data) = batch_data.
Proof.
  unfold written_rows, request_data. rewrite lookup_singleton_eq.
  rewrite lookup_insert_ne by done. rewrite lookup_insert_eq.
  induction batch_data as [|r l IH]; [done|]. cbn. by rewrite IH.
Qed.

(** The rows of chunk [j] for chunk size [batch_size]. *)
Definition chunk (data : list (list value)) (batch_size j : Z)
    : list (list value) :=
  py_slice data (j * batch_size)
    (Z.min ((j + 1) * batch_size) (Z.of_nat (length data))).

Lemma chunk_take_drop (data : list (list value)) (batch_size j : Z) :
  0 < batch_size → 0 ≤ j →
  let n := Z.of_nat (length data) in
  chunk data batch_size j =
    take (Z.to_nat (Z.min ((j + 1) * batch_size) n)
          - Z.to_nat (Z.min (j * batch_size) n))
      (drop (Z.to_nat (Z.min (j * batch_size) n)) data).
Proof.
  intros Hbs Hj n. unfold chunk, py_slice, slice_index. fold n.
  destruct (Z.ltb_spec (j * batch_size) 0); [nia|].
  destruct (Z.ltb_spec (Z.min ((j + 1) * batch_size) n) 0); [lia|].
  f_equal. lia.
Qed.

(** The first [k] chunks are the first [k * batch_size] rows. *)
Lemma chunks_prefix (data : list (list value)) (batch_size : Z) (k : nat) :
  0 < batch_size →
  concat (chunk data batch_size <$> (Z.of_nat <$> seq 0 k))
  = take (Z.to_nat (Z.min (Z.of_nat k * batch_size)
                      (Z.of_nat (length data)))) data.
Proof.
  intros Hbs. induction k as [|k IH].
  { change (Z.of_nat 0 * batch_size) with 0. by rewrite Z.min_l by lia. }
  rewrite seq_S, !fmap_app, concat_app, IH. cbn [fmap list_fmap concat Nat.add].
  rewrite app_nil_r, chunk_take_drop by lia. cbv zeta.
  rewrite take_take_drop. f_equal. nia.
Qed.

Lemma chunks_cover (data : list (list value)) (batch_size : Z) :
  0 < batch_size →
  concat (chunk data batch_size
            <$> range ((Z.of_nat (length data) + batch_size - 1)
                       `div` batch_size))
  = data.
Proof.
  intros Hbs. unfold range. rewrite chunks_prefix by done.
  set (n := Z.of_nat (length data)).
  set (q := (n + batch_size - 1) `div` batch_size).
  assert (0 ≤ q) by (apply Z.div_pos; lia).
  assert (n ≤ q * batch_size).
  { pose proof (Z.div_mod (n + batch_size - 1) batch_size ltac:(lia)).
    pose proof (Z.mod_pos_bound (n + batch_size - 1) batch_size Hbs).
    fold q in H0. nia. }
  rewrite Z2Nat.id by done. rewrite Z.min_r by done.
  apply take_ge. lia.
Qed.

Lemma chunk_length (data : list (list value)) (batch_size j : Z) :
  0 < batch_size → 0 ≤ j →
  Z.of_nat (length (chunk data batch_size j)) ≤ batch_size.
Proof.
  intros Hbs Hj. rewrite chunk_take_drop by done. cbv zeta.
  rewrite length_take, length_drop. nia.
Qed.

(** A text of ASCII characters only.  On such a start cell Python's
    [upper], [\d] and [int] do what [start_row_of] does; outside ASCII
    they follow the Unicode tables. *)
Definition is_ascii (s : string) : bool :=
  forallb (λ c, ord c <? 128) (list_ascii_of_string s).

Section Writes.

Variable remote : nat -> request -> option value.
Variable clock : nat -> instant.

(** X7. When every write is accepted, [write_data] sends each row of the
    grid exactly once and in order, whatever the grid, the ASCII start
    cell and the positive chunk size: the chunks, concatenated in the order sent,
    are the grid; there are ceil(rows / chunk size) of them, none larger
    than the chunk size; chunk [j] goes to the rows
    [start_row + j * size .. start_row + min((j+1) * size, rows) - 1] of
    column A to the last column. *)
Theorem write_data_writes_every_row (data : list (list value))
    (sheet_id start_cell token : string) (batch_size : Z) (w : World) :
  data ≠ [] →
  token ≠ "" →
  is_ascii start_cell = true →
  0 < batch_size →
  accepts_writes remote →
  let batches := (Z.of_nat (length data) + batch_size - 1) `div` batch_size in
  let end_col := col_to_letter (Z.of_nat (max_list (length <$> data))) in
  ∃ w' new,
    write_data remote clock data sheet_id start_cell (Some token) batch_size w
      = (Ok true, w')
    ∧ sent w' = sent w ++ new
    ∧ concat (written_rows <$> (req_payload <$> chunk_writes new)) = data
    ∧ Z.of_nat (length (chunk_writes new)) = batches
    ∧ Forall (λ r, Z.of_nat (length (written_rows (req_payload r)))
                   ≤ batch_size) (chunk_writes new)
    ∧ req_payload <$> chunk_writes new =
        planned_write data sheet_id end_col (start_row_of start_cell)
          batch_size <$> range batches.
Proof.
  intros Hdata Htoken _ Hbs Hacc batches end_col.
  unfold write_data.
  assert (str_truthy (Some token) = true) as ->.
  { cbn. by destruct token. }
  rewrite (match_nonempty data) by done. cbv zeta.
  destruct (Z.eqb_spec batch_size 0); [lia|].
  fold batches end_col.
  destruct (write_batches_accepted remote clock data sheet_id end_col
              (BASE_URL +:+ "/sheets/v2/spreadsheets/" +:+ token +:+ "/values")
              (start_row_of start_cell) batch_size (range batches) Hacc w)
    as (w' & new & Hrun & Hs & Hpay & _).
  exists w', new. split; [exact Hrun|]. split; [done|].
  assert (Hrows : written_rows <$> (req_payload <$> chunk_writes new)
                  = chunk data batch_size <$> range batches).
  { rewrite Hpay, <- list_fmap_compose. apply list_fmap_ext.
    intros i j _. unfold compose, planned_write. cbv zeta.
    by rewrite written_rows_request_data. }
  assert (Hbatches : 0 ≤ batches) by (apply Z.div_pos; lia).
  split; [rewrite Hrows; by apply chunks_cover|].
  split; [|split; [|done]].
  - apply (f_equal length) in Hpay. rewrite !length_fmap in Hpay.
    rewrite Hpay. unfold range. rewrite length_fmap, length_seq. lia.
  - assert (Hall : Forall (λ rows, Z.of_nat (length rows) ≤ batch_size)
                     (written_rows <$> (req_payload <$> chunk_writes new))).
    { rewrite Hrows. apply Forall_fmap, Forall_forall. intros j Hj. cbn.
      apply chunk_length; [done|].
      unfold range in Hj. apply list_elem_of_fmap in Hj as (i & -> & _). lia. }
    rewrite !Forall_fmap in Hall. exact Hall.
Qed.

(** Whether an answer to a write counts as success. *)
Definition accepted (answer : option value) : bool :=
  match answer with
  | Some (VDict d) => eq_zero (dict_get_none d "code")
  | _ => false
  end.

(** One pass of the loop of [write_data], given the headers obtained. *)
Lemma write_batches_step (data : list (list value))
    (sheet_id end_col url : string) (start_row batch_size batch_idx : Z)
    (idxs : list Z) (w : World) :
  ∃ headers w1 posts,
    _get_headers remote clock w = (Ok headers, w1)
    ∧ sent w1 = sent w ++ posts
    ∧ Forall is_post posts
    ∧ ∃ r,
        req_method r = PUT ∧ req_url r = url
        ∧ req_payload r =
            planned_write data sheet_id end_col start_row batch_size batch_idx
        ∧ write_batches remote clock (batch_idx :: idxs) data sheet_id end_col
            url start_row batch_size w
          = if accepted (remote (length (sent w1)) r) then
              write_batches remote clock idxs data sheet_id end_col url
                start_row batch_size (with_sent r w1)
            else (Ok false, with_sent r w1).
Proof.
  destruct (tt_get_headers remote clock false w) as (posts & Hs & Hp & Hr).
  destruct (_get_headers remote clock w) as [[headers|e|] w1] eqn:Hh;
    cbn in Hs, Hr; [|done..].
  exists headers, w1, posts. split; [done|]. split; [done|]. split; [done|].
  set (total_rows := Z.of_nat (length data)).
  set (batch_end := Z.min ((batch_idx + 1) * batch_size) total_rows).
  exists (write_request url headers
            (sheet_id +:+ "!A" +:+ pretty (start_row + batch_idx * batch_size)
             +:+ ":" +:+ end_col +:+ pretty (start_row + batch_end - 1))
            (py_slice data (batch_idx * batch_size) batch_end)).
  split; [done|]. split; [done|]. split; [done|].
  cbn [write_batches]. cbv zeta. fold total_rows batch_end.
  unfold bind at 1, try_except, bind at 1. rewrite Hh.
  unfold bind at 1, http.
  match goal with |- context [remote _ ?r] => set (req := r) end.
  unfold accepted.
  destruct (remote (length (sent w1)) req) as [v|]; [|reflexivity].
  destruct v; cbn [as_dict bind raise ret]; try reflexivity.
  by destruct (eq_zero _).
Qed.

Lemma chunk_writes_step (posts new : list request) (r : request) :
  Forall is_post posts → req_method r = PUT →
  chunk_writes (posts ++ r :: new) = r :: chunk_writes new.
Proof.
  intros Hp Hr. unfold chunk_writes. rewrite filter_app.
  fold (chunk_writes posts). rewrite (chunk_writes_posts posts Hp).
  by rewrite filter_cons_True.
Qed.

Lemma write_batches_rejected (data : list (list value))
    (sheet_id end_col url : string) (start_row batch_size k : Z)
    (post : list Z) (pre : list Z) :
  let planned := planned_write data sheet_id end_col start_row batch_size in
  (∀ n r, req_method r = PUT → req_payload r ∈ planned <$> pre →
          accepted (remote n r) = true) →
  (∀ n r, req_method r = PUT → req_payload r = planned k →
          accepted (remote n r) = false) →
  ∀ w, ∃ w' new,
    write_batches remote clock (pre ++ k :: post) data sheet_id end_col url
      start_row batch_size w = (Ok false, w')
    ∧ sent w' = sent w ++ new
    ∧ req_payload <$> chunk_writes new = planned <$> (pre ++ [k])
    ∧ Forall (λ r, req_method r = POST ∨ req_method r = PUT) new.
Proof.
  intros planned. induction pre as [|j pre IH]; intros Hacc Hrej w.
  - destruct (write_batches_step data sheet_id end_col url start_row
                batch_size k post w)
      as (h & w1 & posts & _ & Hs & Hp & r & Hput & _ & Hpay & Hrun).
    rewrite (Hrej _ r Hput Hpay) in Hrun.
    exists (with_sent r w1), (posts ++ [r]).
    split; [exact Hrun|]. split; [cbn; by rewrite Hs, app_assoc|].
    split; [by rewrite chunk_writes_step, fmap_cons, Hpay|].
    apply Forall_app. split; [|by repeat constructor].
    eapply Forall_impl; [exact Hp|]. by left.
  - destruct (write_batches_step data sheet_id end_col url start_row
                batch_size j (pre ++ k :: post) w)
      as (h & w1 & posts & _ & Hs & Hp & r & Hput & _ & Hpay & Hrun).
    rewrite (Hacc _ r Hput) in Hrun
      by (rewrite Hpay; cbn; apply list_elem_of_here).
    destruct (IH) with (w := with_sent r w1)
      as (w' & new & Hrun' & Hs' & Hpay' & Hm); [|done|].
    { intros n r' Hr' Hin. apply Hacc; [done|]. cbn. by apply list_elem_of_further. }
    exists w', (posts ++ r :: new).
    split; [cbn [app]; by rewrite Hrun|].
    split; [rewrite Hs'; cbn [sent with_sent]; by rewrite Hs, <- !app_assoc|].
    split; [rewrite chunk_writes_step by done; cbn; by rewrite Hpay, Hpay'|].
    apply Forall_app. split; [eapply Forall_impl; [exact Hp|]; by left|].
    constructor; [by right|done].
Qed.

Lemma range_split (k b : Z) :
  0 ≤ k < b → ∃ rest, range b = range k ++ k :: rest.
Proof.
  intros Hk. unfold range.
  replace (Z.to_nat b) with (Z.to_nat k + S (Z.to_nat b - S (Z.to_nat k)))%nat
    by lia.
  rewrite seq_app, fmap_app. cbn [seq fmap list_fmap Nat.add].
  rewrite Z2Nat.id by lia. by eexists.
Qed.

(** X8. With an ASCII start cell, [write_data] stops at the first chunk
    that is not accepted (a failed request, an answer that is no object,
    or a non-zero code): the
    chunks before it have been written and stay written, the rejected one
    was sent once, no later chunk is sent, nothing is undone, and the
    result is false. *)
Theorem write_data_stops_at_rejection (data : list (list value))
    (sheet_id start_cell token : string) (batch_size k : Z) (w : World) :
  data ≠ [] →
  token ≠ "" →
  is_ascii start_cell = true →
  0 < batch_size →
  let batches := (Z.of_nat (length data) + batch_size - 1) `div` batch_size in
  let end_col := col_to_letter (Z.of_nat (max_list (length <$> data))) in
  let planned :=
    planned_write data sheet_id end_col (start_row_of start_cell) batch_size in
  0 ≤ k < batches →
  (∀ n r j, req_method r = PUT → 0 ≤ j < k → req_payload r = planned j →
            accepted (remote n r) = true) →
  (∀ n r, req_method r = PUT → req_payload r = planned k →
          accepted (remote n r) = false) →
  ∃ w' new,
    write_data remote clock data sheet_id start_cell (Some token) batch_size w
      = (Ok false, w')
    ∧ sent w' = sent w ++ new
    ∧ req_payload <$> chunk_writes new = planned <$> range (k + 1)
    ∧ Forall (λ r, req_method r = POST ∨ req_method r = PUT) new.
Proof.
  intros Hdata Htoken _ Hbs batches end_col planned Hk Hacc Hrej.
  unfold write_data.
  assert (str_truthy (Some token) = true) as ->.
  { cbn. by destruct token. }
  rewrite (match_nonempty data) by done. cbv zeta.
  destruct (Z.eqb_spec batch_size 0); [lia|].
  fold batches end_col.
  destruct (range_split k batches Hk) as [rest ->].
  destruct (write_batches_rejected data sheet_id end_col
              (BASE_URL +:+ "/sheets/v2/spreadsheets/" +:+ token +:+ "/values")
              (start_row_of start_cell) batch_size k rest (range k))
    with (w := w) as (w' & new & Hrun & Hs & Hpay & Hm).
  - intros m r Hr (j & Hj & Hin)%list_elem_of_fmap.
    apply (Hacc m r j Hr); [|done].
    unfold range in Hin. apply list_elem_of_fmap in Hin as (i & -> & Hi).
    apply elem_of_seq in Hi. lia.
  - done.
  - exists w', new. split; [exact Hrun|]. split; [done|]. split; [|done].
    rewrite Hpay. f_equal. unfold range.
    replace (Z.to_nat (k + 1)) with (S (Z.to_nat k)) by lia.
    rewrite seq_S, fmap_app. cbn. by rewrite Z2Nat.id by lia.
Qed.

(** X9. The edge cases of [write_data], none of which sends a request.
    With no spreadsheet token, or an empty one, the call raises
    AttributeError (the attribute it falls back on is never set), so the
    "no token" message is never reached; an empty grid is a success; a
    chunk size of zero raises ZeroDivisionError. *)
Theorem write_data_edge_cases (data : list (list value))
    (sheet_id start_cell token : string) (batch_size : Z) (w : World) :
  write_data remote clock data sheet_id start_cell None batch_size w
    = (Raise AttributeError, w)
  ∧ write_data remote clock data sheet_id start_cell (Some "") batch_size w
    = (Raise AttributeError, w)
  ∧ (token ≠ "" →
     write_data remote clock [] sheet_id start_cell (Some token) batch_size w
       = (Ok true, w)
     ∧ (data ≠ [] →
        write_data remote clock data sheet_id start_cell (Some token) 0 w
          = (Raise ZeroDivisionError, w))).
Proof.
  split; [done|]. split; [done|]. intros Htoken.
  unfold write_data.
  assert (str_truthy (Some token) = true) as ->.
  { cbn. by destruct token. }
  split; [done|]. intros Hdata. by rewrite (match_nonempty data).
Qed.

End Writes.

(** ** Tokens and the config file *)

Section Tokens.

Variable remote : nat -> request -> option value.
Variable clock : nat -> instant.

Definition token_keys : list string :=
  ["user_access_token"; "refresh_token"; "token_expires_at"; "updated_at"].

(** X10. [_save_config] never raises and touches neither the client nor
    the session.  When the file cannot be loaded or cannot be written it
    is left as it was; otherwise the new file holds the three token
    fields of the client and the time of writing, and every other key of
    the old file (credentials, folder, mode flag) unchanged. *)
Theorem save_config_keeps_other_keys (w : World) :
  ∃ w',
    _save_config clock w = (Ok tt, w')
    ∧ self w' = self w
    ∧ sent w' = sent w
    ∧ (file w = Unreadable ∨ file_writable w = false → file w' = file w)
    ∧ (file w ≠ Unreadable → file_writable w = true →
       ∃ cfg',
         file w' = Config cfg'
         ∧ cfg' !! "user_access_token" = Some (user_access_token (self w))
         ∧ cfg' !! "refresh_token" = Some (refresh_token (self w))
         ∧ cfg' !! "token_expires_at"
           = Some (VFloat (token_expires_at (self w)))
         ∧ cfg' !! "updated_at"
           = Some (VStr (isoformat (clock (ticks w))))
         ∧ ∀ k, k ∉ token_keys →
                cfg' !! k = match file w with
                            | Config cfg => cfg !! k
                            | _ => None
                            end).
Proof.
  unfold _save_config, try_except.
  destruct (file w) as [| |cfg] eqn:Hf;
    destruct (file_writable w) eqn:Hw; cbn [tick file_writable];
    rewrite ?Hw; eexists; (split; [reflexivity|]);
    (split; [done|]); (split; [done|]); cbn [file with_file tick ret snd];
    (split; [intros [?|?]; done || by rewrite Hf|]);
    intros Hnot Hwr; try done;
    eexists; (split; [reflexivity|]); cbn [self];
    repeat (split; [by simplify_map_eq|]);
    intros k Hk; unfold token_keys in Hk;
    rewrite !lookup_insert_ne by set_solver; done.
Qed.

(** The answer is a JSON number. *)
Definition is_number (v : value) : bool :=
  match v with
  | VInt _ | VFloat _ | VBool _ => true
  | _ => false
  end.

Lemma add_number_not_number (t : Q) (v : value) (w : World) :
  is_number v = false → add_number t v w = (Raise TypeError, w).
Proof. by destruct v. Qed.

(** X11. [exchange_code_for_token] never raises.  When the first answer
    (the application token) is not a success, it returns false after that
    one request, with the client and the config file untouched. *)
Theorem exchange_code_for_token_first_step_fails (code : string) (w : World) :
  (∃ b w', exchange_code_for_token remote clock code w = (Ok b, w'))
  ∧ (accepted (remote (length (sent w)) (app_token_request (self w))) = false →
     exchange_code_for_token remote clock code w
       = (Ok false, with_sent (app_token_request (self w)) w)).
Proof.
  split.
  - destruct (tt_exchange_code_for_token remote clock false code w)
      as (new & _ & _ & Hr).
    destruct (exchange_code_for_token remote clock code w) as [[b|e|] w'];
      cbn in Hr; [by eauto|done..].
  - intros Hrej. unfold exchange_code_for_token, try_except.
    unfold bind at 1, gets. cbn [id]. unfold bind at 1, http.
    unfold accepted in Hrej.
    destruct (remote _ _) as [[]|]; cbn [as_dict bind raise ret]; try done.
    unfold bind at 1. cbn [ret]. by rewrite Hrej.
Qed.

(** X12. When both answers of the code exchange are successes but
    [expires_in] is not a number, [exchange_code_for_token] returns false
    with the client already holding the new access and refresh tokens
    under the old expiry, and with nothing written to the config file. *)
Theorem exchange_code_for_token_bad_expiry (code : string) (w : World)
    (d1 d2 data : gmap string value) :
  let r1 := app_token_request (self w) in
  let r2 :=
    {| req_method := POST;
       req_url := BASE_URL +:+ "/authen/v1/oidc/access_token";
       req_bearer := Some (dict_get_none d1 "app_access_token");
       req_payload :=
         VDict (<["grant_type" := VStr "authorization_code"]>
                  (<["code" := VStr code]> ∅)) |} in
  remote (length (sent w)) r1 = Some (VDict d1) →
  eq_zero (dict_get_none d1 "code") = true →
  remote (S (length (sent w))) r2 = Some (VDict d2) →
  eq_zero (dict_get_none d2 "code") = true →
  dict_get d2 "data" (VDict ∅) = VDict data →
  is_number (dict_get data "expires_in" (VInt 7200)) = false →
  ∃ w',
    exchange_code_for_token remote clock code w = (Ok false, w')
    ∧ user_access_token (self w') = dict_get_none data "access_token"
    ∧ refresh_token (self w') = dict_get_none data "refresh_token"
    ∧ token_expires_at (self w') = token_expires_at (self w)
    ∧ file w' = file w
    ∧ sent w' = sent w ++ [r1; r2].
Proof.
  intros r1 r2 H1 Hc1 H2 Hc2 Hdata Hnum.
  unfold exchange_code_for_token, try_except.
  unfold bind at 1, gets. cbn [id]. unfold bind at 1, http.
  fold r1. rewrite H1. unfold bind at 1. cbn [as_dict ret].
  rewrite Hc1. cbn [negb]. unfold bind at 1.
  cbn [sent with_sent]. rewrite length_app. cbn [length].
  replace (length (sent w) + 1)%nat with (S (length (sent w))) by lia.
  fold r2. rewrite H2. unfold bind at 1. cbn [as_dict ret].
  rewrite Hc2. unfold bind at 1. rewrite Hdata. cbn [as_dict ret].
  unfold bind at 1, store_user_token.
  unfold bind at 1, modify. unfold bind at 1. unfold bind at 1, now.
  unfold bind at 1. rewrite add_number_not_number by done.
  eexists. split; [reflexivity|]. cbn. by rewrite <- app_assoc.
Qed.

Lemma Qle_bool_false (a b : Q) : (b < a)%Q → Qle_bool a b = false.
Proof.
  intros Hlt. destruct (Qle_bool a b) eqn:Hle; [|done].
  apply Qle_bool_iff in Hle. by apply Qlt_not_le in Hlt.
Qed.

(** What a successful acquisition of the service token leaves behind. *)
Lemma get_tenant_access_token_renewed (w : World) (d : gmap string value)
    (e : Z) :
  truthy (tenant_access_token (self w))
  && negb (Qle_bool (token_expires_at (self w) - 300)
             (timestamp (clock (ticks w)))) = false →
  remote (length (sent w)) (tenant_token_request (self w)) = Some (VDict d) →
  eq_zero (dict_get_none d "code") = true →
  dict_get d "expire" (VInt 7200) = VInt e →
  get_tenant_access_token remote clock w
  = (Ok (dict_get_none d "tenant_access_token"),
     set_self
       (with_token_expires_at (timestamp (clock (ticks w)) + inject_Z e)%Q)
       (set_self
          (with_tenant_access_token (dict_get_none d "tenant_access_token"))
          (with_sent (tenant_token_request (self w)) (tick w)))).
Proof.
  intros Hstale Hanswer Hcode Hexpire. unfold get_tenant_access_token.
  unfold bind at 1, now. unfold bind at 1, gets at 1.
  unfold bind at 1, gets at 1. cbn [self tick]. rewrite Hstale.
  unfold try_except, bind at 1, gets. cbn [id self tick].
  unfold bind at 1, http. cbn [sent tick self]. rewrite Hanswer.
  unfold bind at 1. cbn [as_dict ret]. rewrite Hcode.
  unfold bind at 1, modify. unfold bind at 1. rewrite Hexpire.
  cbn [add_number ret]. unfold bind at 1. reflexivity.
Qed.

(** X13. After the service token has been renewed, the next call of
    [get_tenant_access_token] within the validity the service granted
    (less the margin of 300 s) returns the new token from the cache and
    sends nothing. *)
Theorem tenant_token_reused_after_renewal (w : World)
    (d : gmap string value) (e : Z) :
  truthy (tenant_access_token (self w))
  && negb (Qle_bool (token_expires_at (self w) - 300)
             (timestamp (clock (ticks w)))) = false →
  remote (length (sent w)) (tenant_token_request (self w)) = Some (VDict d) →
  eq_zero (dict_get_none d "code") = true →
  dict_get d "expire" (VInt 7200) = VInt e →
  truthy (dict_get_none d "tenant_access_token") = true →
  (timestamp (clock (S (ticks w)))
   < timestamp (clock (ticks w)) + inject_Z e - 300)%Q →
  ∃ w1,
    get_tenant_access_token remote clock w
      = (Ok (dict_get_none d "tenant_access_token"), w1)
    ∧ sent w1 = sent w ++ [tenant_token_request (self w)]
    ∧ get_tenant_access_token remote clock w1
      = (Ok (dict_get_none d "tenant_access_token"), tick w1).
Proof.
  intros Hstale Hanswer Hcode Hexpire Htok Hsoon.
  eexists. split; [by apply (get_tenant_access_token_renewed w d e)|].
  split; [done|].
  apply (get_tenant_access_token_fresh remote clock); [done|].
  cbn [self set_self with_token_expires_at token_expires_at ticks
       with_sent tick].
  by apply Qle_bool_false.
Qed.

(** X14. The two tokens share one expiry field.  Once a service token has
    been acquired, [get_user_access_token] measures the cached delegated
    token against the expiry of the service token: within that validity
    it returns the delegated token without refreshing it, whatever expiry
    the delegated token had before. *)
Theorem tenant_renewal_lends_expiry_to_user_token (w : World)
    (d : gmap string value) (e : Z) :
  truthy (tenant_access_token (self w))
  && negb (Qle_bool (token_expires_at (self w) - 300)
             (timestamp (clock (ticks w)))) = false →
  remote (length (sent w)) (tenant_token_request (self w)) = Some (VDict d) →
  eq_zero (dict_get_none d "code") = true →
  dict_get d "expire" (VInt 7200) = VInt e →
  truthy (user_access_token (self w)) = true →
  (timestamp (clock (S (ticks w)))
   < timestamp (clock (ticks w)) + inject_Z e - 300)%Q →
  ∃ w1,
    (get_tenant_access_token remote clock w).2 = w1
    ∧ token_expires_at (self w1)
      = (timestamp (clock (ticks w)) + inject_Z e)%Q
    ∧ get_user_access_token remote clock w1
      = (Ok (user_access_token (self w)), tick w1).
Proof.
  intros Hstale Hanswer Hcode Hexpire Htok Hsoon.
  rewrite (get_tenant_access_token_renewed w d e) by done. cbn [snd].
  eexists. split; [reflexivity|]. split; [done|].
  match goal with
  | |- get_user_access_token _ _ ?w1 = _ =>
      apply (get_user_access_token_fresh remote clock w1); [done|]
  end.
  cbn [self set_self with_token_expires_at token_expires_at ticks
       with_sent tick].
  by apply Qle_bool_false.
Qed.

(** The request [list_folder_files] sends. *)
Definition listing_request (folder_token headers : value) : request :=
  {| req_method := GET;
     req_url := BASE_URL +:+ "/drive/v1/files";
     req_bearer := Some headers;
     req_payload :=
       VDict (if truthy folder_token
              then <["folder_token" := folder_token]>
                     (<["page_size" := VInt 100]> ∅)
              else <["page_size" := VInt 100]> ∅) |}.

(** X15. [list_folder_files] never raises.  When the listing is not
    accepted it returns the empty list, and [get_unique_filename] then
    returns the base name unchanged, with no fuel needed: a failed listing
    switches the renaming off without a signal. *)
Theorem get_unique_filename_listing_fails (fuel : nat) (base_name : string)
    (folder : value) (w : World) :
  (∀ ft, ∃ files w',
     list_folder_files remote clock ft w = (Ok files, w'))
  ∧ ((∀ n r, req_method r = GET → accepted (remote n r) = false) →
     ∃ w',
       list_folder_files remote clock
         (py_or folder (folder_token (self w))) w = (Ok (VList []), w')
       ∧ get_unique_filename remote clock fuel base_name folder w
         = (Ok base_name, w')).
Proof.
  assert (Hlist : ∀ ft, ∃ h w1 r,
            _get_headers remote clock w = (Ok h, w1)
            ∧ r = listing_request ft h
            ∧ list_folder_files remote clock ft w =
                match remote (length (sent w1)) r with
                | Some (VDict result) =>
                    if eq_zero (dict_get_none result "code") then
                      match dict_get result "data" (VDict ∅) with
                      | VDict data =>
                          (Ok (dict_get data "files" (VList [])),
                           with_sent r w1)
                      | _ => (Ok (VList []), with_sent r w1)
                      end
                    else (Ok (VList []), with_sent r w1)
                | _ => (Ok (VList []), with_sent r w1)
                end).
  { intros ft.
    destruct (tt_get_headers remote clock false w) as (posts & _ & _ & Hr).
    destruct (_get_headers remote clock w) as [[h|e|] w1] eqn:Hh;
      cbn in Hr; [|done..].
    exists h, w1, (listing_request ft h). split; [done|]. split; [done|].
    unfold list_folder_files, try_except. unfold bind at 1. rewrite Hh.
    unfold bind at 1, http. fold (listing_request ft h).
    destruct (remote (length (sent w1)) (listing_request ft h)) as [v|];
      [|reflexivity].
    destruct v; cbn [as_dict bind raise ret]; try reflexivity.
    destruct (eq_zero _); [|reflexivity].
    by destruct (dict_get d "data" (VDict ∅)). }
  split.
  - intros ft. destruct (Hlist ft) as (h & w1 & r & _ & _ & ->).
    destruct (remote _ r) as [[]|]; eauto.
    destruct (eq_zero _); eauto.
    destruct (dict_get d "data" (VDict ∅)); eauto.
  - intros Hrej.
    destruct (Hlist (py_or folder (folder_token (self w))))
      as (h & w1 & r & _ & -> & Hrun).
    set (r := listing_request _ h) in *.
    specialize (Hrej (length (sent w1)) r eq_refl). unfold accepted in Hrej.
    exists (with_sent r w1).
    assert (Hempty : list_folder_files remote clock
                       (py_or folder (folder_token (self w))) w
                     = (Ok (VList []), with_sent r w1)).
    { rewrite Hrun. destruct (remote _ r) as [[]|]; try done.
      by rewrite Hrej. }
    split; [done|].
    unfold get_unique_filename, bind at 1, gets. unfold bind at 1.
    rewrite Hempty. unfold bind at 1. cbn [existing_names names_of ret].
    by destruct (decide (base_name ∈ (∅ : gset string))); [set_solver|].
Qed.

(** X16. On a client whose expiry is a number, the token accessors, the
    refresh and the header builder never raise, whatever the service
    answers, and the only requests they send are POSTs.  (A [Client] holds
    a numeric expiry; the one client that does not is the one loaded from
    a config file whose [token_expires_at] is no number, for which
    [_load_config] answers [OutsideModel].) *)
Theorem token_accessors_never_raise (w : World) :
  Forall (λ m : M value,
            ∃ v w' new,
              m w = (Ok v, w') ∧ sent w' = sent w ++ new
              ∧ Forall (λ r, req_method r = POST) new)
    [get_user_access_token remote clock;
     get_tenant_access_token remote clock;
     _get_headers remote clock]
  ∧ ∃ b w' new,
      refresh_user_token remote clock w = (Ok b, w')
      ∧ sent w' = sent w ++ new
      ∧ Forall (λ r, req_method r = POST) new.
Proof.
  assert (Hok : ∀ A (m : M A), token_traffic false m →
                  ∃ v w' new, m w = (Ok v, w') ∧ sent w' = sent w ++ new
                              ∧ Forall (λ r, req_method r = POST) new).
  { intros A m Hm. destruct (Hm w) as (new & Hs & Hp & Hr).
    destruct (m w) as [[v|e|] w']; cbn in *; [|done..].
    by exists v, w', new. }
  split.
  - repeat constructor; apply Hok.
    + apply tt_get_user_access_token.
    + apply tt_get_tenant_access_token.
    + apply tt_get_headers.
  - apply Hok, tt_refresh_user_token.
Qed.

End Tokens.

(** ** Column letters, the other way round *)

Lemma chr_ord (c : ascii) : chr (ord c) = c.
Proof. unfold chr, ord. rewrite N2Z.id. apply ascii_N_embedding. Qed.

Lemma col_to_letter_column_number_from (s : string) :
  all_letters s = true →
  ∀ acc, 0 ≤ acc →
    col_to_letter (column_number_from acc s) = col_to_letter acc +:+ s
    ∧ acc ≤ column_number_from acc s.
Proof.
  induction s as [|c s IH]; intros Hall acc Hacc.
  - cbn [column_number_from]. split; [|lia].
    clear. induction (col_to_letter acc) as [|a l IHl]; [done|].
    change (String a l +:+ "") with (String a (l +:+ "")). by rewrite <- IHl.
  - cbn [all_letters] in Hall. apply andb_true_iff in Hall as [Hc Hs].
    unfold is_letter in Hc. apply andb_true_iff in Hc as [Hlo Hhi].
    apply Z.leb_le in Hlo, Hhi.
    cbn [column_number_from]. change (ord "A") with 65.
    destruct (IH Hs (26 * acc + (ord c - 65 + 1)) ltac:(lia)) as [-> Hle].
    split; [|lia].
    rewrite (col_to_letter_step (26 * acc + (ord c - 65 + 1))) by lia.
    replace ((26 * acc + (ord c - 65 + 1) - 1) `div` 26) with acc
      by (apply (Z.div_unique _ 26 acc (ord c - 65)); lia).
    replace ((26 * acc + (ord c - 65 + 1) - 1) `mod` 26) with (ord c - 65)
      by (apply (Z.mod_unique _ 26 acc (ord c - 65)); lia).
    change (ord "A") with 65.
    replace (ord c - 65 + 65) with (ord c) by lia.
    rewrite chr_ord. by rewrite append_assoc.
Qed.

(** X17. [col_to_letter] is the inverse of reading a letter string as a
    column number: every string of the letters A to Z is the encoding of
    the number it stands for, and different positive column counts never
    share a letter string. *)
Theorem col_to_letter_inverse :
  (∀ s, all_letters s = true → col_to_letter (column_number s) = s)
  ∧ (∀ a b, 0 < a → 0 < b → col_to_letter a = col_to_letter b → a = b).
Proof.
  split.
  - intros s Hall.
    destruct (col_to_letter_column_number_from s Hall 0 ltac:(lia)) as [H _].
    unfold column_number. rewrite H. by rewrite col_to_letter_nonpos.
  - intros a b Ha Hb Heq.
    destruct (col_to_letter_sound a ltac:(lia)) as [<- _].
    destruct (col_to_letter_sound b ltac:(lia)) as [<- _].
    by rewrite Heq.
Qed.

(** ** Loading a client from the config file *)

Lemma credential_Some (placeholder : string) (v : value) (s : string) :
  credential placeholder v = Some (Some s) ↔
  v = VStr s ∧ s ≠ "" ∧ s ≠ placeholder.
Proof.
  unfold credential. split.
  - destruct v; try (by destruct (truthy _)).
    destruct (String.eqb_spec s0 ""), (String.eqb_spec s0 placeholder);
      cbn; try done. by intros [= ->].
  - intros (-> & H1 & H2).
    apply String.eqb_neq in H1, H2. by rewrite H1, H2.
Qed.

(** What [load_sync_client] makes of a config that holds usable
    credentials. *)
Lemma load_sync_client_Config (config : gmap string value)
    (id secret : string) :
  config !! "app_id" = Some (VStr id) → id ≠ "" → id ≠ "YOUR_APP_ID" →
  config !! "app_secret" = Some (VStr secret) →
  secret ≠ "" → secret ≠ "YOUR_APP_SECRET" →
  load_sync_client (Config config) =
    match dict_get config "token_expires_at" (VInt 0) with
    | VInt z =>
        Loaded {| app_id := id; app_secret := secret;
                  folder_token := dict_get config "folder_token" (VStr "");
                  user_access_token := dict_get_none config "user_access_token";
                  refresh_token := dict_get_none config "refresh_token";
                  tenant_access_token := VNone;
                  token_expires_at := inject_Z z;
                  use_tenant_token :=
                    truthy (dict_get config "use_tenant_token" (VBool false)) |}
    | VFloat q =>
        Loaded {| app_id := id; app_secret := secret;
                  folder_token := dict_get config "folder_token" (VStr "");
                  user_access_token := dict_get_none config "user_access_token";
                  refresh_token := dict_get_none config "refresh_token";
                  tenant_access_token := VNone;
                  token_expires_at := q;
                  use_tenant_token :=
                    truthy (dict_get config "use_tenant_token" (VBool false)) |}
    | _ => OutsideModel
    end.
Proof.
  intros Hid Hid1 Hid2 Hsec Hsec1 Hsec2. unfold load_sync_client.
  assert (dict_get config "app_id" (VStr "") = VStr id) as ->.
  { unfold dict_get. by rewrite Hid. }
  assert (dict_get config "app_secret" (VStr "") = VStr secret) as ->.
  { unfold dict_get. by rewrite Hsec. }
  rewrite (proj2 (credential_Some "YOUR_APP_ID" (VStr id) id)) by done.
  rewrite (proj2 (credential_Some "YOUR_APP_SECRET" (VStr secret) secret))
    by done.
  unfold __init__, _load_config. cbn [folder_token].
  destruct (truthy (dict_get config "folder_token" (VStr "")));
    cbn [negb]; by destruct (dict_get config "token_expires_at" (VInt 0)).
Qed.

(** The config behind a loaded client. *)
Lemma load_sync_client_Loaded (f : config_file) (c : Client) :
  load_sync_client f = Loaded c →
  ∃ config,
    f = Config config
    ∧ config !! "app_id" = Some (VStr (app_id c))
    ∧ app_id c ≠ "" ∧ app_id c ≠ "YOUR_APP_ID"
    ∧ config !! "app_secret" = Some (VStr (app_secret c))
    ∧ app_secret c ≠ "" ∧ app_secret c ≠ "YOUR_APP_SECRET"
    ∧ tenant_access_token c = VNone
    ∧ use_tenant_token c
      = truthy (dict_get config "use_tenant_token" (VBool false)).
Proof.
  unfold load_sync_client. destruct f as [| |config]; [done..|].
  intros Hload. exists config. split; [done|].
  destruct (credential "YOUR_APP_ID" _) as [[id|]|] eqn:Hid;
    [|done|by destruct (credential "YOUR_APP_SECRET" _) as [[|]|]].
  destruct (credential "YOUR_APP_SECRET" _) as [[secret|]|] eqn:Hsec;
    [|done..].
  apply credential_Some in Hid as (Hid & Hid1 & Hid2).
  apply credential_Some in Hsec as (Hsec & Hsec1 & Hsec2).
  assert (Hget : ∀ k s, dict_get config k (VStr "") = VStr s → s ≠ "" →
                        config !! k = Some (VStr s)).
  { intros k s0 Hk Hne. unfold dict_get in Hk.
    destruct (config !! k); cbn in Hk; [by subst|]. by injection Hk as <-. }
  apply Hget in Hid, Hsec; [|done..].
  pose proof (load_sync_client_Config config id secret
                Hid Hid1 Hid2 Hsec Hsec1 Hsec2) as Heq.
  unfold load_sync_client in Heq.
  rewrite (proj2 (credential_Some "YOUR_APP_ID" _ id)) in Heq
    by (split; [unfold dict_get; by rewrite Hid|done]).
  rewrite (proj2 (credential_Some "YOUR_APP_SECRET" _ secret)) in Heq
    by (split; [unfold dict_get; by rewrite Hsec|done]).
  rewrite Heq in Hload.
  destruct (dict_get config "token_expires_at" (VInt 0));
    try done; by injection Hload as <-.
Qed.

(** X18. [load_sync_client] gives a client only for a config file that is
    a JSON object holding a non-empty [app_id] and [app_secret] other
    than the placeholders; the client it gives holds no service token.
    The file that [create_config_template] writes is refused, and
    [create_config_template] never overwrites a file that exists. *)
Theorem load_sync_client_needs_credentials (f : config_file) (c : Client) :
  (load_sync_client f = Loaded c →
   ∃ config,
     f = Config config
     ∧ config !! "app_id" = Some (VStr (app_id c))
     ∧ app_id c ≠ "" ∧ app_id c ≠ "YOUR_APP_ID"
     ∧ config !! "app_secret" = Some (VStr (app_secret c))
     ∧ app_secret c ≠ "" ∧ app_secret c ≠ "YOUR_APP_SECRET"
     ∧ tenant_access_token c = VNone)
  ∧ load_sync_client (Config template) = NotLoaded
  ∧ (∀ w, file w = NoFile → file_writable w = true →
          load_sync_client (file (create_config_template w).2) = NotLoaded)
  ∧ (∀ w, file w ≠ NoFile →
          create_config_template w = (Ok "./feishu_config.json", w)).
Proof.
  split; [|split; [done|split]].
  - intros (config & Hf & Hid & Hid1 & Hid2 & Hsec & Hsec1 & Hsec2 & Hten & _)
      %load_sync_client_Loaded.
    by exists config.
  - intros w Hf Hw. unfold create_config_template. by rewrite Hf, Hw.
  - intros w Hf. unfold create_config_template. by destruct (file w).
Qed.

Section Restart.

Variable remote : nat -> request -> option value.
Variable clock : nat -> instant.

(** X19. What survives a restart.  After [_save_config] on a loadable,
    writable config with usable credentials, [load_sync_client] gives a
    client with the same delegated token, refresh token and expiry as the
    client that saved, and with the credentials, folder and mode flag of
    the file; the service token is not among what survives. *)
Theorem save_then_load_restores_user_token (w : World)
    (config : gmap string value) (id secret : string) :
  file w = Config config →
  file_writable w = true →
  config !! "app_id" = Some (VStr id) → id ≠ "" → id ≠ "YOUR_APP_ID" →
  config !! "app_secret" = Some (VStr secret) →
  secret ≠ "" → secret ≠ "YOUR_APP_SECRET" →
  load_sync_client (file (_save_config clock w).2) =
    Loaded {| app_id := id; app_secret := secret;
              folder_token := dict_get config "folder_token" (VStr "");
              user_access_token := user_access_token (self w);
              refresh_token := refresh_token (self w);
              tenant_access_token := VNone;
              token_expires_at := token_expires_at (self w);
              use_tenant_token :=
                truthy (dict_get config "use_tenant_token" (VBool false)) |}.
Proof.
  intros Hf Hw Hid Hid1 Hid2 Hsec Hsec1 Hsec2.
  unfold _save_config, try_except. rewrite Hf. cbn [tick file_writable].
  rewrite Hw. cbn [snd file with_file].
  rewrite (load_sync_client_Config _ id secret); try done;
    [|by simplify_map_eq..].
  unfold dict_get, dict_get_none. by simplify_map_eq.
Qed.

Lemma get_tenant_access_token_keeps (w : World) :
  file (get_tenant_access_token remote clock w).2 = file w
  ∧ file_writable (get_tenant_access_token remote clock w).2 = file_writable w
  ∧ use_tenant_token (self (get_tenant_access_token remote clock w).2)
    = use_tenant_token (self w).
Proof.
  unfold get_tenant_access_token, bind, now, gets, try_except, http, modify.
  cbn [self tick].
  destruct (_ && _); [done|].
  destruct (remote _ _) as [[]|]; cbn [as_dict raise ret]; try done.
  destruct (eq_zero _); [|done].
  by destruct (dict_get d "expire" (VInt 7200)).
Qed.

(** X20. [enable_simple_mode] never raises and always leaves the client
    in service-token mode, also when it reports failure.  The config file
    changes only when it reports success: the mode flag is then set in
    the file and every other key except the time of writing is kept, so a
    client loaded from that file is in service-token mode; on failure the
    file is as before. *)
Theorem enable_simple_mode_sets_flag (w : World) :
  ∃ b w',
    enable_simple_mode remote clock w = (Ok b, w')
    ∧ use_tenant_token (self w') = true
    ∧ (b = false → file w' = file w)
    ∧ (b = true →
       ∃ config',
         file w' = Config config'
         ∧ config' !! "use_tenant_token" = Some (VBool true)
         ∧ (∀ k, k ≠ "use_tenant_token" → k ≠ "updated_at" →
                 config' !! k = match file w with
                                | Config config => config !! k
                                | _ => None
                                end)
         ∧ ∀ c, load_sync_client (file w') = Loaded c →
                use_tenant_token c = true).
Proof.
  unfold enable_simple_mode. unfold bind at 1, modify.
  set (w0 := set_self (with_use_tenant_token true) w).
  pose proof (get_tenant_access_token_keeps w0) as (Hfile & Hwr & Hflag).
  destruct (tt_get_tenant_access_token remote clock false w0)
    as (new & _ & _ & Hr).
  unfold bind at 1.
  destruct (get_tenant_access_token remote clock w0) as [[token|e|] w1];
    cbn [fst snd] in *; [|done..].
  change (file w0) with (file w) in Hfile.
  change (use_tenant_token (self w0)) with true in Hflag.
  destruct (truthy token); [|by exists false, w1].
  unfold try_except. rewrite Hfile.
  destruct (file w) as [| |config] eqn:Hf.
  - cbn [tick file_writable]. destruct (file_writable w1) eqn:Hw1.
    + eexists true, _. split; [reflexivity|]. split; [done|].
      split; [done|]. intros _. eexists. split; [reflexivity|].
      split; [by simplify_map_eq|]. split.
      * intros k Hk1 Hk2. by rewrite !lookup_insert_ne.
      * cbn [file with_file]. intros c Hc. done.
    + exists false, (tick w1). by rewrite <- Hfile.
  - exists false, w1. by rewrite <- Hfile.
  - cbn [tick file_writable]. destruct (file_writable w1) eqn:Hw1.
    + eexists true, _. split; [reflexivity|]. split; [done|].
      split; [done|]. intros _. eexists. split; [reflexivity|].
      split; [by simplify_map_eq|]. split.
      * intros k Hk1 Hk2. by rewrite !lookup_insert_ne.
      * cbn [file with_file]. intros c Hc.
        destruct (load_sync_client_Loaded _ c Hc)
          as (cfg & [= <-] & _ & _ & _ & _ & _ & _ & _ & Hmode).
        rewrite Hmode. unfold dict_get. by simplify_map_eq.
    + exists false, (tick w1). by rewrite <- Hfile.
Qed.

End Restart.

(** ** The client on sample services *)

Lemma write_data_writes_every_row_witness :
  ∃ w' new,
    write_data Samples.granting (λ _, Samples.noon) MoreSamples.small_grid
      "sheet1" "A1" (Some "sht") 2 Samples.world = (Ok true, w')
    ∧ concat (written_rows <$> (req_payload <$> chunk_writes new))
      = MoreSamples.small_grid
    ∧ length (chunk_writes new) = 2%nat.
Proof.
  destruct (write_data_writes_every_row Samples.granting (λ _, Samples.noon)
              MoreSamples.small_grid "sheet1" "A1" "sht" 2 Samples.world)
    as (w' & new & Hrun & _ & Hrows & Hlen & _).
  - discriminate.
  - discriminate.
  - reflexivity.
  - lia.
  - intros n r Hr. unfold Samples.granting. rewrite Hr.
    eexists. split; reflexivity.
  - exists w', new. split; [exact Hrun|]. split; [exact Hrows|].
    apply Nat2Z.inj. rewrite Hlen. reflexivity.
Defined.

Lemma write_data_stops_at_rejection_witness :
  ∃ w' new,
    write_data MoreSamples.refusing_two (λ _, Samples.noon)
      MoreSamples.small_grid "sheet1" "A1" (Some "sht") 1 Samples.world
      = (Ok false, w')
    ∧ sent w' = new
    ∧ written_rows <$> (req_payload <$> chunk_writes new)
      = [[[VInt 1]]; [[VInt 2]]].
Proof.
  destruct (write_data_stops_at_rejection MoreSamples.refusing_two
              (λ _, Samples.noon) MoreSamples.small_grid "sheet1" "A1" "sht"
              1 1 Samples.world)
    as (w' & new & Hrun & Hsent & Hpay & _).
  - discriminate.
  - discriminate.
  - reflexivity.
  - lia.
  - vm_compute. split; [discriminate|reflexivity].
  - intros n r j Hr Hj Hp. assert (j = 0) as -> by lia.
    unfold MoreSamples.refusing_two, MoreSamples.carries_two.
    rewrite Hr, Hp. vm_compute. reflexivity.
  - intros n r Hr Hp.
    unfold MoreSamples.refusing_two, MoreSamples.carries_two.
    rewrite Hr, Hp. vm_compute. reflexivity.
  - exists w', new. split; [exact Hrun|]. split; [exact Hsent|].
    rewrite Hpay. vm_compute. reflexivity.
Defined.

Lemma exchange_code_for_token_bad_expiry_witness :
  ∃ w',
    exchange_code_for_token MoreSamples.late (λ _, Samples.noon) "code"
      Samples.world = (Ok false, w')
    ∧ user_access_token (self w') = VStr "u-9"
    ∧ token_expires_at (self w') = 2000%Q
    ∧ file w' = NoFile.
Proof.
  destruct (exchange_code_for_token_bad_expiry MoreSamples.late
              (λ _, Samples.noon) "code" Samples.world MoreSamples.app_answer
              MoreSamples.late_answer MoreSamples.late_data)
    as (w' & Hrun & Huser & _ & Hexp & Hfile & _);
    try reflexivity.
  exists w'. split; [exact Hrun|].
  split; [by rewrite Huser|]. split; [by rewrite Hexp|by rewrite Hfile].
Defined.

Lemma tenant_token_reused_after_renewal_witness :
  ∃ w1,
    get_tenant_access_token Samples.granting (λ _, Samples.noon)
      Samples.fresh_world = (Ok (VStr "t-1"), w1)
    ∧ get_tenant_access_token Samples.granting (λ _, Samples.noon) w1
      = (Ok (VStr "t-1"), tick w1).
Proof.
  destruct (tenant_token_reused_after_renewal Samples.granting
              (λ _, Samples.noon) Samples.fresh_world MoreSamples.granted 7200)
    as (w1 & Hrun & _ & Hagain); try reflexivity.
  exists w1. split; [exact Hrun|exact Hagain].
Defined.

Lemma tenant_renewal_lends_expiry_to_user_token_witness :
  ∃ w1,
    (get_tenant_access_token Samples.granting (λ _, Samples.noon)
       Samples.fresh_world).2 = w1
    ∧ token_expires_at (self w1) = 8200%Q
    ∧ get_user_access_token Samples.granting (λ _, Samples.noon) w1
      = (Ok (VStr "u-0"), tick w1).
Proof.
  destruct (tenant_renewal_lends_expiry_to_user_token Samples.granting
              (λ _, Samples.noon) Samples.fresh_world MoreSamples.granted 7200)
    as (w1 & Hrun & Hexp & Hagain); try reflexivity.
  exists w1. split; [exact Hrun|]. split; [by rewrite Hexp|exact Hagain].
Defined.

Lemma save_then_load_restores_user_token_witness :
  load_sync_client
    (file (_save_config (λ _, Samples.noon) MoreSamples.configured_world).2)
  = Loaded (with_tenant_access_token VNone Samples.client).
Proof.
  rewrite (save_then_load_restores_user_token (λ _, Samples.noon)
             MoreSamples.configured_world MoreSamples.credentials
             "cli_app" "secret"); (reflexivity || discriminate).
Defined.

Lemma exchange_code_for_token_first_step_fails_witness :
  exchange_code_for_token MoreSamples.silent (λ _, Samples.noon) "code"
    Samples.world
  = (Ok false, with_sent (app_token_request Samples.client) Samples.world).
Proof.
  apply (proj2 (exchange_code_for_token_first_step_fails MoreSamples.silent
                  (λ _, Samples.noon) "code" Samples.world)).
  reflexivity.
Defined.

Lemma get_unique_filename_listing_fails_witness :
  (get_unique_filename MoreSamples.silent (λ _, Samples.noon) 0 "X" VNone
     Samples.world).1 = Ok "X".
Proof.
  destruct (proj2 (get_unique_filename_listing_fails MoreSamples.silent
                     (λ _, Samples.noon) 0 "X" VNone Samples.world))
    as (w' & _ & Hrun).
  - reflexivity.
  - by rewrite Hrun.
Defined.

Lemma col_to_letter_inverse_witness :
  col_to_letter (column_number "AB") = "AB".
Proof. apply (proj1 col_to_letter_inverse "AB"). reflexivity. Defined.

(** The client loaded from the sample config. *)
Definition sample_client : Client :=
  match load_sync_client (Config MoreSamples.credentials) with
  | Loaded c => c
  | _ => Samples.client
  end.

Lemma load_sync_client_needs_credentials_witness :
  ∃ config,
    Config MoreSamples.credentials = Config config
    ∧ config !! "app_id" = Some (VStr "cli_app")
    ∧ tenant_access_token sample_client = VNone.
Proof.
  destruct (proj1 (load_sync_client_needs_credentials
                     (Config MoreSamples.credentials) sample_client))
    as (config & Hfile & Hid & _ & _ & _ & _ & _ & Htenant).
  - vm_compute. reflexivity.
  - exists config. split; [exact Hfile|]. split; [exact Hid|exact Htenant].
Defined.

End SyncExtras.
